(** * Offline license issuance and activation: a shallow embedding

    The development follows the TypeScript sources
    - [server/license-generator.ts] (class [LicenseGenerator]),
    - [server/license-db.ts] (the store adapter over drizzle/MySQL),
    - [server/routers.ts] (the [licensing] router),
    - [drizzle/schema.ts] (tables [licenses], [activations] and [purchases]),
    - the class [PaymentService], found in [server/cloud-storage-service.ts].

    Conventions of the model.
    - A JavaScript string is a Rocq [string] holding its UTF-8 bytes; a
      [Buffer] is a [list ascii].  [Buffer.from(s)] is then the identity on
      bytes and [buf.toString('utf-8')] is the WHATWG decoder followed by
      re-encoding, that is: ill-formed sequences become EF BF BD.
    - JavaScript numbers are the integers [Z] (exact below 2^53); a number
      parsed from JSON text is kept as a decimal [mantissa * 10^exponent]
      and read as the double nearest to it.
    - An exception is a value [Thrown e] of type [outcome]; [try]/[catch]
      is [try_catch].
    - [crypto.sign], [crypto.verify], [Date.now()] and
      [crypto.randomBytes] are arguments of the functions that call them. *)

From Stdlib Require Import ZArith NArith List String Ascii Bool Lia.
From Stdlib Require Import DecimalString.
From Stdlib Require DecimalPos DecimalFacts.
Import ListNotations.

Open Scope string_scope.
Open Scope list_scope.
Open Scope Z_scope.

(** ** Exceptions and results *)

Inductive JsError : Type :=
| SyntaxError
| TypeError
| RangeError
| CryptoError
| Error (message : string).

Inductive outcome (A : Type) : Type :=
| Returned (a : A)
| Thrown (e : JsError).

Arguments Returned {A} a.
Arguments Thrown {A} e.

Definition obind {A B : Type} (m : outcome A) (k : A -> outcome B) : outcome B :=
  match m with
  | Returned a => k a
  | Thrown e => Thrown e
  end.

Definition try_catch {A : Type} (body : outcome A) (handler : JsError -> A) : A :=
  match body with
  | Returned a => a
  | Thrown e => handler e
  end.

Declare Scope outcome_scope.
Delimit Scope outcome_scope with outcome.
Notation "'let!' x ':=' m 'in' k" := (obind m (fun x => k))
  (at level 10, x binder, k at level 200) : outcome_scope.

(** ** Characters *)

Module Chars.
Local Open Scope N_scope.

Definition code (c : ascii) : N := N_of_ascii c.
Definition chr (n : N) : ascii := ascii_of_N n.

Definition between (lo hi : N) (c : ascii) : bool :=
  (N.leb lo (code c) && N.leb (code c) hi)%bool.

Definition is_upper : ascii -> bool := between 65 90.
Definition is_lower : ascii -> bool := between 97 122.
Definition is_digit : ascii -> bool := between 48 57.

(** The character class [[A-Z0-9]] under the [i] flag. *)
Definition is_alnum (c : ascii) : bool :=
  (is_upper c || is_lower c || is_digit c)%bool.

(** [String.prototype.toUpperCase] on one ASCII character. *)
Definition upper (c : ascii) : ascii :=
  if is_lower c then chr (code c - 32) else c.

Fixpoint sfilter (p : ascii -> bool) (s : string) : string :=
  match s with
  | EmptyString => EmptyString
  | String c rest => if p c then String c (sfilter p rest) else sfilter p rest
  end.

Fixpoint smap (f : ascii -> ascii) (s : string) : string :=
  match s with
  | EmptyString => EmptyString
  | String c rest => String (f c) (smap f rest)
  end.

(** [s.slice(0, n)] *)
Fixpoint stake (n : nat) (s : string) : string :=
  match n, s with
  | S k, String c rest => String c (stake k rest)
  | _, _ => EmptyString
  end.

(** [s.slice(n)] *)
Fixpoint sdrop (n : nat) (s : string) : string :=
  match n, s with
  | S k, String _ rest => sdrop k rest
  | _, _ => s
  end.

(** [parts.join(sep)] *)
Fixpoint join (sep : string) (parts : list string) : string :=
  match parts with
  | [] => EmptyString
  | [p] => p
  | p :: rest => p ++ sep ++ join sep rest
  end.

Definition hex_digit (n : N) : ascii :=
  if N.ltb n 10 then chr (48 + n) else chr (87 + n).

End Chars.

(** ** Base64 as implemented by Node's [Buffer] *)

Module Base64.
Import Chars.
Local Open Scope N_scope.

Definition alphabet : string :=
  "ABCDEFGHIJKLMNOPQRSTUVWXYZabcdefghijklmnopqrstuvwxyz0123456789+/".

Definition enc (n : N) : ascii :=
  match String.get (N.to_nat n) alphabet with
  | Some c => c
  | None => "="%char
  end.

(** [buf.toString('base64')]: three bytes give four characters; a tail of
    one or two bytes is padded with [=]. *)
Fixpoint encode (bs : list ascii) : string :=
  match bs with
  | [] => EmptyString
  | [a] =>
      let x := code a in
      String (enc (x / 4)) (String (enc ((x mod 4) * 16)) "==")
  | [a; b] =>
      let x := code a in
      let y := code b in
      String (enc (x / 4))
        (String (enc ((x mod 4) * 16 + y / 16))
           (String (enc ((y mod 16) * 4)) "="))
  | a :: b :: c :: rest =>
      let x := code a in
      let y := code b in
      let z := code c in
      String (enc (x / 4))
        (String (enc ((x mod 4) * 16 + y / 16))
           (String (enc ((y mod 16) * 4 + z / 64))
              (String (enc (z mod 64)) (encode rest))))
  end.

(** The value of a character of the standard or of the URL-safe alphabet. *)
Definition dec (c : ascii) : option N :=
  let x := code c in
  if is_upper c then Some (x - 65)
  else if is_lower c then Some (x - 71)
  else if is_digit c then Some (x + 4)
  else if (N.eqb x 43 || N.eqb x 45)%bool then Some 62
  else if (N.eqb x 47 || N.eqb x 95)%bool then Some 63
  else None.

(** Node's decoder is lenient: characters outside the alphabet are skipped
    and the first [=] ends the input. *)
Fixpoint sextets (s : string) : list N :=
  match s with
  | EmptyString => []
  | String c rest =>
      if Ascii.eqb c "="%char then []
      else match dec c with
           | Some v => v :: sextets rest
           | None => sextets rest
           end
  end.

(** Four sextets give three bytes; a tail of three gives two bytes, a tail
    of two gives one and a single trailing sextet is dropped. *)
Fixpoint pack (l : list N) : list ascii :=
  match l with
  | a :: b :: c :: d :: rest =>
      chr (a * 4 + b / 16) :: chr ((b mod 16) * 16 + c / 4)
        :: chr ((c mod 4) * 64 + d) :: pack rest
  | [a; b; c] => [chr (a * 4 + b / 16); chr ((b mod 16) * 16 + c / 4)]
  | [a; b] => [chr (a * 4 + b / 16)]
  | _ => []
  end.

(** [Buffer.from(s, 'base64')] for a string [s]. *)
Definition decode (s : string) : list ascii := pack (sextets s).

End Base64.

(** ** UTF-8 as decoded by [buf.toString('utf-8')] *)

Module Utf8.
Import Chars.
Local Open Scope N_scope.

(** U+FFFD, the replacement character. *)
Definition replacement : list ascii := [chr 239; chr 191; chr 189].

(** Well-formed sequences are kept; every maximal ill-formed part becomes
    one replacement character and decoding resumes at the offending byte. *)
Fixpoint sanitize (bs : list ascii) : list ascii :=
  match bs with
  | [] => []
  | b :: rest =>
      let x := code b in
      if x <=? 127 then b :: sanitize rest
      else if between 194 223 b then
        match rest with
        | c :: rest1 =>
            if between 128 191 c then b :: c :: sanitize rest1
            else replacement ++ sanitize rest
        | [] => replacement
        end
      else if between 224 239 b then
        let lo := if x =? 224 then 160 else 128 in
        let hi := if x =? 237 then 159 else 191 in
        match rest with
        | c :: rest1 =>
            if between lo hi c then
              match rest1 with
              | d :: rest2 =>
                  if between 128 191 d then b :: c :: d :: sanitize rest2
                  else replacement ++ sanitize rest1
              | [] => replacement
              end
            else replacement ++ sanitize rest
        | [] => replacement
        end
      else if between 240 244 b then
        let lo := if x =? 240 then 144 else 128 in
        let hi := if x =? 244 then 143 else 191 in
        match rest with
        | c :: rest1 =>
            if between lo hi c then
              match rest1 with
              | d :: rest2 =>
                  if between 128 191 d then
                    match rest2 with
                    | e :: rest3 =>
                        if between 128 191 e
                        then b :: c :: d :: e :: sanitize rest3
                        else replacement ++ sanitize rest2
                    | [] => replacement
                    end
                  else replacement ++ sanitize rest1
              | [] => replacement
              end
            else replacement ++ sanitize rest
        | [] => replacement
        end
      else replacement ++ sanitize rest
  end.

(** [buf.toString('utf-8')] *)
Definition toString (bs : list ascii) : string :=
  string_of_list_ascii (sanitize bs).

(** [Buffer.from(s)] with the default encoding. *)
Definition bytes (s : string) : list ascii := list_ascii_of_string s.

(** The UTF-8 encoding of one code point. *)
Definition encode_point (cp : N) : string :=
  string_of_list_ascii
    (if cp <? 128 then [chr cp]
     else if cp <? 2048 then [chr (192 + cp / 64); chr (128 + cp mod 64)]
     else if cp <? 65536 then
       [chr (224 + cp / 4096); chr (128 + (cp / 64) mod 64);
        chr (128 + cp mod 64)]
     else
       [chr (240 + cp / 262144); chr (128 + (cp / 4096) mod 64);
        chr (128 + (cp / 64) mod 64); chr (128 + cp mod 64)]).

End Utf8.

(** ** JSON: [JSON.stringify] on strings and numbers, and [JSON.parse] *)

Module JSON.
Import Chars.
Local Open Scope N_scope.

#[local] Set Warnings "-register-all".

Inductive json : Type :=
| JNull
| JBool (b : bool)
| JNum (mantissa exponent : Z)
| JStr (s : string)
| JArr (items : list json)
| JObj (members : list (string * json)).

Definition dquote : ascii := chr 34.
Definition backslash : ascii := chr 92.

Definition str1 (c : ascii) : string := String c EmptyString.

(** QuoteJSONString, applied to the bytes of the string: the quote, the
    backslash and the control characters are escaped, the rest is copied. *)
Definition escape_char (c : ascii) : string :=
  let x := code c in
  if x =? 34 then String backslash (str1 dquote)
  else if x =? 92 then String backslash (str1 backslash)
  else if x =? 8 then "\b"
  else if x =? 12 then "\f"
  else if x =? 10 then "\n"
  else if x =? 13 then "\r"
  else if x =? 9 then "\t"
  else if x <? 32 then "\u00" ++ String (hex_digit (x / 16)) (str1 (hex_digit (x mod 16)))
  else str1 c.

Fixpoint escape (s : string) : string :=
  match s with
  | EmptyString => EmptyString
  | String c rest => escape_char c ++ escape rest
  end.

Definition quote (s : string) : string :=
  String dquote (escape s ++ str1 dquote).

(** [JSON.stringify] of an integer. *)
Definition number (z : Z) : string := NilZero.string_of_int (Z.to_int z).

(** *** Parsing *)

Fixpoint skip_ws (s : string) : string :=
  match s with
  | String c rest =>
      let x := code c in
      if (x =? 32) || (x =? 9) || (x =? 10) || (x =? 13) then skip_ws rest
      else s
  | EmptyString => EmptyString
  end.

Fixpoint strip_prefix (p s : string) : option string :=
  match p, s with
  | EmptyString, _ => Some s
  | String a p', String b s' =>
      if Ascii.eqb a b then strip_prefix p' s' else None
  | String _ _, EmptyString => None
  end.

Fixpoint span_digits (s : string) : list N * string :=
  match s with
  | String c rest =>
      if is_digit c then
        let (ds, r) := span_digits rest in (code c - 48 :: ds, r)
      else ([], s)
  | EmptyString => ([], EmptyString)
  end.

Definition digits_value (ds : list N) : Z :=
  fold_left (fun acc d => (acc * 10 + Z.of_N d)%Z) ds 0%Z.

(** [int frac? exp?] after the optional sign. *)
Definition parse_unsigned (s : string) : option (Z * Z * string) :=
  match s with
  | String c rest =>
      if is_digit c then
        let (ipart, r1) :=
          if code c =? 48 then ([0], rest) else span_digits s in
        let '(fpart, r2, frac_ok) :=
          match r1 with
          | String d r =>
              if code d =? 46 then
                let (fs, r') := span_digits r in
                (fs, r', negb (Nat.eqb (List.length fs) 0))
              else ([], r1, true)
          | EmptyString => ([], r1, true)
          end in
        let '(e, r3, exp_ok) :=
          match r2 with
          | String d r =>
              if (code d =? 101) || (code d =? 69) then
                let '(sg, r') :=
                  match r with
                  | String g r'' =>
                      if code g =? 45 then ((-1)%Z, r'')
                      else if code g =? 43 then (1%Z, r'')
                      else (1%Z, r)
                  | EmptyString => (1%Z, r)
                  end in
                let (es, r'') := span_digits r' in
                ((sg * digits_value es)%Z, r'',
                 negb (Nat.eqb (List.length es) 0))
              else (0%Z, r2, true)
          | EmptyString => (0%Z, r2, true)
          end in
        if frac_ok && exp_ok then
          Some (digits_value (ipart ++ fpart),
                (e - Z.of_nat (List.length fpart))%Z, r3)
        else None
      else None
  | EmptyString => None
  end.

Definition parse_number (s : string) : option (json * string) :=
  match s with
  | String c rest =>
      if code c =? 45 then
        match parse_unsigned rest with
        | Some (m, e, r) => Some (JNum (- m) e, r)
        | None => None
        end
      else
        match parse_unsigned s with
        | Some (m, e, r) => Some (JNum m e, r)
        | None => None
        end
  | EmptyString => None
  end.

(** The body of a string literal: raw bytes and [\uXXXX] code units. *)
Inductive sitem : Type :=
| Raw (c : ascii)
| Unit16 (u : N).

Definition hex_value (c : ascii) : option N :=
  if is_digit c then Some (code c - 48)
  else if between 97 102 c then Some (code c - 87)
  else if between 65 70 c then Some (code c - 55)
  else None.

Definition hex4 (a b c d : ascii) : option N :=
  match hex_value a, hex_value b, hex_value c, hex_value d with
  | Some w, Some x, Some y, Some z => Some (((w * 16 + x) * 16 + y) * 16 + z)
  | _, _, _, _ => None
  end.

Definition simple_escape (c : ascii) : option ascii :=
  let x := code c in
  if (x =? 34) || (x =? 92) || (x =? 47) then Some c
  else if x =? 98 then Some (chr 8)
  else if x =? 102 then Some (chr 12)
  else if x =? 110 then Some (chr 10)
  else if x =? 114 then Some (chr 13)
  else if x =? 116 then Some (chr 9)
  else None.

Definition cons_item (i : sitem) (r : option (list sitem * string))
  : option (list sitem * string) :=
  match r with
  | Some (its, rest) => Some (i :: its, rest)
  | None => None
  end.

Fixpoint string_items (s : string) : option (list sitem * string) :=
  match s with
  | EmptyString => None
  | String c rest =>
      let x := code c in
      if x =? 34 then Some ([], rest)
      else if x <? 32 then None
      else if x =? 92 then
        match rest with
        | String e rest1 =>
            if code e =? 117 then
              match rest1 with
              | String h1 (String h2 (String h3 (String h4 rest2))) =>
                  match hex4 h1 h2 h3 h4 with
                  | Some u => cons_item (Unit16 u) (string_items rest2)
                  | None => None
                  end
              | _ => None
              end
            else
              match simple_escape e with
              | Some ch => cons_item (Raw ch) (string_items rest1)
              | None => None
              end
        | EmptyString => None
        end
      else cons_item (Raw c) (string_items rest)
  end.

Definition is_high (u : N) : bool := (55296 <=? u) && (u <=? 56319).
Definition is_low (u : N) : bool := (56320 <=? u) && (u <=? 57343).

(** Code units become UTF-8; a surrogate pair is one code point and a lone
    surrogate is written as U+FFFD, which is what every consumer of the
    string in this program turns it into. *)
Fixpoint items_string (its : list sitem) : string :=
  match its with
  | [] => EmptyString
  | Raw c :: rest => String c (items_string rest)
  | Unit16 u :: rest =>
      if is_high u then
        match rest with
        | Unit16 v :: rest' =>
            if is_low v then
              Utf8.encode_point (65536 + (u - 55296) * 1024 + (v - 56320))
                ++ items_string rest'
            else string_of_list_ascii Utf8.replacement ++ items_string rest
        | _ => string_of_list_ascii Utf8.replacement ++ items_string rest
        end
      else if is_low u then
        string_of_list_ascii Utf8.replacement ++ items_string rest
      else Utf8.encode_point u ++ items_string rest
  end.

Definition parse_string (s : string) : option (string * string) :=
  match string_items s with
  | Some (its, rest) => Some (items_string its, rest)
  | None => None
  end.

Definition of_option {A : Type} (o : option A) : outcome A :=
  match o with
  | Some a => Returned a
  | None => Thrown SyntaxError
  end.

(** The recursive descent; [fuel] bounds the nesting of calls and running
    out of it is the engine's stack overflow. *)
Fixpoint parse_value (fuel : nat) (s : string) : outcome (json * string) :=
  match fuel with
  | O => Thrown RangeError
  | S f =>
      match skip_ws s with
      | EmptyString => Thrown SyntaxError
      | String c rest =>
          let x := code c in
          if x =? 123 then
            match skip_ws rest with
            | String d rest' =>
                if code d =? 125 then Returned (JObj [], rest')
                else parse_members f rest []
            | EmptyString => Thrown SyntaxError
            end
          else if x =? 91 then
            match skip_ws rest with
            | String d rest' =>
                if code d =? 93 then Returned (JArr [], rest')
                else parse_elements f rest []
            | EmptyString => Thrown SyntaxError
            end
          else if x =? 34 then
            match parse_string rest with
            | Some (str, r) => Returned (JStr str, r)
            | None => Thrown SyntaxError
            end
          else if x =? 116 then
            match strip_prefix "true" (String c rest) with
            | Some r => Returned (JBool true, r)
            | None => Thrown SyntaxError
            end
          else if x =? 102 then
            match strip_prefix "false" (String c rest) with
            | Some r => Returned (JBool false, r)
            | None => Thrown SyntaxError
            end
          else if x =? 110 then
            match strip_prefix "null" (String c rest) with
            | Some r => Returned (JNull, r)
            | None => Thrown SyntaxError
            end
          else of_option (parse_number (String c rest))
      end
  end
with parse_elements (fuel : nat) (s : string) (acc : list json)
  : outcome (json * string) :=
  match fuel with
  | O => Thrown RangeError
  | S f =>
      match parse_value f s with
      | Thrown e => Thrown e
      | Returned (v, rest) =>
          match skip_ws rest with
          | String c rest' =>
              if code c =? 44 then parse_elements f rest' (v :: acc)
              else if code c =? 93 then Returned (JArr (rev (v :: acc)), rest')
              else Thrown SyntaxError
          | EmptyString => Thrown SyntaxError
          end
      end
  end
with parse_members (fuel : nat) (s : string) (acc : list (string * json))
  : outcome (json * string) :=
  match fuel with
  | O => Thrown RangeError
  | S f =>
      match skip_ws s with
      | String q rest =>
          if code q =? 34 then
            match parse_string rest with
            | Some (k, r1) =>
                match skip_ws r1 with
                | String colon r2 =>
                    if code colon =? 58 then
                      match parse_value f r2 with
                      | Thrown e => Thrown e
                      | Returned (v, r3) =>
                          match skip_ws r3 with
                          | String c r4 =>
                              if code c =? 44
                              then parse_members f r4 ((k, v) :: acc)
                              else if code c =? 125
                              then Returned (JObj (rev ((k, v) :: acc)), r4)
                              else Thrown SyntaxError
                          | EmptyString => Thrown SyntaxError
                          end
                      end
                    else Thrown SyntaxError
                | EmptyString => Thrown SyntaxError
                end
            | None => Thrown SyntaxError
            end
          else Thrown SyntaxError
      | EmptyString => Thrown SyntaxError
      end
  end.

(** [JSON.parse(text)] *)
Definition parse (text : string) : outcome json :=
  match parse_value (2 * String.length text + 2) text with
  | Thrown e => Thrown e
  | Returned (v, rest) =>
      match skip_ws rest with
      | EmptyString => Returned v
      | String _ _ => Thrown SyntaxError
      end
  end.

(** *** Reading a parsed value the way JavaScript does *)

(** The last member with the given key, as [JSON.parse] keeps it. *)
Fixpoint lookup (k : string) (ms : list (string * json)) : option json :=
  match ms with
  | [] => None
  | (k', v) :: rest =>
      match lookup k rest with
      | Some w => Some w
      | None => if String.eqb k k' then Some v else None
      end
  end.

(** [v.k] for a key [k] that no prototype defines: reading a property of
    [null] throws, a missing property is [undefined] ([None]). *)
Definition get (k : string) (v : json) : outcome (option json) :=
  match v with
  | JNull => Thrown TypeError
  | JObj ms => Returned (lookup k ms)
  | _ => Returned None
  end.

(** *** Numbers as the engine holds them

    The value of a number literal [m * 10^e] is the double nearest to it,
    ties to even.  Integers are their own doubles below [2^53]; a value
    of magnitude [2^53] or more is compared as it is written, which gives
    what the doubles give against every reading of the clock (a reading
    is an integer of magnitude at most 8.64e15, below [2^53]). *)

(** The integer part of [log2 (a / b)], for positive [a] and [b]. *)
Definition floor_log2 (a b : Z) : Z :=
  let l := (Z.log2 a - Z.log2 b)%Z in
  if (if (0 <=? l)%Z then (b * 2 ^ l <=? a)%Z else (b <=? a * 2 ^ (- l))%Z)
  then l else (l - 1)%Z.

(** The double nearest to [a / b], for [0 < a / b < 2^53], as a pair
    [(mant, s)] that stands for [mant / 2^s]: 53 bits, or fewer when the
    exponent is the least one, [2^-1074]. *)
Definition nearest_double (a b : Z) : Z * Z :=
  let s := Z.min (52 - floor_log2 a b) 1074 in
  let n := (a * 2 ^ s)%Z in
  let q := (n / b)%Z in
  let r := (n mod b)%Z in
  let up := ((b <? 2 * r)%Z || ((b =? 2 * r)%Z && Z.odd q))%bool in
  (if up then (q + 1)%Z else q, s).

(** The number is [0] or [-0]: written so, or too small for a double. *)
Definition rounds_to_zero (m e : Z) : bool :=
  if (0 <=? e)%Z then (m =? 0)%Z
  else if (m =? 0)%Z then true
  else if (2 ^ 53 * 10 ^ (- e) <=? Z.abs m)%Z then false
  else (fst (nearest_double (Z.abs m) (10 ^ (- e))) =? 0)%Z.

(** [n > x] for an integer [n] and the number [x] parsed from [m * 10^e]. *)
Definition gt_decimal (n m e : Z) : bool :=
  if (0 <=? e)%Z then (m * 10 ^ e <? n)%Z
  else if (m =? 0)%Z then (0 <? n)%Z
  else if (2 ^ 53 * 10 ^ (- e) <=? Z.abs m)%Z then (m <? n * 10 ^ (- e))%Z
  else
    let (mant, s) := nearest_double (Z.abs m) (10 ^ (- e)) in
    (Z.sgn m * mant <? n * 2 ^ s)%Z.

(** ToBoolean *)
Definition truthy (v : option json) : bool :=
  match v with
  | None => false
  | Some JNull => false
  | Some (JBool b) => b
  | Some (JNum m e) => negb (rounds_to_zero m e)
  | Some (JStr s) => negb (String.eqb s EmptyString)
  | Some (JArr _) => true
  | Some (JObj _) => true
  end.

End JSON.

(** ** [server/license-generator.ts] *)

Module LicenseGenerator.
Import Chars JSON.

(** What the class takes from the runtime.  [sign] and [verify] are
    [crypto.sign] and [crypto.verify] with SHA-256, RSA-PSS padding and the
    key pair made by the constructor; [buffer_from_object] is
    [Buffer.from(v, 'base64')] for a parsed array or object [v];
    [to_number] is ToNumber for a parsed string, array or object, with
    [None] for NaN. *)
Record Platform : Type := {
  sign : list ascii -> list ascii;
  verify : list ascii -> list ascii -> outcome bool;
  buffer_from_object : json -> outcome (list ascii);
  to_number : json -> option (Z * Z)
}.

(** The readings of [Date.now()] and of [crypto.randomBytes(16)] made by
    one call of [generateLicenseKey], in the order of the object literal. *)
Record Entropy : Type := {
  now_expiry : Z;
  now_issued : Z;
  random_bytes : list ascii
}.

Record LicensePayload : Type := {
  email : string;
  maxActivations : Z;
  expiresAt : option Z;
  issuedAt : Z;
  nonce : string
}.

Record ValidationResult : Type := {
  valid : bool;
  payload : option json;
  error : option string
}.

Record TokenResult : Type := {
  token_valid : bool;
  token_data : option json;
  token_error : option string
}.

(** [buf.toString('hex')] *)
Fixpoint to_hex (bs : list ascii) : string :=
  match bs with
  | [] => EmptyString
  | b :: rest =>
      String (hex_digit (code b / 16))
        (String (hex_digit (code b mod 16)) (to_hex rest))
  end.

(** [expiresInDays ? Date.now() + (expiresInDays * 24 * 60 * 60 * 1000) : null]:
    an absent argument and the number 0 are both falsy. *)
Definition expiry_of (now : Z) (expiresInDays : option Z) : option Z :=
  match expiresInDays with
  | Some d => if negb (d =? 0) then Some (now + d * 24 * 60 * 60 * 1000) else None
  | None => None
  end.

(** The object literal [payload] of [generateLicenseKey]. *)
Definition build_payload (en : Entropy) (email : string) (maxActivations : Z)
  (expiresInDays : option Z) : LicensePayload :=
  {| email := email;
     maxActivations := maxActivations;
     expiresAt := expiry_of (now_expiry en) expiresInDays;
     issuedAt := now_issued en;
     nonce := to_hex (random_bytes en) |}.

Definition number_or_null (o : option Z) : string :=
  match o with
  | Some z => number z
  | None => "null"
  end.

(** [JSON.stringify(payload)] *)
Definition stringify_payload (p : LicensePayload) : string :=
  "{" ++ quote "email" ++ ":" ++ quote (email p)
    ++ "," ++ quote "maxActivations" ++ ":" ++ number (maxActivations p)
    ++ "," ++ quote "expiresAt" ++ ":" ++ number_or_null (expiresAt p)
    ++ "," ++ quote "issuedAt" ++ ":" ++ number (issuedAt p)
    ++ "," ++ quote "nonce" ++ ":" ++ quote (nonce p) ++ "}".

(** [JSON.stringify({ k1: v1, k2: v2 })] for two string values. *)
Definition stringify_pair (k1 v1 k2 v2 : string) : string :=
  "{" ++ quote k1 ++ ":" ++ quote v1 ++ "," ++ quote k2 ++ ":" ++ quote v2 ++ "}".

(** [s.slice(i, j)] for [i <= j] *)
Definition slice (i j : nat) (s : string) : string := stake (j - i) (sdrop i s).

(** The loop [for (let i = 0; i < cleaned.length; i += 5)] of
    [formatLicenseKey], started at [i]. *)
Fixpoint format_parts (fuel i : nat) (cleaned : string) : list string :=
  match fuel with
  | O => []
  | S f =>
      if Nat.ltb i (String.length cleaned)
      then slice i (i + 5) cleaned :: format_parts f (i + 5) cleaned
      else []
  end.

Definition formatLicenseKey (key : string) : string :=
  let cleaned := stake 20 (smap upper (sfilter is_alnum key)) in
  join "-" (format_parts (String.length cleaned) 0 cleaned).

(** [licenseKey.replace(/-/g, '')] *)
Definition remove_dashes (licenseKey : string) : string :=
  sfilter (fun c => negb (Ascii.eqb c "-"%char)) licenseKey.

(** [Buffer.from(v, 'base64')] for a property [v] read from parsed JSON. *)
Definition buffer_from (P : Platform) (v : option json) : outcome (list ascii) :=
  match v with
  | Some (JStr s) => Returned (Base64.decode s)
  | Some (JArr items) => buffer_from_object P (JArr items)
  | Some (JObj members) => buffer_from_object P (JObj members)
  | Some JNull => Thrown TypeError
  | Some (JBool _) => Thrown TypeError
  | Some (JNum _ _) => Thrown TypeError
  | None => Thrown TypeError
  end.

(** [now > v] for a truthy property [v]. *)
Definition later_than (P : Platform) (now : Z) (v : option json) : bool :=
  match v with
  | Some (JNum m e) => gt_decimal now m e
  | Some (JBool true) => 1 <? now
  | Some (JBool false) => 0 <? now
  | Some JNull => 0 <? now
  | Some other =>
      match to_number P other with
      | Some (m, e) => gt_decimal now m e
      | None => false
      end
  | None => false
  end.

(** [payload.expiresAt && Date.now() > payload.expiresAt] *)
Definition is_expired (P : Platform) (now : Z) (expiresAt : option json) : bool :=
  truthy expiresAt && later_than P now expiresAt.

Section Generator.

Variable P : Platform.

Local Open Scope outcome_scope.

Definition generateLicenseKey (en : Entropy) (email : string)
  (maxActivations : Z) (expiresInDays : option Z) : string :=
  let payload := build_payload en email maxActivations expiresInDays in
  let payloadString := stringify_payload payload in
  let signature := sign P (Utf8.bytes payloadString) in
  let licenseData :=
    stringify_pair "payload" (Base64.encode (Utf8.bytes payloadString))
                   "signature" (Base64.encode signature) in
  let licenseKey := Base64.encode (Utf8.bytes licenseData) in
  formatLicenseKey licenseKey.

(** The statements of the [try] block up to the two buffers. *)
Definition decode_license (licenseKey : string) : outcome (string * list ascii) :=
  let cleanKey := remove_dashes licenseKey in
  let! licenseData := parse (Utf8.toString (Base64.decode cleanKey)) in
  let! p := get "payload" licenseData in
  let! pbuf := buffer_from P p in
  let payloadString := Utf8.toString pbuf in
  let! s := get "signature" licenseData in
  let! signature := buffer_from P s in
  Returned (payloadString, signature).

(** The body of the [try] block. *)
Definition validate_body (now : Z) (licenseKey : string) : outcome ValidationResult :=
  let! '(payloadString, signature) := decode_license licenseKey in
  let! isValid := verify P (Utf8.bytes payloadString) signature in
  if negb isValid then
    Returned {| valid := false; payload := None;
                error := Some "Invalid signature" |}
  else
    let! payload := parse payloadString in
    let! expiresAt := get "expiresAt" payload in
    if is_expired P now expiresAt then
      Returned {| valid := false; payload := None;
                  error := Some "License expired" |}
    else
      Returned {| valid := true; payload := Some payload; error := None |}.

Definition validateLicenseKey (now : Z) (licenseKey : string) : ValidationResult :=
  try_catch (validate_body now licenseKey)
    (fun _ => {| valid := false; payload := None;
                 error := Some "Invalid license key format" |}).

(** [JSON.stringify(data)] in [createActivationToken] *)
Definition stringify_token_data (licenseKey hardwareId : string) (activatedAt : Z)
  : string :=
  "{" ++ quote "licenseKey" ++ ":" ++ quote licenseKey
    ++ "," ++ quote "hardwareId" ++ ":" ++ quote hardwareId
    ++ "," ++ quote "activatedAt" ++ ":" ++ number activatedAt ++ "}".

Definition createActivationToken (now : Z) (licenseKey hardwareId : string)
  : string :=
  let data := stringify_token_data licenseKey hardwareId now in
  let signature := sign P (Utf8.bytes data) in
  Base64.encode
    (Utf8.bytes
       (stringify_pair "data" (Base64.encode (Utf8.bytes data))
                       "signature" (Base64.encode signature))).

Definition verify_token_body (token : string) : outcome TokenResult :=
  let! tokenData := parse (Utf8.toString (Base64.decode token)) in
  let! d := get "data" tokenData in
  let! dbuf := buffer_from P d in
  let dataString := Utf8.toString dbuf in
  let! s := get "signature" tokenData in
  let! signature := buffer_from P s in
  let! isValid := verify P (Utf8.bytes dataString) signature in
  if negb isValid then
    Returned {| token_valid := false; token_data := None;
                token_error := Some "Invalid activation token" |}
  else
    let! data := parse dataString in
    Returned {| token_valid := true; token_data := Some data;
                token_error := None |}.

Definition verifyActivationToken (token : string) : TokenResult :=
  try_catch (verify_token_body token)
    (fun _ => {| token_valid := false; token_data := None;
                 token_error := Some "Invalid token format" |}).

End Generator.

(** A signature scheme to run the definitions with: the signature of a
    message is the message reversed. *)
Definition list_ascii_eqb (a b : list ascii) : bool :=
  String.eqb (string_of_list_ascii a) (string_of_list_ascii b).

Definition toy : Platform :=
  {| sign := fun m => rev m;
     verify := fun m s => Returned (list_ascii_eqb (rev m) s);
     buffer_from_object := fun _ => Thrown TypeError;
     to_number := fun _ => None |}.

End LicenseGenerator.

(** ** [drizzle/schema.ts]: the tables [licenses] and [activations] *)

Module License.

Inductive Status : Type := active | expired | revoked.

Definition status_name (s : Status) : string :=
  match s with
  | active => "active"
  | expired => "expired"
  | revoked => "revoked"
  end.

Definition is_active (s : Status) : bool :=
  match s with
  | active => true
  | _ => false
  end.

Record t : Type := {
  id : Z;
  licenseKey : string;
  email : string;
  purchaseId : option string;
  maxActivations : Z;
  currentActivations : Z;
  expiresAt : option Z;
  status : Status;
  createdAt : Z;
  updatedAt : Z
}.

(** [InsertLicense] as the callers fill it. *)
Record insert : Type := {
  new_licenseKey : string;
  new_email : string;
  new_purchaseId : option string;
  new_maxActivations : Z;
  new_currentActivations : Z;
  new_expiresAt : option Z;
  new_status : Status
}.

Definition set_count (n : Z) (now : Z) (l : t) : t :=
  {| id := id l; licenseKey := licenseKey l; email := email l;
     purchaseId := purchaseId l; maxActivations := maxActivations l;
     currentActivations := n; expiresAt := expiresAt l; status := status l;
     createdAt := createdAt l; updatedAt := now |}.

End License.

Module Activation.

Inductive Status : Type := active | deactivated.

Definition is_active (s : Status) : bool :=
  match s with
  | active => true
  | deactivated => false
  end.

Record t : Type := {
  id : Z;
  licenseId : Z;
  hardwareId : string;
  machineName : option string;
  os : option string;
  activatedAt : Z;
  lastSeenAt : Z;
  status : Status
}.

(** [InsertActivation] as the callers fill it. *)
Record insert : Type := {
  new_licenseId : Z;
  new_hardwareId : string;
  new_machineName : option string;
  new_os : option string;
  new_status : Status
}.

Definition set_status (s : Status) (a : t) : t :=
  {| id := id a; licenseId := licenseId a; hardwareId := hardwareId a;
     machineName := machineName a; os := os a; activatedAt := activatedAt a;
     lastSeenAt := lastSeenAt a; status := s |}.

Definition set_lastSeenAt (now : Z) (a : t) : t :=
  {| id := id a; licenseId := licenseId a; hardwareId := hardwareId a;
     machineName := machineName a; os := os a; activatedAt := activatedAt a;
     lastSeenAt := now; status := status a |}.

End Activation.

(** ** [server/license-db.ts]: the store adapter *)

Module LicenseDb.

(** The rows of both tables in insertion order and the two
    [AUTO_INCREMENT] counters. *)
Record Tables : Type := {
  licenses : list License.t;
  activations : list Activation.t;
  next_license_id : Z;
  next_activation_id : Z
}.

(** What [getDb()] returns: [None] when no database is configured. *)
Definition Db : Type := option Tables.

(** An [async] function: it reads and writes the store and returns or
    throws; [await] is [bind]. *)
Definition M (A : Type) : Type := Db -> outcome A * Db.

Definition ret {A : Type} (a : A) : M A := fun db => (Returned a, db).

Definition throw {A : Type} (e : JsError) : M A := fun db => (Thrown e, db).

Definition bind {A B : Type} (m : M A) (k : A -> M B) : M B :=
  fun db =>
    match m db with
    | (Returned a, db') => k a db'
    | (Thrown e, db') => (Thrown e, db')
    end.

Declare Scope db_scope.
Delimit Scope db_scope with db.
Notation "x <- m ;; k" := (bind m (fun x => k))
  (at level 61, m at next level, right associativity) : db_scope.
Notation "m ;;; k" := (bind m (fun _ => k))
  (at level 61, right associativity) : db_scope.

Definition not_available : JsError := Error "Database not available".
Definition duplicate_entry : JsError := Error "Duplicate entry".

Definition with_licenses (ls : list License.t) (t : Tables) : Tables :=
  {| licenses := ls; activations := activations t;
     next_license_id := next_license_id t;
     next_activation_id := next_activation_id t |}.

Definition with_activations (acts : list Activation.t) (t : Tables) : Tables :=
  {| licenses := licenses t; activations := acts;
     next_license_id := next_license_id t;
     next_activation_id := next_activation_id t |}.

Definition key_is (licenseKey : string) (l : License.t) : bool :=
  String.eqb (License.licenseKey l) licenseKey.

(** [db.insert(licenses).values(license)]; the column [licenseKey] is
    declared [unique()]. *)
Definition license_row (now : Z) (newId : Z) (license : License.insert) : License.t :=
  {| License.id := newId;
     License.licenseKey := License.new_licenseKey license;
     License.email := License.new_email license;
     License.purchaseId := License.new_purchaseId license;
     License.maxActivations := License.new_maxActivations license;
     License.currentActivations := License.new_currentActivations license;
     License.expiresAt := License.new_expiresAt license;
     License.status := License.new_status license;
     License.createdAt := now;
     License.updatedAt := now |}.

Definition insert_license (now : Z) (license : License.insert) (t : Tables) : Tables :=
  {| licenses := licenses t ++ [license_row now (next_license_id t) license];
     activations := activations t;
     next_license_id := next_license_id t + 1;
     next_activation_id := next_activation_id t |}.

Definition createLicense (now : Z) (license : License.insert) : M unit :=
  fun db =>
    match db with
    | None => (Thrown not_available, db)
    | Some t =>
        if existsb (key_is (License.new_licenseKey license)) (licenses t)
        then (Thrown duplicate_entry, db)
        else (Returned tt, Some (insert_license now license t))
    end.

Definition getLicenseByKey (licenseKey : string) : M (option License.t) :=
  fun db =>
    match db with
    | None => (Returned None, db)
    | Some t => (Returned (find (key_is licenseKey) (licenses t)), db)
    end.

Definition bump (delta : Z) (now : Z) (licenseId : Z) (l : License.t) : License.t :=
  if License.id l =? licenseId
  then License.set_count (License.currentActivations l + delta) now l
  else l.

Definition add_to_count (delta : Z) (now : Z) (licenseId : Z) (t : Tables) : Tables :=
  with_licenses (map (bump delta now licenseId) (licenses t)) t.

(** [UPDATE licenses SET currentActivations = currentActivations + 1,
    updatedAt = ? WHERE id = ?] *)
Definition incrementActivationCount (now : Z) (licenseId : Z) : M unit :=
  fun db =>
    match db with
    | None => (Thrown not_available, db)
    | Some t => (Returned tt, Some (add_to_count 1 now licenseId t))
    end.

(** [UPDATE licenses SET currentActivations = currentActivations - 1,
    updatedAt = ? WHERE id = ?] *)
Definition decrementActivationCount (now : Z) (licenseId : Z) : M unit :=
  fun db =>
    match db with
    | None => (Thrown not_available, db)
    | Some t => (Returned tt, Some (add_to_count (-1) now licenseId t))
    end.

Definition activation_row (now : Z) (newId : Z) (activation : Activation.insert)
  : Activation.t :=
  {| Activation.id := newId;
     Activation.licenseId := Activation.new_licenseId activation;
     Activation.hardwareId := Activation.new_hardwareId activation;
     Activation.machineName := Activation.new_machineName activation;
     Activation.os := Activation.new_os activation;
     Activation.activatedAt := now;
     Activation.lastSeenAt := now;
     Activation.status := Activation.new_status activation |}.

Definition insert_activation (now : Z) (activation : Activation.insert) (t : Tables)
  : Tables :=
  {| licenses := licenses t;
     activations :=
       activations t ++ [activation_row now (next_activation_id t) activation];
     next_license_id := next_license_id t;
     next_activation_id := next_activation_id t + 1 |}.

Definition createActivation (now : Z) (activation : Activation.insert) : M unit :=
  fun db =>
    match db with
    | None => (Thrown not_available, db)
    | Some t => (Returned tt, Some (insert_activation now activation t))
    end.

(** The [where] clause of [getActivationByHardwareId]. *)
Definition active_on (licenseId : Z) (hardwareId : string) (a : Activation.t) : bool :=
  (Activation.licenseId a =? licenseId)
  && String.eqb (Activation.hardwareId a) hardwareId
  && Activation.is_active (Activation.status a).

Definition getActivationByHardwareId (licenseId : Z) (hardwareId : string)
  : M (option Activation.t) :=
  fun db =>
    match db with
    | None => (Returned None, db)
    | Some t => (Returned (find (active_on licenseId hardwareId) (activations t)), db)
    end.

(** The [where] clause of [getActivationsByLicense]. *)
Definition active_for (licenseId : Z) (a : Activation.t) : bool :=
  (Activation.licenseId a =? licenseId)
  && Activation.is_active (Activation.status a).

Definition getActivationsByLicense (licenseId : Z) : M (list Activation.t) :=
  fun db =>
    match db with
    | None => (Returned [], db)
    | Some t => (Returned (filter (active_for licenseId) (activations t)), db)
    end.

Definition update_activation (f : Activation.t -> Activation.t) (activationId : Z)
  (a : Activation.t) : Activation.t :=
  if Activation.id a =? activationId then f a else a.

Definition update_where_id (f : Activation.t -> Activation.t) (activationId : Z)
  (t : Tables) : Tables :=
  with_activations (map (update_activation f activationId) (activations t)) t.

Definition deactivateActivation (activationId : Z) : M unit :=
  fun db =>
    match db with
    | None => (Thrown not_available, db)
    | Some t =>
        (Returned tt,
         Some (update_where_id (Activation.set_status Activation.deactivated)
                 activationId t))
    end.

Definition updateLastSeen (now : Z) (activationId : Z) : M unit :=
  fun db =>
    match db with
    | None => (Thrown not_available, db)
    | Some t =>
        (Returned tt,
         Some (update_where_id (Activation.set_lastSeenAt now) activationId t))
    end.

End LicenseDb.

(** ** [server/routers.ts]: the [licensing] router *)

Module Licensing.
Import LicenseDb.
Local Open Scope db_scope.

(** The input objects hold what the [z.object] schemas accept; the schema
    of [maxActivations] is [z.number().default(1)]. *)
Record GenerateInput : Type := {
  g_email : string;
  g_maxActivations : Z;
  g_expiresInDays : option Z;
  g_purchaseId : option string
}.

Record ActivateInput : Type := {
  licenseKey : string;
  hardwareId : string;
  machineName : option string;
  os : option string
}.

Record DeactivateInput : Type := {
  d_licenseKey : string;
  d_hardwareId : string
}.

Record ActivateOutput : Type := {
  success : bool;
  alreadyActivated : bool;
  activationToken : option string
}.

Record LicenseInfo : Type := {
  i_email : string;
  i_maxActivations : Z;
  i_currentActivations : Z;
  i_expiresAt : option Z
}.

Record ValidateOutput : Type := {
  v_valid : bool;
  v_error : option string;
  v_license : option LicenseInfo
}.

(** The object literal given to [createActivation]. *)
Definition new_activation (license : License.t) (input : ActivateInput)
  : Activation.insert :=
  {| Activation.new_licenseId := License.id license;
     Activation.new_hardwareId := hardwareId input;
     Activation.new_machineName := machineName input;
     Activation.new_os := os input;
     Activation.new_status := Activation.active |}.

(** [new Date(t)] holds a time value when [t] is within 8.64e15
    milliseconds of the epoch, and is an Invalid Date otherwise. *)
Definition valid_time (t : Z) : bool := Z.abs t <=? 8640000000000000.

(** [expiresAt] of [generate] is [undefined] or a [Date] that holds a time
    value. *)
Definition date_in_range (expiresAt : option Z) : bool :=
  match expiresAt with
  | Some t => valid_time t
  | None => true
  end.

(** [createLicense] with an Invalid Date as [expiresAt]: after [getDb()],
    the [timestamp] column writes the date with [toISOString], which
    throws a [RangeError], and no statement is sent. *)
Definition createLicense_invalid_date : M unit :=
  fun db =>
    match db with
    | None => (Thrown not_available, db)
    | Some _ => (Thrown RangeError, db)
    end.

Section Router.

Variable P : LicenseGenerator.Platform.

Definition generate (en : LicenseGenerator.Entropy) (now : Z) (input : GenerateInput)
  : M string :=
  let licenseKey :=
    LicenseGenerator.generateLicenseKey P en (g_email input)
      (g_maxActivations input) (g_expiresInDays input) in
  let expiresAt := LicenseGenerator.expiry_of now (g_expiresInDays input) in
  (if date_in_range expiresAt
   then
     createLicense now
       {| License.new_licenseKey := licenseKey;
          License.new_email := g_email input;
          License.new_purchaseId := g_purchaseId input;
          License.new_maxActivations := g_maxActivations input;
          License.new_currentActivations := 0;
          License.new_expiresAt := expiresAt;
          License.new_status := License.active |}
   else createLicense_invalid_date) ;;;
  ret licenseKey.

Definition validate (now : Z) (key : string) : M ValidateOutput :=
  let validation := LicenseGenerator.validateLicenseKey P now key in
  if negb (LicenseGenerator.valid validation) then
    ret {| v_valid := false; v_error := LicenseGenerator.error validation;
           v_license := None |}
  else
    license <- getLicenseByKey key ;;
    match license with
    | None =>
        ret {| v_valid := false; v_error := Some "License not found in database";
               v_license := None |}
    | Some license =>
        if negb (License.is_active (License.status license)) then
          ret {| v_valid := false;
                 v_error := Some ("License is " ++ License.status_name (License.status license))%string;
                 v_license := None |}
        else
          ret {| v_valid := true; v_error := None;
                 v_license :=
                   Some {| i_email := License.email license;
                           i_maxActivations := License.maxActivations license;
                           i_currentActivations := License.currentActivations license;
                           i_expiresAt := License.expiresAt license |} |}
    end.

Definition activate (now : Z) (input : ActivateInput) : M ActivateOutput :=
  license <- getLicenseByKey (licenseKey input) ;;
  match license with
  | None => throw (Error "License not found")
  | Some license =>
      if negb (License.is_active (License.status license)) then
        throw (Error ("License is " ++ License.status_name (License.status license))%string)
      else
        existingActivation <-
          getActivationByHardwareId (License.id license) (hardwareId input) ;;
        match existingActivation with
        | Some existingActivation =>
            updateLastSeen now (Activation.id existingActivation) ;;;
            ret {| success := true; alreadyActivated := true;
                   activationToken := None |}
        | None =>
            if License.maxActivations license <=? License.currentActivations license
            then throw (Error "Maximum activations reached")
            else
              createActivation now (new_activation license input) ;;;
              incrementActivationCount now (License.id license) ;;;
              ret {| success := true; alreadyActivated := false;
                     activationToken :=
                       Some (LicenseGenerator.createActivationToken P now
                               (licenseKey input) (hardwareId input)) |}
        end
  end.

Definition deactivate (now : Z) (input : DeactivateInput) : M bool :=
  license <- getLicenseByKey (d_licenseKey input) ;;
  match license with
  | None => throw (Error "License not found")
  | Some license =>
      activation <-
        getActivationByHardwareId (License.id license) (d_hardwareId input) ;;
      match activation with
      | None => throw (Error "Activation not found")
      | Some activation =>
          deactivateActivation (Activation.id activation) ;;;
          decrementActivationCount now (License.id license) ;;;
          ret true
      end
  end.

End Router.

(** The result of the idempotent branch of [activate]. *)
Definition already : ActivateOutput :=
  {| success := true; alreadyActivated := true; activationToken := None |}.

(** The errors thrown by [activate] and by [deactivate]. *)
Definition activate_rejection (e : JsError) : Prop :=
  e = Error "License not found"
  \/ e = Error "License is expired"
  \/ e = Error "License is revoked"
  \/ e = Error "Maximum activations reached".

Definition deactivate_rejection (e : JsError) : Prop :=
  e = Error "License not found" \/ e = Error "Activation not found".

End Licensing.

(** ** Concurrent requests

    Node runs one request until its next [await]; there another request
    may run.  A call of [activate] is therefore a sequence of atomic
    steps, one per awaited store operation, and several calls interleave
    step by step over the same store. *)

Module Interleaving.
Import LicenseDb Licensing.

(** Where a call of [activate] stands: before which [await], with the
    local variables it holds. *)
Inductive ActivateState : Type :=
| BeforeLookup
| BeforeExisting (license : License.t)
| BeforeTouch (existingActivation : Activation.t)
| BeforeCreate (license : License.t)
| BeforeIncrement (license : License.t)
| Finished (result : outcome ActivateOutput).

Section Steps.

Variable P : LicenseGenerator.Platform.

(** One awaited operation and the synchronous code up to the next one. *)
Definition activate_step (now : Z) (input : ActivateInput) (st : ActivateState)
  (db : Db) : ActivateState * Db :=
  match st with
  | BeforeLookup =>
      match getLicenseByKey (licenseKey input) db with
      | (Thrown e, db') => (Finished (Thrown e), db')
      | (Returned None, db') => (Finished (Thrown (Error "License not found")), db')
      | (Returned (Some license), db') =>
          if negb (License.is_active (License.status license)) then
            (Finished
               (Thrown (Error ("License is "
                                 ++ License.status_name (License.status license))%string)),
             db')
          else (BeforeExisting license, db')
      end
  | BeforeExisting license =>
      match getActivationByHardwareId (License.id license) (hardwareId input) db with
      | (Thrown e, db') => (Finished (Thrown e), db')
      | (Returned (Some existingActivation), db') => (BeforeTouch existingActivation, db')
      | (Returned None, db') =>
          if License.maxActivations license <=? License.currentActivations license
          then (Finished (Thrown (Error "Maximum activations reached")), db')
          else (BeforeCreate license, db')
      end
  | BeforeTouch existingActivation =>
      match updateLastSeen now (Activation.id existingActivation) db with
      | (Thrown e, db') => (Finished (Thrown e), db')
      | (Returned _, db') =>
          (Finished (Returned {| success := true; alreadyActivated := true;
                                 activationToken := None |}), db')
      end
  | BeforeCreate license =>
      match createActivation now (new_activation license input) db with
      | (Thrown e, db') => (Finished (Thrown e), db')
      | (Returned _, db') => (BeforeIncrement license, db')
      end
  | BeforeIncrement license =>
      match incrementActivationCount now (License.id license) db with
      | (Thrown e, db') => (Finished (Thrown e), db')
      | (Returned _, db') =>
          (Finished
             (Returned {| success := true; alreadyActivated := false;
                          activationToken :=
                            Some (LicenseGenerator.createActivationToken P now
                                    (licenseKey input) (hardwareId input)) |}),
           db')
      end
  | Finished result => (Finished result, db)
  end.

(** A call run alone for [n] steps. *)
Fixpoint run_alone (n : nat) (now : Z) (input : ActivateInput) (st : ActivateState)
  (db : Db) : ActivateState * Db :=
  match n with
  | O => (st, db)
  | S k =>
      let (st', db') := activate_step now input st db in
      run_alone k now input st' db'
  end.

(** A request in flight. *)
Record Call : Type := {
  call_now : Z;
  call_input : ActivateInput;
  call_state : ActivateState
}.

Definition start (now : Z) (input : ActivateInput) : Call :=
  {| call_now := now; call_input := input; call_state := BeforeLookup |}.

(** The scheduler lets call number [i] take its next step. *)
Fixpoint step_call (i : nat) (calls : list Call) (db : Db) : list Call * Db :=
  match calls with
  | [] => ([], db)
  | c :: rest =>
      match i with
      | O =>
          let (st, db') :=
            activate_step (call_now c) (call_input c) (call_state c) db in
          ({| call_now := call_now c; call_input := call_input c;
              call_state := st |} :: rest, db')
      | S j =>
          let (rest', db') := step_call j rest db in
          (c :: rest', db')
      end
  end.

Fixpoint run_schedule (schedule : list nat) (calls : list Call) (db : Db)
  : list Call * Db :=
  match schedule with
  | [] => (calls, db)
  | i :: later =>
      let (calls', db') := step_call i calls db in
      run_schedule later calls' db'
  end.

End Steps.

(** Where a call of [deactivate] stands. *)
Inductive DeactivateState : Type :=
| DBeforeLookup
| DBeforeExisting (license : License.t)
| DBeforeDeactivate (license : License.t) (activation : Activation.t)
| DBeforeDecrement (license : License.t)
| DFinished (result : outcome bool).

Definition deactivate_step (now : Z) (input : DeactivateInput) (st : DeactivateState)
  (db : Db) : DeactivateState * Db :=
  match st with
  | DBeforeLookup =>
      match getLicenseByKey (d_licenseKey input) db with
      | (Thrown e, db') => (DFinished (Thrown e), db')
      | (Returned None, db') => (DFinished (Thrown (Error "License not found")), db')
      | (Returned (Some license), db') => (DBeforeExisting license, db')
      end
  | DBeforeExisting license =>
      match getActivationByHardwareId (License.id license) (d_hardwareId input) db with
      | (Thrown e, db') => (DFinished (Thrown e), db')
      | (Returned None, db') =>
          (DFinished (Thrown (Error "Activation not found")), db')
      | (Returned (Some activation), db') => (DBeforeDeactivate license activation, db')
      end
  | DBeforeDeactivate license activation =>
      match deactivateActivation (Activation.id activation) db with
      | (Thrown e, db') => (DFinished (Thrown e), db')
      | (Returned _, db') => (DBeforeDecrement license, db')
      end
  | DBeforeDecrement license =>
      match decrementActivationCount now (License.id license) db with
      | (Thrown e, db') => (DFinished (Thrown e), db')
      | (Returned _, db') => (DFinished (Returned true), db')
      end
  | DFinished result => (DFinished result, db)
  end.

Fixpoint run_deactivate_alone (n : nat) (now : Z) (input : DeactivateInput)
  (st : DeactivateState) (db : Db) : DeactivateState * Db :=
  match n with
  | O => (st, db)
  | S k =>
      let (st', db') := deactivate_step now input st db in
      run_deactivate_alone k now input st' db'
  end.

(** Two calls of [deactivate] with the same input, stepped by a schedule
    of [false] (the first call) and [true] (the second). *)
Fixpoint run_two_deactivations (schedule : list bool) (now1 now2 : Z)
  (input : DeactivateInput) (st1 st2 : DeactivateState) (db : Db)
  : DeactivateState * DeactivateState * Db :=
  match schedule with
  | [] => (st1, st2, db)
  | false :: later =>
      let (st1', db') := deactivate_step now1 input st1 db in
      run_two_deactivations later now1 now2 input st1' st2 db'
  | true :: later =>
      let (st2', db') := deactivate_step now2 input st2 db in
      run_two_deactivations later now1 now2 input st1 st2' db'
  end.

Definition succeeded (c : Call) : bool :=
  match call_state c with
  | Finished (Returned out) => success out
  | _ => false
  end.

End Interleaving.

(** ** The activation-count invariant *)

Module Invariant.
Import LicenseDb.

(** The number of activation records in active state for a license. *)
Definition active_count (licenseId : Z) (acts : list Activation.t) : Z :=
  Z.of_nat (List.length (filter (active_for licenseId) acts)).

(** The number of records in active state for a (license, hardware) pair. *)
Definition pair_count (licenseId : Z) (hardwareId : string)
  (acts : list Activation.t) : nat :=
  List.length (filter (active_on licenseId hardwareId) acts).

Definition counted (acts : list Activation.t) (l : License.t) : Prop :=
  License.currentActivations l = active_count (License.id l) acts.

Definition bounded (l : License.t) : Prop :=
  0 <= License.currentActivations l <= License.maxActivations l.

(** What the primary keys and the [AUTO_INCREMENT] columns give. *)
Record keys_ok (t : Tables) : Prop := {
  license_ids : NoDup (map License.id (licenses t));
  activation_ids : NoDup (map Activation.id (activations t));
  license_ids_below :
    Forall (fun l => License.id l < next_license_id t) (licenses t);
  activation_ids_below :
    Forall (fun a => Activation.id a < next_activation_id t) (activations t);
  references_below :
    Forall (fun a => Activation.licenseId a < next_license_id t) (activations t)
}.

(** [0 <= currentActivations <= maxActivations], and [currentActivations]
    is the number of active records, for every license. *)
Record store_ok (t : Tables) : Prop := {
  keys : keys_ok t;
  counts : Forall (fun l => counted (activations t) l /\ bounded l) (licenses t)
}.

Definition db_ok (db : Db) : Prop :=
  match db with
  | Some t => store_ok t
  | None => True
  end.

(** At most one record in active state for every pair. *)
Definition one_active_per_pair (db : Db) : Prop :=
  match db with
  | Some t =>
      forall licenseId hardwareId,
        (pair_count licenseId hardwareId (activations t) <= 1)%nat
  | None => True
  end.

(** The column [currentActivations], row by row. *)
Definition activation_counts (db : Db) : list Z :=
  match db with
  | Some t => map License.currentActivations (licenses t)
  | None => []
  end.

End Invariant.

(** ** Sequential histories *)

Module History.
Import LicenseDb Licensing.

Inductive Request : Type :=
| Generate (en : LicenseGenerator.Entropy) (input : GenerateInput)
| Activate (input : ActivateInput)
| Deactivate (input : DeactivateInput).

(** The store after one request has run to its end. *)
Definition perform (P : LicenseGenerator.Platform) (now : Z) (r : Request) (db : Db)
  : Db :=
  match r with
  | Generate en input => snd (generate P en now input db)
  | Activate input => snd (activate P now input db)
  | Deactivate input => snd (deactivate now input db)
  end.

(** Requests served one after the other, each at its own time. *)
Fixpoint perform_all (P : LicenseGenerator.Platform) (rs : list (Z * Request))
  (db : Db) : Db :=
  match rs with
  | [] => db
  | (now, r) :: later => perform_all P later (perform P now r db)
  end.

(** Issuance with a ceiling that is not negative. *)
Definition sane (r : Z * Request) : Prop :=
  match snd r with
  | Generate _ input => 0 <= g_maxActivations input
  | _ => True
  end.

End History.

(** ** Sample data *)

Module Samples.
Import LicenseGenerator LicenseDb Licensing Interleaving.

(** The string every call of [generateLicenseKey] returns. *)
Definition issued_key : string := "EYJWY-XLSB2-FKIJO-IZXLK".

Definition format_error : ValidationResult :=
  {| valid := false; payload := None; error := Some "Invalid license key format" |}.

Definition signature_error : ValidationResult :=
  {| valid := false; payload := None; error := Some "Invalid signature" |}.

Definition token_format_error : TokenResult :=
  {| token_valid := false; token_data := None;
     token_error := Some "Invalid token format" |}.

(** The key before [formatLicenseKey]: [licenseKey] in [generateLicenseKey]. *)
Definition unformatted_key (P : Platform) (en : Entropy) (email : string)
  (maxActivations : Z) (expiresInDays : option Z) : string :=
  let payloadString :=
    stringify_payload (build_payload en email maxActivations expiresInDays) in
  Base64.encode
    (Utf8.bytes
       (stringify_pair "payload" (Base64.encode (Utf8.bytes payloadString))
          "signature" (Base64.encode (sign P (Utf8.bytes payloadString))))).

(** Byte [i] of a buffer replaced by [b]. *)
Fixpoint set_byte (i : nat) (b : ascii) (bs : list ascii) : list ascii :=
  match bs, i with
  | [], _ => []
  | _ :: rest, O => b :: rest
  | a :: rest, S j => a :: set_byte j b rest
  end.

(** A key decoded, one byte replaced, encoded again. *)
Definition tamper_bytes (i : nat) (b : ascii) (key : string) : string :=
  Base64.encode (set_byte i b (Base64.decode (remove_dashes key))).

(** A key decoded and encoded again, then one character replaced. *)
Definition tamper_text (i : nat) (c : ascii) (key : string) : string :=
  string_of_list_ascii
    (set_byte i c
       (list_ascii_of_string (Base64.encode (Base64.decode (remove_dashes key))))).

Definition entropy0 : Entropy :=
  {| now_expiry := 1700000000000;
     now_issued := 1700000000000;
     random_bytes := map Chars.chr [1; 2; 255; 16; 5; 6; 7; 8; 9; 10; 11; 12; 13; 14; 15; 16]%N |}.

Definition empty_db : Db :=
  Some {| licenses := []; activations := [];
          next_license_id := 1; next_activation_id := 1 |}.

Definition generate_input (maxActivations : Z) : GenerateInput :=
  {| g_email := "a@example.com"; g_maxActivations := maxActivations;
     g_expiresInDays := None; g_purchaseId := None |}.

Definition activate_input (hw : string) : ActivateInput :=
  {| licenseKey := issued_key; hardwareId := hw;
     machineName := None; os := None |}.

Definition deactivate_input (hw : string) : DeactivateInput :=
  {| d_licenseKey := issued_key; d_hardwareId := hw |}.

(** The row of a license with [maxActivations = 1], as [generate] makes it. *)
Definition license1 (currentActivations updatedAt : Z) : License.t :=
  {| License.id := 1;
     License.licenseKey := issued_key;
     License.email := "a@example.com";
     License.purchaseId := None;
     License.maxActivations := 1;
     License.currentActivations := currentActivations;
     License.expiresAt := None;
     License.status := License.active;
     License.createdAt := 10;
     License.updatedAt := updatedAt |}.

(** The store after that license was issued. *)
Definition one_license : Tables :=
  {| licenses := [license1 0 10]; activations := [];
     next_license_id := 2; next_activation_id := 1 |}.

(** The record of hardware H1 activated on it. *)
Definition activation1 : Activation.t :=
  {| Activation.id := 1;
     Activation.licenseId := 1;
     Activation.hardwareId := "H1";
     Activation.machineName := None;
     Activation.os := None;
     Activation.activatedAt := 20;
     Activation.lastSeenAt := 20;
     Activation.status := Activation.active |}.

(** The store after H1 was activated. *)
Definition one_active : Tables :=
  {| licenses := [license1 1 20]; activations := [activation1];
     next_license_id := 2; next_activation_id := 2 |}.

(** What the first activation of H1 answers. *)
Definition first_output : ActivateOutput :=
  {| success := true; alreadyActivated := false;
     activationToken := Some (createActivationToken toy 20 issued_key "H1") |}.

(** Two calls of [deactivate] that each take a step in turn. *)
Definition alternating2 : list bool :=
  [false; true; false; true; false; true; false; true].

(** Two calls that each take a step in turn. *)
Definition alternating : list nat := [0; 1; 0; 1; 0; 1; 0; 1]%nat.

Definition two_calls : list Call :=
  [start 20 (activate_input "H1"); start 21 (activate_input "H2")].

End Samples.

(** ** [server/license-db.ts]: status, e-mail and statistics *)

Module Admin.
Import LicenseDb.

Definition restatus (status : License.Status) (now : Z) (licenseId : Z)
  (l : License.t) : License.t :=
  if License.id l =? licenseId then
    {| License.id := License.id l; License.licenseKey := License.licenseKey l;
       License.email := License.email l; License.purchaseId := License.purchaseId l;
       License.maxActivations := License.maxActivations l;
       License.currentActivations := License.currentActivations l;
       License.expiresAt := License.expiresAt l; License.status := status;
       License.createdAt := License.createdAt l; License.updatedAt := now |}
  else l.

(** [UPDATE licenses SET status = ?, updatedAt = ? WHERE id = ?] *)
Definition updateLicenseStatus (now : Z) (licenseId : Z) (status : License.Status)
  : M unit :=
  fun db =>
    match db with
    | None => (Thrown not_available, db)
    | Some t =>
        (Returned tt,
         Some (with_licenses (map (restatus status now licenseId) (licenses t)) t))
    end.

Definition email_is (email : string) (l : License.t) : bool :=
  String.eqb (License.email l) email.

Definition getLicensesByEmail (email : string) : M (list License.t) :=
  fun db =>
    match db with
    | None => (Returned [], db)
    | Some t => (Returned (filter (email_is email) (licenses t)), db)
    end.

Record Stats : Type := {
  totalLicenses : Z;
  activeLicenses : Z;
  expiredLicenses : Z;
  totalActivations : Z;
  activeActivations : Z
}.

Definition count {A : Type} (p : A -> bool) (rows : list A) : Z :=
  Z.of_nat (List.length (filter p rows)).

Definition license_has (status : License.Status) (l : License.t) : bool :=
  match status, License.status l with
  | License.active, License.active => true
  | License.expired, License.expired => true
  | License.revoked, License.revoked => true
  | _, _ => false
  end.

Definition activation_is_active (a : Activation.t) : bool :=
  Activation.is_active (Activation.status a).

(** The five [count] queries of [getLicenseStats]. *)
Definition getLicenseStats : M (option Stats) :=
  fun db =>
    match db with
    | None => (Returned None, db)
    | Some t =>
        (Returned
           (Some {| totalLicenses := count (fun _ => true) (licenses t);
                    activeLicenses := count (license_has License.active) (licenses t);
                    expiredLicenses := count (license_has License.expired) (licenses t);
                    totalActivations := count (fun _ => true) (activations t);
                    activeActivations := count activation_is_active (activations t) |}),
         db)
    end.

End Admin.

(** ** [server/routers.ts]: the queries of the [licensing] router *)

Module Queries.
Import LicenseDb Licensing Admin.
Local Open Scope db_scope.

Record MachineInfo : Type := {
  m_machineName : option string;
  m_os : option string;
  m_activatedAt : Z;
  m_lastSeenAt : Z
}.

Record InfoOutput : Type := {
  o_email : string;
  o_status : License.Status;
  o_maxActivations : Z;
  o_currentActivations : Z;
  o_expiresAt : option Z;
  o_createdAt : Z;
  o_activations : list MachineInfo
}.

Definition machine_info (a : Activation.t) : MachineInfo :=
  {| m_machineName := Activation.machineName a;
     m_os := Activation.os a;
     m_activatedAt := Activation.activatedAt a;
     m_lastSeenAt := Activation.lastSeenAt a |}.

Definition info (key : string) : M InfoOutput :=
  license <- getLicenseByKey key ;;
  match license with
  | None => throw (Error "License not found")
  | Some license =>
      activations <- getActivationsByLicense (License.id license) ;;
      ret {| o_email := License.email license;
             o_status := License.status license;
             o_maxActivations := License.maxActivations license;
             o_currentActivations := License.currentActivations license;
             o_expiresAt := License.expiresAt license;
             o_createdAt := License.createdAt license;
             o_activations := map machine_info activations |}
  end.

Definition byEmail (email : string) : M (list License.t) :=
  getLicensesByEmail email.

Definition stats : M (option Stats) := getLicenseStats.

End Queries.

(** ** The payment service (class [PaymentService]) *)

Module PaymentService.
Import LicenseDb.

Inductive Tier : Type := basic | professional | enterprise.

Inductive IntentStatus : Type := pending | succeeded | failed.

Record PaymentIntent : Type := {
  id : string;
  amount : Z;
  currency : string;
  status : IntentStatus;
  email : string;
  tier : Tier
}.

Record PaymentResult : Type := {
  success : bool;
  licenseKey : option string;
  error : option string;
  paymentId : string
}.

(** The table [purchases] of [drizzle/schema.ts]. *)
Inductive PurchaseStatus : Type :=
| p_pending | p_completed | p_failed | p_refunded.

Record Purchase : Type := {
  purchase_id : Z;
  purchase_email : string;
  purchase_amount : Z;
  purchase_currency : string;
  purchase_quantity : Z;
  purchase_paymentMethod : option string;
  purchase_paymentId : option string;
  purchase_status : PurchaseStatus;
  purchase_createdAt : Z;
  purchase_completedAt : option Z
}.

(** The database with its third table: what [getDb()] gives the payment
    service. *)
Record Shop : Type := {
  tables : Tables;
  purchases : list Purchase;
  next_purchase_id : Z
}.

Definition ShopDb : Type := option Shop.

Definition PM (A : Type) : Type := ShopDb -> outcome A * ShopDb.

(** An operation of the licensing adapter run on the same database. *)
Definition on_tables {A : Type} (m : M A) : PM A :=
  fun db =>
    match db with
    | None => (fst (m None), None)
    | Some shop =>
        match m (Some (tables shop)) with
        | (r, Some t') =>
            (r, Some {| tables := t'; purchases := purchases shop;
                        next_purchase_id := next_purchase_id shop |})
        | (r, None) => (r, db)
        end
    end.

(** [db.insert(purchases).values(purchase)] as the payment service fills it. *)
Definition createPurchase (now : Z) (email : string) (amount : Z) (currency : string)
  (quantity : Z) (paymentMethod paymentId : string) (status : PurchaseStatus)
  : PM unit :=
  fun db =>
    match db with
    | None => (Thrown not_available, db)
    | Some shop =>
        (Returned tt,
         Some {| tables := tables shop;
                 purchases :=
                   purchases shop
                   ++ [{| purchase_id := next_purchase_id shop;
                          purchase_email := email;
                          purchase_amount := amount;
                          purchase_currency := currency;
                          purchase_quantity := quantity;
                          purchase_paymentMethod := Some paymentMethod;
                          purchase_paymentId := Some paymentId;
                          purchase_status := status;
                          purchase_createdAt := now;
                          purchase_completedAt := None |}];
                 next_purchase_id := next_purchase_id shop + 1 |})
    end.

(** The object [amounts] of [createStripePayment], in cents. *)
Definition stripe_amount (t : Tier) : Z :=
  match t with
  | basic => 4900
  | professional => 14900
  | enterprise => 29900
  end.

(** The object [amounts] of [createPayPalPayment], in dollars. *)
Definition paypal_amount (t : Tier) : Z :=
  match t with
  | basic => 49
  | professional => 149
  | enterprise => 299
  end.

Definition createStripePayment (now : Z) (email : string) (t : Tier) : PaymentIntent :=
  {| id := ("pi_" ++ JSON.number now)%string;
     amount := stripe_amount t;
     currency := "usd";
     status := pending;
     email := email;
     tier := t |}.

Definition createPayPalPayment (now : Z) (email : string) (t : Tier) : PaymentIntent :=
  {| id := ("PAYPAL-" ++ JSON.number now)%string;
     amount := paypal_amount t * 100;
     currency := "usd";
     status := pending;
     email := email;
     tier := t |}.

(** The object indexed by [paymentIntent.tier] in [handlePaymentSuccess]. *)
Definition tier_activations (t : Tier) : Z :=
  match t with
  | basic => 1
  | professional => 3
  | enterprise => 10
  end.

(** [paymentIntent.id.startsWith("pi_") ? "stripe" : "paypal"] *)
Definition payment_method (paymentId : string) : string :=
  match JSON.strip_prefix "pi_" paymentId with
  | Some _ => "stripe"
  | None => "paypal"
  end.

(** [`${error}`] for a thrown [Error]. *)
Definition error_text (e : JsError) : string :=
  match e with
  | SyntaxError => "SyntaxError"
  | TypeError => "TypeError"
  | RangeError => "RangeError"
  | CryptoError => "Error"
  | Error message => ("Error: " ++ message)%string
  end.

Section Service.

Variable P : LicenseGenerator.Platform.

(** The [try] block of [handlePaymentSuccess]. *)
Definition payment_body (en : LicenseGenerator.Entropy) (now : Z)
  (paymentIntent : PaymentIntent) : PM PaymentResult :=
  fun db =>
    let maxActivations := tier_activations (tier paymentIntent) in
    let key :=
      LicenseGenerator.generateLicenseKey P en (email paymentIntent) maxActivations None in
    match on_tables
            (createLicense now
               {| License.new_licenseKey := key;
                  License.new_email := email paymentIntent;
                  License.new_purchaseId := Some (id paymentIntent);
                  License.new_maxActivations := maxActivations;
                  License.new_currentActivations := 0;
                  License.new_expiresAt := None;
                  License.new_status := License.active |}) db with
    | (Thrown e, db1) => (Thrown e, db1)
    | (Returned _, db1) =>
        match createPurchase now (email paymentIntent) (amount paymentIntent)
                (currency paymentIntent) 1 (payment_method (id paymentIntent))
                (id paymentIntent) p_completed db1 with
        | (Thrown e, db2) => (Thrown e, db2)
        | (Returned _, db2) =>
            (Returned {| success := true; licenseKey := Some key; error := None;
                         paymentId := id paymentIntent |}, db2)
        end
    end.

Definition handlePaymentSuccess (en : LicenseGenerator.Entropy) (now : Z)
  (paymentIntent : PaymentIntent) (db : ShopDb) : PaymentResult * ShopDb :=
  match payment_body en now paymentIntent db with
  | (Returned r, db') => (r, db')
  | (Thrown e, db') =>
      ({| success := false; licenseKey := None;
          error := Some ("Failed to generate license: " ++ error_text e)%string;
          paymentId := id paymentIntent |}, db')
  end.

End Service.

Definition handlePaymentFailure (now : Z) (paymentIntent : PaymentIntent) : PM unit :=
  createPurchase now (email paymentIntent) (amount paymentIntent)
    (currency paymentIntent) 1 (payment_method (id paymentIntent))
    (id paymentIntent) p_failed.

End PaymentService.

(** ** What the further properties speak about *)

Module Observations.
Import LicenseDb.

(** The column [licenseKey] holds no value twice. *)
Definition unique_keys (db : Db) : Prop :=
  match db with
  | Some t => NoDup (map License.licenseKey (licenses t))
  | None => True
  end.

(** The columns of a license that no statement of the adapter updates. *)
Definition license_core (l : License.t)
  : Z * string * string * option string * Z * option Z * Z :=
  (License.id l, License.licenseKey l, License.email l, License.purchaseId l,
   License.maxActivations l, License.expiresAt l, License.createdAt l).

(** The columns of an activation that no statement of the adapter updates. *)
Definition activation_core (a : Activation.t)
  : Z * Z * string * option string * option string * Z :=
  (Activation.id a, Activation.licenseId a, Activation.hardwareId a,
   Activation.machineName a, Activation.os a, Activation.activatedAt a).

Definition license_cores (db : Db) :=
  match db with
  | Some t => map license_core (licenses t)
  | None => []
  end.

Definition activation_cores (db : Db) :=
  match db with
  | Some t => map activation_core (activations t)
  | None => []
  end.

(** Every character satisfies [p]. *)
Fixpoint sall (p : ascii -> bool) (s : string) : bool :=
  match s with
  | EmptyString => true
  | String c rest => p c && sall p rest
  end.

(** A string of ASCII characters only. *)
Definition is_ascii (s : string) : bool :=
  sall (fun c => N.ltb (Chars.code c) 128) s.

(** A character of a formatted key: an upper-case letter, a digit or a dash. *)
Definition key_char (c : ascii) : bool :=
  Chars.is_upper c || Chars.is_digit c || Ascii.eqb c "-"%char.

(** A character of a block of a formatted key. *)
Definition block_char (c : ascii) : bool :=
  Chars.is_upper c || Chars.is_digit c.

(** The value [JSON.parse] gives for a number or [null] written by
    [JSON.stringify]. *)
Definition json_number_or_null (o : option Z) : JSON.json :=
  match o with
  | Some z => JSON.JNum z 0
  | None => JSON.JNull
  end.

(** The value [JSON.parse] gives for the payload of a license. *)
Definition payload_json (p : LicenseGenerator.LicensePayload) : JSON.json :=
  JSON.JObj
    [("email", JSON.JStr (LicenseGenerator.email p));
     ("maxActivations", JSON.JNum (LicenseGenerator.maxActivations p) 0);
     ("expiresAt", json_number_or_null (LicenseGenerator.expiresAt p));
     ("issuedAt", JSON.JNum (LicenseGenerator.issuedAt p) 0);
     ("nonce", JSON.JStr (LicenseGenerator.nonce p))].

(** The value [JSON.parse] gives for the data of an activation token. *)
Definition token_json (licenseKey hardwareId : string) (activatedAt : Z) : JSON.json :=
  JSON.JObj
    [("licenseKey", JSON.JStr licenseKey);
     ("hardwareId", JSON.JStr hardwareId);
     ("activatedAt", JSON.JNum activatedAt 0)].

(** The blocks of a key written one after the other. *)
Fixpoint flat (parts : list string) : string :=
  match parts with
  | [] => EmptyString
  | p :: rest => p ++ flat rest
  end.

(** A key pair whose signatures verify. *)
Definition faithful (P : LicenseGenerator.Platform) : Prop :=
  forall message,
    LicenseGenerator.verify P message (LicenseGenerator.sign P message) = Returned true.

End Observations.

(** ** What a served payment leaves in the database *)

Module PaymentObservations.
Import LicenseDb PaymentService.

(** The license row asked for by [handlePaymentSuccess]. *)
Definition license_of (now : Z) (paymentIntent : PaymentIntent) : License.insert :=
  {| License.new_licenseKey := Samples.issued_key;
     License.new_email := email paymentIntent;
     License.new_purchaseId := Some (id paymentIntent);
     License.new_maxActivations := tier_activations (tier paymentIntent);
     License.new_currentActivations := 0;
     License.new_expiresAt := None;
     License.new_status := License.active |}.

(** The purchase row it records. *)
Definition purchase_of (now : Z) (newId : Z) (paymentIntent : PaymentIntent) : Purchase :=
  {| purchase_id := newId;
     purchase_email := email paymentIntent;
     purchase_amount := amount paymentIntent;
     purchase_currency := currency paymentIntent;
     purchase_quantity := 1;
     purchase_paymentMethod := Some (payment_method (id paymentIntent));
     purchase_paymentId := Some (id paymentIntent);
     purchase_status := p_completed;
     purchase_createdAt := now;
     purchase_completedAt := None |}.

(** The database after both inserts. *)
Definition paid (now : Z) (paymentIntent : PaymentIntent) (shop : Shop) : Shop :=
  {| tables := insert_license now (license_of now paymentIntent) (tables shop);
     purchases := purchases shop ++ [purchase_of now (next_purchase_id shop) paymentIntent];
     next_purchase_id := next_purchase_id shop + 1 |}.

End PaymentObservations.

(** * Properties of the generator *)

Module GeneratorFacts.
Import Chars JSON LicenseGenerator Samples.

(** Whatever the inputs, the key handed out is the same 23 characters: the
    first 15 bytes of [JSON.stringify(licenseData)] are fixed and
    [formatLicenseKey] keeps 20 characters of their encoding. *)
Lemma generateLicenseKey_constant :
  forall P en email maxActivations expiresInDays,
    generateLicenseKey P en email maxActivations expiresInDays = issued_key.
Proof.
  intros. vm_compute. reflexivity.
Qed.

(** [formatLicenseKey] keeps the first 20 letters and digits in upper case. *)
Lemma formatLicenseKey_unformatted :
  forall P en email maxActivations expiresInDays,
    formatLicenseKey (unformatted_key P en email maxActivations expiresInDays)
    = generateLicenseKey P en email maxActivations expiresInDays.
Proof.
  reflexivity.
Qed.

Lemma decode_issued_key :
  forall P, decode_license P issued_key = Thrown SyntaxError.
Proof.
  intros. vm_compute. reflexivity.
Qed.

Lemma validate_issued_key :
  forall P now, validateLicenseKey P now issued_key = format_error.
Proof.
  intros. vm_compute. reflexivity.
Qed.

(** The expiry of a 0-day license is absent, as for no duration at all. *)
Lemma expiry_of_zero : forall now, expiry_of now (Some 0) = expiry_of now None.
Proof.
  reflexivity.
Qed.

Lemma expiry_of_nonzero :
  forall now d, d <> 0 -> expiry_of now (Some d) = Some (now + d * 86400000).
Proof.
  intros now d Hd. unfold expiry_of.
  destruct (Z.eqb_spec d 0) as [->|_]; [contradiction|].
  simpl. f_equal. lia.
Qed.

(** A result is caught from the [try] block or returned by it. *)
Lemma validateLicenseKey_cases :
  forall P now key,
    match validate_body P now key with
    | Thrown _ => validateLicenseKey P now key = format_error
    | Returned r => validateLicenseKey P now key = r
    end.
Proof.
  intros. unfold validateLicenseKey.
  destruct (validate_body P now key); reflexivity.
Qed.

Lemma validate_decode_thrown :
  forall P now key e,
    decode_license P key = Thrown e ->
    validateLicenseKey P now key = format_error.
Proof.
  intros P now key e H.
  unfold validateLicenseKey, validate_body. rewrite H. reflexivity.
Qed.

Lemma validate_bad_signature :
  forall P now key ps sg,
    decode_license P key = Returned (ps, sg) ->
    verify P (Utf8.bytes ps) sg = Returned false ->
    validateLicenseKey P now key = signature_error.
Proof.
  intros P now key ps sg Hd Hv.
  unfold validateLicenseKey, validate_body. rewrite Hd. simpl.
  rewrite Hv. reflexivity.
Qed.

End GeneratorFacts.

Module TamperFacts.
Import Chars JSON LicenseGenerator Samples GeneratorFacts.

Ltac each_byte b := destruct b as [[] [] [] [] [] [] [] []].

Lemma tamper_bytes_issued :
  forall P i b, decode_license P (tamper_bytes i b issued_key) = Thrown SyntaxError.
Proof.
  intros P i b.
  do 15 (destruct i as [|i]; [each_byte b; vm_compute; reflexivity|]).
  vm_compute. reflexivity.
Qed.

Lemma tamper_text_issued :
  forall P i c, decode_license P (tamper_text i c issued_key) = Thrown SyntaxError.
Proof.
  intros P i c.
  do 20 (destruct i as [|i]; [each_byte c; vm_compute; reflexivity|]).
  vm_compute. reflexivity.
Qed.

End TamperFacts.

(** * Properties of the store and of the router *)

Module StoreFacts.
Import LicenseDb Licensing Invariant.

Section ListFacts.

Context {A : Type}.

Lemma filter_map_same (p : A -> bool) (f : A -> A) (l : list A) :
  (forall x, p (f x) = p x) -> filter p (map f l) = map f (filter p l).
Proof.
  intros Hp. induction l as [|x l IH]; simpl; [reflexivity|].
  rewrite Hp. destruct (p x); simpl; rewrite IH; reflexivity.
Qed.

Lemma find_map_same (p : A -> bool) (f : A -> A) (l : list A) :
  (forall x, p (f x) = p x) -> find p (map f l) = option_map f (find p l).
Proof.
  intros Hp. induction l as [|x l IH]; simpl; [reflexivity|].
  rewrite Hp. destruct (p x); simpl; [reflexivity|exact IH].
Qed.


Lemma find_app_unit (p : A -> bool) (l : list A) (x : A) :
  p x = true -> exists y, find p (l ++ [x]) = Some y /\ p y = true.
Proof.
  intros Hx. induction l as [|z l IH]; simpl.
  - rewrite Hx. eauto.
  - destruct (p z) eqn:Hz; eauto.
Qed.

End ListFacts.

(** *** Updates by primary key *)

Lemma update_activation_id f aid a :
  (forall x, Activation.id (f x) = Activation.id x) ->
  Activation.id (update_activation f aid a) = Activation.id a.
Proof.
  intros Hf. unfold update_activation.
  destruct (Activation.id a =? aid); [apply Hf|reflexivity].
Qed.

Lemma update_activation_licenseId f aid a :
  (forall x, Activation.licenseId (f x) = Activation.licenseId x) ->
  Activation.licenseId (update_activation f aid a) = Activation.licenseId a.
Proof.
  intros Hf. unfold update_activation.
  destruct (Activation.id a =? aid); [apply Hf|reflexivity].
Qed.

Lemma map_update_absent f aid l :
  ~ In aid (map Activation.id l) -> map (update_activation f aid) l = l.
Proof.
  induction l as [|x l IH]; simpl; intros Hn; [reflexivity|].
  unfold update_activation at 1.
  destruct (Z.eqb_spec (Activation.id x) aid) as [E|_].
  - exfalso. apply Hn. left. exact E.
  - rewrite IH; [reflexivity|]. intros Hin. apply Hn. right. exact Hin.
Qed.

Lemma map_update_unique f l a :
  NoDup (map Activation.id l) -> In a l ->
  exists l1 l2,
    l = l1 ++ a :: l2 /\
    map (update_activation f (Activation.id a)) l = l1 ++ f a :: l2.
Proof.
  intros Hnd Hin.
  destruct (in_split _ _ Hin) as (l1 & l2 & ->).
  exists l1, l2. split; [reflexivity|].
  rewrite map_app in Hnd. simpl in Hnd.
  pose proof (NoDup_remove_2 _ _ _ Hnd) as Hnot.
  rewrite map_app. simpl.
  rewrite (map_update_absent f (Activation.id a) l1).
  - rewrite (map_update_absent f (Activation.id a) l2).
    + unfold update_activation. rewrite Z.eqb_refl. reflexivity.
    + intros H. apply Hnot. apply in_or_app. right. exact H.
  - intros H. apply Hnot. apply in_or_app. left. exact H.
Qed.

Lemma map_id_update f aid l :
  (forall x, Activation.id (f x) = Activation.id x) ->
  map Activation.id (map (update_activation f aid) l) = map Activation.id l.
Proof.
  intros Hf. rewrite map_map. apply map_ext. intros a.
  apply update_activation_id. exact Hf.
Qed.

Lemma bump_id delta now lid l : License.id (bump delta now lid l) = License.id l.
Proof.
  unfold bump. destruct (License.id l =? lid); reflexivity.
Qed.

Lemma bump_key delta now lid k l : key_is k (bump delta now lid l) = key_is k l.
Proof.
  unfold bump, key_is. destruct (License.id l =? lid); reflexivity.
Qed.

Lemma bump_status delta now lid l :
  License.status (bump delta now lid l) = License.status l.
Proof.
  unfold bump. destruct (License.id l =? lid); reflexivity.
Qed.

Lemma map_id_bump delta now lid ls :
  map License.id (map (bump delta now lid) ls) = map License.id ls.
Proof.
  rewrite map_map. apply map_ext. intros l. apply bump_id.
Qed.

(** *** Counting active records *)

Lemma active_count_app lid l1 l2 :
  active_count lid (l1 ++ l2) = active_count lid l1 + active_count lid l2.
Proof.
  unfold active_count. rewrite filter_app, length_app. lia.
Qed.

Lemma active_count_cons lid a l :
  active_count lid (a :: l)
  = (if active_for lid a then 1 else 0) + active_count lid l.
Proof.
  unfold active_count. cbn [filter].
  destruct (active_for lid a); cbn [List.length]; lia.
Qed.

Lemma active_count_nonneg lid l : 0 <= active_count lid l.
Proof.
  unfold active_count. lia.
Qed.

Lemma active_count_touch lid now aid l :
  active_count lid (map (update_activation (Activation.set_lastSeenAt now) aid) l)
  = active_count lid l.
Proof.
  unfold active_count. rewrite filter_map_same.
  - rewrite length_map. reflexivity.
  - intros x. unfold update_activation, active_for.
    destruct (Activation.id x =? aid); reflexivity.
Qed.

Lemma pair_count_touch lid hw now aid l :
  pair_count lid hw (map (update_activation (Activation.set_lastSeenAt now) aid) l)
  = pair_count lid hw l.
Proof.
  unfold pair_count. rewrite filter_map_same.
  - rewrite length_map. reflexivity.
  - intros x. unfold update_activation, active_on.
    destruct (Activation.id x =? aid); reflexivity.
Qed.

Lemma active_count_deactivate lid l a :
  NoDup (map Activation.id l) -> In a l ->
  Activation.is_active (Activation.status a) = true ->
  active_count lid
    (map (update_activation (Activation.set_status Activation.deactivated)
            (Activation.id a)) l)
  = active_count lid l - (if Activation.licenseId a =? lid then 1 else 0).
Proof.
  intros Hnd Hin Hact.
  destruct (map_update_unique (Activation.set_status Activation.deactivated) l a Hnd Hin)
    as (l1 & l2 & -> & ->).
  rewrite !active_count_app, !active_count_cons.
  assert (Hoff : active_for lid (Activation.set_status Activation.deactivated a) = false).
  { unfold active_for. cbn. apply andb_false_r. }
  assert (Hon : active_for lid a = (Activation.licenseId a =? lid)).
  { unfold active_for. rewrite Hact. apply andb_true_r. }
  rewrite Hoff, Hon.
  destruct (Activation.licenseId a =? lid); lia.
Qed.

Lemma active_count_below lid bound l :
  Forall (fun a => Activation.licenseId a < bound) l -> bound <= lid ->
  active_count lid l = 0.
Proof.
  intros Hall Hle. unfold active_count.
  induction Hall as [|a l Ha _ IH]; simpl; [reflexivity|].
  unfold active_for at 1.
  destruct (Z.eqb_spec (Activation.licenseId a) lid) as [E|_]; [lia|].
  simpl. exact IH.
Qed.

Lemma find_active_on lid hw l a :
  find (active_on lid hw) l = Some a ->
  In a l /\ Activation.licenseId a = lid /\ Activation.hardwareId a = hw
  /\ Activation.is_active (Activation.status a) = true.
Proof.
  intros H. apply find_some in H. destruct H as [Hin Hp].
  unfold active_on in Hp.
  apply andb_true_iff in Hp. destruct Hp as [Hp Hs].
  apply andb_true_iff in Hp. destruct Hp as [Hl Hh].
  apply Z.eqb_eq in Hl. apply String.eqb_eq in Hh. auto.
Qed.

Lemma pair_count_none lid hw l :
  find (active_on lid hw) l = None -> pair_count lid hw l = 0%nat.
Proof.
  unfold pair_count. induction l as [|x l IH]; simpl; [reflexivity|].
  destruct (active_on lid hw x); [discriminate|exact IH].
Qed.

(** *** Fresh keys *)

Lemma NoDup_snoc_fresh (ids : list Z) (next : Z) :
  NoDup ids -> Forall (fun i => i < next) ids -> NoDup (ids ++ [next]).
Proof.
  intros Hnd Hall. apply NoDup_app.
  - exact Hnd.
  - constructor; [intros []|constructor].
  - intros a Ha [E|[]]. subst a.
    rewrite Forall_forall in Hall. specialize (Hall _ Ha). lia.
Qed.

Lemma NoDup_map_eq {A : Type} (f : A -> Z) (l : list A) (x y : A) :
  NoDup (map f l) -> In x l -> In y l -> f x = f y -> x = y.
Proof.
  induction l as [|z l IH]; simpl; intros Hnd Hx Hy E; [contradiction|].
  inversion Hnd as [|? ? Hnot Hnd']; subst.
  destruct Hx as [->|Hx], Hy as [->|Hy].
  - reflexivity.
  - exfalso. apply Hnot. rewrite E. apply in_map. exact Hy.
  - exfalso. apply Hnot. rewrite <- E. apply in_map. exact Hx.
  - apply IH; assumption.
Qed.

Lemma Forall_below_weaken {A : Type} (f : A -> Z) (n : Z) (l : list A) :
  Forall (fun x => f x < n) l -> Forall (fun x => f x < n + 1) l.
Proof.
  intros H. eapply Forall_impl; [|exact H]. cbn. intros; lia.
Qed.

(** *** The invariant under the operations on the tables *)

Lemma touch_ok now aid t :
  store_ok t -> store_ok (update_where_id (Activation.set_lastSeenAt now) aid t).
Proof.
  intros [[H1 H2 H3 H4 H5] Hc].
  split; [split|]; cbn.
  - exact H1.
  - rewrite map_id_update; [exact H2|reflexivity].
  - exact H3.
  - apply Forall_map. eapply Forall_impl; [|exact H4].
    cbn. intros a Ha. rewrite update_activation_id; [exact Ha|reflexivity].
  - apply Forall_map. eapply Forall_impl; [|exact H5].
    cbn. intros a Ha. rewrite update_activation_licenseId; [exact Ha|reflexivity].
  - eapply Forall_impl; [|exact Hc].
    cbn. intros l [Hcnt Hb]. split; [|exact Hb].
    unfold counted in *. rewrite active_count_touch. exact Hcnt.
Qed.

Lemma activate_new_ok now ins l t :
  store_ok t -> In l (licenses t) ->
  Activation.new_licenseId ins = License.id l ->
  Activation.new_status ins = Activation.active ->
  License.currentActivations l < License.maxActivations l ->
  store_ok (add_to_count 1 now (License.id l) (insert_activation now ins t)).
Proof.
  intros [[H1 H2 H3 H4 H5] Hc] Hin Hlid Hst Hlt.
  pose proof Hc as Hc'. rewrite Forall_forall in Hc'.
  pose proof H3 as H3'. rewrite Forall_forall in H3'.
  split; [split|]; cbn.
  - rewrite map_id_bump. exact H1.
  - rewrite map_app. cbn. apply NoDup_snoc_fresh; [exact H2|].
    apply Forall_map. exact H4.
  - apply Forall_map. eapply Forall_impl; [|exact H3].
    cbn. intros x Hx. rewrite bump_id. exact Hx.
  - apply Forall_app. split.
    + apply Forall_below_weaken. exact H4.
    + constructor; [cbn; lia|constructor].
  - apply Forall_app. split; [exact H5|].
    constructor; [|constructor]. cbn. rewrite Hlid. apply H3'. exact Hin.
  - apply Forall_map. apply Forall_forall. intros x Hx.
    destruct (Hc' _ Hx) as [Hcnt Hb]. unfold counted, bounded in *.
    rewrite bump_id, active_count_app, active_count_cons.
    change (active_count (License.id x) []) with 0.
    unfold active_for. cbn [activation_row Activation.licenseId Activation.status].
    rewrite Hlid, Hst. cbn [Activation.is_active]. rewrite andb_true_r.
    unfold bump. rewrite (Z.eqb_sym (License.id l)).
    destruct (Z.eqb_spec (License.id x) (License.id l)) as [E|_].
    + assert (x = l) by (eapply NoDup_map_eq; eauto). subst x.
      cbn. split; lia.
    + split; [lia|exact Hb].
Qed.

Lemma deactivate_ok now a l t :
  store_ok t -> In a (activations t) ->
  Activation.is_active (Activation.status a) = true ->
  Activation.licenseId a = License.id l ->
  store_ok
    (add_to_count (-1) now (License.id l)
       (update_where_id (Activation.set_status Activation.deactivated)
          (Activation.id a) t)).
Proof.
  intros [[H1 H2 H3 H4 H5] Hc] Hin Hact Hlid.
  pose proof Hc as Hc'. rewrite Forall_forall in Hc'.
  split; [split|]; cbn.
  - rewrite map_id_bump. exact H1.
  - rewrite map_id_update; [exact H2|reflexivity].
  - apply Forall_map. eapply Forall_impl; [|exact H3].
    cbn. intros x Hx. rewrite bump_id. exact Hx.
  - apply Forall_map. eapply Forall_impl; [|exact H4].
    cbn. intros x Hx. rewrite update_activation_id; [exact Hx|reflexivity].
  - apply Forall_map. eapply Forall_impl; [|exact H5].
    cbn. intros x Hx. rewrite update_activation_licenseId; [exact Hx|reflexivity].
  - apply Forall_map. apply Forall_forall. intros x Hx.
    destruct (Hc' _ Hx) as [Hcnt Hb]. unfold counted, bounded in *.
    rewrite bump_id.
    pose proof (active_count_deactivate (License.id x) _ a H2 Hin Hact) as Hd.
    pose proof (active_count_nonneg (License.id x)
                  (map (update_activation (Activation.set_status Activation.deactivated)
                          (Activation.id a)) (activations t))) as Hnn.
    rewrite Hd in *. rewrite Hlid in *.
    unfold bump. rewrite (Z.eqb_sym (License.id l)) in *.
    destruct (Z.eqb_spec (License.id x) (License.id l)) as [E|_]; cbn; split; lia.
Qed.

Lemma insert_license_ok now ins t :
  store_ok t ->
  License.new_currentActivations ins = 0 ->
  0 <= License.new_maxActivations ins ->
  store_ok (insert_license now ins t).
Proof.
  intros [[H1 H2 H3 H4 H5] Hc] Hzero Hmax.
  split; [split|]; cbn.
  - rewrite map_app. cbn. apply NoDup_snoc_fresh; [exact H1|].
    apply Forall_map. exact H3.
  - exact H2.
  - apply Forall_app. split.
    + apply Forall_below_weaken. exact H3.
    + constructor; [cbn; lia|constructor].
  - exact H4.
  - apply Forall_below_weaken. exact H5.
  - apply Forall_app. split; [exact Hc|].
    constructor; [|constructor].
    unfold counted, bounded. cbn. rewrite Hzero. split; [|lia].
    symmetry. eapply active_count_below; [exact H5|lia].
Qed.

(** *** The invariant under the procedures of the router *)

Lemma activate_preserves P now input db :
  db_ok db -> db_ok (snd (activate P now input db)).
Proof.
  destruct db as [t|]; [|intros _; exact I].
  intros Hok. unfold activate, bind, getLicenseByKey. cbn.
  destruct (find (key_is (licenseKey input)) (licenses t)) as [l|] eqn:Hl;
    cbn; [|exact Hok].
  destruct (License.is_active (License.status l)); cbn; [|exact Hok].
  destruct (find (active_on (License.id l) (hardwareId input)) (activations t))
    as [a|] eqn:Ha; cbn.
  - apply touch_ok. exact Hok.
  - destruct (Z.leb_spec (License.maxActivations l) (License.currentActivations l));
      cbn; [exact Hok|].
    apply find_some in Hl. destruct Hl as [Hl _].
    apply activate_new_ok; auto.
Qed.

Lemma deactivate_preserves now input db :
  db_ok db -> db_ok (snd (deactivate now input db)).
Proof.
  destruct db as [t|]; [|intros _; exact I].
  intros Hok. unfold deactivate, bind, getLicenseByKey. cbn.
  destruct (find (key_is (d_licenseKey input)) (licenses t)) as [l|] eqn:Hl;
    cbn; [|exact Hok].
  destruct (find (active_on (License.id l) (d_hardwareId input)) (activations t))
    as [a|] eqn:Ha; cbn; [|exact Hok].
  apply find_active_on in Ha. destruct Ha as (Hin & Hlid & _ & Hact).
  apply deactivate_ok; auto.
Qed.

(** [generate] with an expiry beyond the range of [Date] throws and
    writes nothing. *)
Lemma generate_out_of_range P en now input db :
  date_in_range (LicenseGenerator.expiry_of now (g_expiresInDays input)) = false ->
  generate P en now input db
  = (Thrown (match db with Some _ => RangeError | None => not_available end), db).
Proof.
  intros H. unfold generate. cbv zeta. rewrite H. destruct db; reflexivity.
Qed.

Lemma generate_preserves P en now input db :
  0 <= g_maxActivations input ->
  db_ok db -> db_ok (snd (generate P en now input db)).
Proof.
  intros Hmax Hok.
  destruct (date_in_range (LicenseGenerator.expiry_of now (g_expiresInDays input)))
    eqn:Hd; [|rewrite generate_out_of_range by exact Hd; exact Hok].
  revert Hok. destruct db as [t|]; [|intros _; unfold generate; rewrite Hd; exact I].
  intros Hok. unfold generate, bind, createLicense. cbv zeta. rewrite Hd.
  set (key := LicenseGenerator.generateLicenseKey P en _ _ _).
  cbn [License.new_licenseKey].
  destruct (existsb (key_is key) (licenses t)); cbn [snd ret]; [exact Hok|].
  apply insert_license_ok; [exact Hok|reflexivity|exact Hmax].
Qed.

End StoreFacts.

Module RouterFacts.
Import LicenseDb Licensing Invariant StoreFacts.

#[local] Arguments pair_count : simpl never.

(** *** Rejections *)

(** What [generate] answers and writes: the key is the same for every
    input, and the call throws without writing when the store is not
    available, when the expiry is beyond the range of [Date], and when the
    store holds the key. *)
Lemma generate_result P en now input db :
  generate P en now input db
  = match db with
    | None => (Thrown not_available, None)
    | Some t =>
        if date_in_range (LicenseGenerator.expiry_of now (g_expiresInDays input))
        then
          if existsb (key_is Samples.issued_key) (licenses t)
          then (Thrown duplicate_entry, Some t)
          else (Returned Samples.issued_key,
                Some (insert_license now
                        {| License.new_licenseKey := Samples.issued_key;
                           License.new_email := g_email input;
                           License.new_purchaseId := g_purchaseId input;
                           License.new_maxActivations := g_maxActivations input;
                           License.new_currentActivations := 0;
                           License.new_expiresAt :=
                             LicenseGenerator.expiry_of now (g_expiresInDays input);
                           License.new_status := License.active |} t))
        else (Thrown RangeError, Some t)
    end.
Proof.
  unfold generate, bind, createLicense, createLicense_invalid_date. cbv zeta.
  rewrite GeneratorFacts.generateLicenseKey_constant.
  cbn [License.new_licenseKey].
  destruct db as [t|].
  - destruct (date_in_range _); [|reflexivity].
    destruct (existsb (key_is Samples.issued_key) (licenses t)); reflexivity.
  - destruct (date_in_range _); reflexivity.
Qed.

Lemma activate_not_found P now input db :
  fst (getLicenseByKey (licenseKey input) db) = Returned None ->
  activate P now input db = (Thrown (Error "License not found"), db).
Proof.
  unfold activate, bind, getLicenseByKey.
  destruct db as [t|]; cbn; [|reflexivity].
  intros H. injection H as H. rewrite H. reflexivity.
Qed.

Lemma activate_not_active P now input db l :
  fst (getLicenseByKey (licenseKey input) db) = Returned (Some l) ->
  License.is_active (License.status l) = false ->
  activate P now input db
  = (Thrown (Error ("License is " ++ License.status_name (License.status l))%string), db).
Proof.
  unfold activate, bind, getLicenseByKey.
  destruct db as [t|]; cbn; [|discriminate].
  intros H Hs. injection H as H. rewrite H. cbn. rewrite Hs. reflexivity.
Qed.

Lemma activate_thrown P now input db e db' :
  activate P now input db = (Thrown e, db') ->
  db' = db /\ activate_rejection e.
Proof.
  unfold activate, bind, getLicenseByKey, activate_rejection.
  destruct db as [t|]; cbn.
  - destruct (find (key_is (licenseKey input)) (licenses t)) as [l|]; cbn.
    + destruct (License.status l) eqn:Hs; cbn.
      * destruct (find (active_on (License.id l) (hardwareId input)) (activations t));
          cbn; [discriminate|].
        destruct (License.maxActivations l <=? License.currentActivations l); cbn;
          [|discriminate].
        intros H. injection H as <- <-. auto.
      * intros H. injection H as <- <-. auto.
      * intros H. injection H as <- <-. auto.
    + intros H. injection H as <- <-. auto.
  - intros H. injection H as <- <-. auto.
Qed.

Lemma deactivate_thrown now input db e db' :
  deactivate now input db = (Thrown e, db') ->
  db' = db /\ deactivate_rejection e.
Proof.
  unfold deactivate, bind, getLicenseByKey, deactivate_rejection.
  destruct db as [t|]; cbn.
  - destruct (find (key_is (d_licenseKey input)) (licenses t)) as [l|]; cbn.
    + destruct (find (active_on (License.id l) (d_hardwareId input)) (activations t));
        cbn; [discriminate|].
      intros H. injection H as <- <-. auto.
    + intros H. injection H as <- <-. auto.
  - intros H. injection H as <- <-. auto.
Qed.

(** *** Activating twice *)

Lemma activate_returned_success P now input db out db' :
  activate P now input db = (Returned out, db') -> success out = true.
Proof.
  unfold activate, bind, getLicenseByKey.
  destruct db as [t|]; cbn; [|discriminate].
  destruct (find (key_is (licenseKey input)) (licenses t)) as [l|]; cbn;
    [|discriminate].
  destruct (License.is_active (License.status l)); cbn; [|discriminate].
  destruct (find (active_on (License.id l) (hardwareId input)) (activations t)); cbn.
  - intros H. injection H as <- _. reflexivity.
  - destruct (License.maxActivations l <=? License.currentActivations l); cbn;
      [discriminate|].
    intros H. injection H as <- _. reflexivity.
Qed.

Lemma activate_touch P now input t l a :
  find (key_is (licenseKey input)) (licenses t) = Some l ->
  License.is_active (License.status l) = true ->
  find (active_on (License.id l) (hardwareId input)) (activations t) = Some a ->
  activate P now input (Some t)
  = (Returned already,
     Some (update_where_id (Activation.set_lastSeenAt now) (Activation.id a) t)).
Proof.
  intros Hl Hs Ha. unfold activate, bind, getLicenseByKey. cbn.
  rewrite Hl. cbn. rewrite Hs. cbn. rewrite Ha. reflexivity.
Qed.

Lemma activate_again P now1 now2 input db out1 db1 :
  activate P now1 input db = (Returned out1, db1) ->
  exists db2,
    activate P now2 input db1 = (Returned already, db2)
    /\ activation_counts db2 = activation_counts db1.
Proof.
  destruct db as [t|]; [|discriminate].
  unfold activate at 1. unfold bind, getLicenseByKey. cbn.
  destruct (find (key_is (licenseKey input)) (licenses t)) as [l|] eqn:Hl; cbn;
    [|discriminate].
  destruct (License.is_active (License.status l)) eqn:Hs; cbn; [|discriminate].
  destruct (find (active_on (License.id l) (hardwareId input)) (activations t))
    as [a|] eqn:Ha; cbn.
  - intros H. injection H as _ <-.
    eexists. split.
    + apply activate_touch with (l := l).
      * exact Hl.
      * exact Hs.
      * cbn. rewrite find_map_same, Ha; [reflexivity|].
        intros x. unfold update_activation, active_on.
        destruct (Activation.id x =? Activation.id a); reflexivity.
    + reflexivity.
  - destruct (License.maxActivations l <=? License.currentActivations l); cbn;
      [discriminate|].
    intros H. injection H as _ <-.
    set (row := activation_row now1 (next_activation_id t) (new_activation l input)).
    assert (Hrow : active_on (License.id l) (hardwareId input) row = true).
    { unfold active_on, row. cbn. rewrite Z.eqb_refl, String.eqb_refl. reflexivity. }
    destruct (find_app_unit (active_on (License.id l) (hardwareId input))
                (activations t) row Hrow) as (y & Hy & _).
    eexists. split.
    + apply activate_touch with (l := bump 1 now1 (License.id l) l) (a := y).
      * cbn. rewrite find_map_same, Hl; [reflexivity|].
        intros x. apply bump_key.
      * rewrite bump_status. exact Hs.
      * rewrite bump_id. exact Hy.
    + reflexivity.
Qed.

Lemma pair_count_snoc lid hw acts row :
  pair_count lid hw (acts ++ [row])
  = (pair_count lid hw acts + (if active_on lid hw row then 1 else 0))%nat.
Proof.
  unfold pair_count. rewrite filter_app, length_app. cbn [filter].
  destruct (active_on lid hw row); reflexivity.
Qed.

Lemma activate_pairs P now input db :
  one_active_per_pair db -> one_active_per_pair (snd (activate P now input db)).
Proof.
  destruct db as [t|]; [|intros _; exact I].
  intros Hok. unfold activate, bind, getLicenseByKey. cbn.
  destruct (find (key_is (licenseKey input)) (licenses t)) as [l|] eqn:Hl;
    cbn; [|exact Hok].
  destruct (License.is_active (License.status l)); cbn; [|exact Hok].
  destruct (find (active_on (License.id l) (hardwareId input)) (activations t))
    as [a|] eqn:Ha; cbn.
  - intros lid hw. rewrite pair_count_touch. apply Hok.
  - destruct (License.maxActivations l <=? License.currentActivations l);
      cbn; [exact Hok|].
    intros lid hw. rewrite pair_count_snoc.
    match goal with |- context [active_on lid hw ?r] =>
      destruct (active_on lid hw r) eqn:Hrow end.
    + unfold active_on in Hrow. cbn in Hrow.
      apply andb_true_iff in Hrow. destruct Hrow as [Hrow _].
      apply andb_true_iff in Hrow. destruct Hrow as [E1 E2].
      apply Z.eqb_eq in E1. apply String.eqb_eq in E2. subst lid hw.
      rewrite (pair_count_none _ _ _ Ha). cbn. lia.
    + specialize (Hok lid hw). cbn in Hok. lia.
Qed.

End RouterFacts.

(** * Properties of interleaved calls *)

Module InterleavingFacts.
Import LicenseDb Licensing Invariant Interleaving Samples StoreFacts.

(** Run alone, the steps of a call are the procedure of the router. *)
Lemma run_alone_activate P now input db :
  run_alone P 5 now input BeforeLookup db
  = (Finished (fst (activate P now input db)), snd (activate P now input db)).
Proof.
  unfold activate, bind, getLicenseByKey.
  destruct db as [t|]; cbn; [|reflexivity].
  destruct (find (key_is (licenseKey input)) (licenses t)) as [l|]; cbn;
    [|reflexivity].
  destruct (License.is_active (License.status l)); cbn; [|reflexivity].
  destruct (find (active_on (License.id l) (hardwareId input)) (activations t));
    cbn; [reflexivity|].
  destruct (License.maxActivations l <=? License.currentActivations l);
    reflexivity.
Qed.

(** The unguarded [UPDATE] adds one whatever the ceiling. *)
Lemma increment_unguarded now l t :
  In l (licenses t) ->
  In (License.set_count (License.currentActivations l + 1) now l)
     (licenses (add_to_count 1 now (License.id l) t)).
Proof.
  intros Hin. cbn.
  apply in_map with (f := bump 1 now (License.id l)) in Hin.
  unfold bump at 1 in Hin. rewrite Z.eqb_refl in Hin. exact Hin.
Qed.

(** Two calls that both read the license before either one writes: both
    pass the check made on their own copy of the row. *)
Lemma both_pass_the_check P t l now1 now2 in1 in2 :
  find (key_is (licenseKey in1)) (licenses t) = Some l ->
  licenseKey in2 = licenseKey in1 ->
  License.is_active (License.status l) = true ->
  find (active_on (License.id l) (hardwareId in1)) (activations t) = None ->
  find (active_on (License.id l) (hardwareId in2)) (activations t) = None ->
  License.currentActivations l < License.maxActivations l ->
  exists calls,
    run_schedule P alternating [start now1 in1; start now2 in2] (Some t)
    = (calls,
       Some (add_to_count 1 now2 (License.id l)
               (add_to_count 1 now1 (License.id l)
                  (insert_activation now2 (new_activation l in2)
                     (insert_activation now1 (new_activation l in1) t)))))
    /\ forallb succeeded calls = true.
Proof.
  intros Hl Hk Hs H1 H2 Hlt.
  assert (Hle : (License.maxActivations l <=? License.currentActivations l) = false)
    by (apply Z.leb_gt; exact Hlt).
  unfold alternating, start.
  cbn [run_schedule step_call call_now call_input call_state activate_step
       getLicenseByKey].
  rewrite Hl, Hs.
  cbn [run_schedule step_call call_now call_input call_state activate_step
       getLicenseByKey negb].
  rewrite Hk, Hl, Hs.
  cbn [run_schedule step_call call_now call_input call_state activate_step
       getActivationByHardwareId negb].
  rewrite H1, Hle.
  cbn [run_schedule step_call call_now call_input call_state activate_step
       getActivationByHardwareId].
  rewrite H2, Hle.
  cbn [run_schedule step_call call_now call_input call_state activate_step
       createActivation incrementActivationCount].
  eexists. split; reflexivity.
Qed.

Lemma count_after_two_increments now1 now2 k l t :
  find (key_is k) (licenses t) = Some l ->
  exists l',
    find (key_is k)
      (licenses (add_to_count 1 now2 (License.id l)
                   (add_to_count 1 now1 (License.id l) t))) = Some l'
    /\ License.currentActivations l' = License.currentActivations l + 2
    /\ License.maxActivations l' = License.maxActivations l.
Proof.
  intros Hl. cbn.
  rewrite find_map_same by (intros x; apply bump_key).
  rewrite find_map_same by (intros x; apply bump_key).
  rewrite Hl. cbn. eexists. split; [reflexivity|].
  unfold bump. cbn. rewrite !Z.eqb_refl. cbn. split; [lia|reflexivity].
Qed.

End InterleavingFacts.

Module SampleFacts.
Import LicenseGenerator LicenseDb Licensing Invariant Interleaving Samples.

Lemma generate_one_license :
  generate toy entropy0 10 (generate_input 1) empty_db
  = (Returned issued_key, Some one_license).
Proof.
  vm_compute. reflexivity.
Qed.

Lemma activate_one_license :
  snd (activate toy 20 (activate_input "H1") (Some one_license)) = Some one_active.
Proof.
  vm_compute. reflexivity.
Qed.

Ltac solve_store_ok :=
  split; [split|]; cbn;
  repeat first
    [ apply NoDup_nil | apply Forall_nil
    | apply NoDup_cons; [cbn; intuition discriminate|]
    | apply Forall_cons; [cbv; intuition (discriminate || congruence)|] ].

Lemma empty_ok : db_ok empty_db.
Proof.
  solve_store_ok.
Qed.

Lemma one_license_ok : store_ok one_license.
Proof.
  solve_store_ok.
Qed.

Lemma one_active_ok : store_ok one_active.
Proof.
  solve_store_ok.
Qed.

End SampleFacts.

(** * Sequential histories keep the invariants *)

Module HistoryFacts.
Import LicenseDb Licensing Invariant History Samples StoreFacts RouterFacts SampleFacts.

#[local] Arguments pair_count : simpl never.

Lemma pair_count_deactivate lid hw aid acts :
  (pair_count lid hw
     (map (update_activation (Activation.set_status Activation.deactivated) aid) acts)
   <= pair_count lid hw acts)%nat.
Proof.
  unfold pair_count. induction acts as [|x acts IH]; cbn [map filter]; [lia|].
  unfold update_activation at 1.
  destruct (Activation.id x =? aid).
  - assert (Hoff : active_on lid hw
                     (Activation.set_status Activation.deactivated x) = false).
    { unfold active_on. cbn. apply andb_false_r. }
    rewrite Hoff. destruct (active_on lid hw x); cbn [List.length]; lia.
  - destruct (active_on lid hw x); cbn [List.length]; lia.
Qed.

Lemma deactivate_pairs now input db :
  one_active_per_pair db -> one_active_per_pair (snd (deactivate now input db)).
Proof.
  destruct db as [t|]; [|intros _; exact I].
  intros Hok. unfold deactivate, bind, getLicenseByKey. cbn.
  destruct (find (key_is (d_licenseKey input)) (licenses t)) as [l|]; cbn;
    [|exact Hok].
  destruct (find (active_on (License.id l) (d_hardwareId input)) (activations t))
    as [a|]; cbn; [|exact Hok].
  intros lid hw. specialize (Hok lid hw). cbn in Hok.
  pose proof (pair_count_deactivate lid hw (Activation.id a) (activations t)). lia.
Qed.

Lemma generate_pairs P en now input db :
  one_active_per_pair db -> one_active_per_pair (snd (generate P en now input db)).
Proof.
  intros Hok.
  destruct (date_in_range (LicenseGenerator.expiry_of now (g_expiresInDays input)))
    eqn:Hd; [|rewrite generate_out_of_range by exact Hd; exact Hok].
  revert Hok. destruct db as [t|]; [|intros _; unfold generate; rewrite Hd; exact I].
  intros Hok. unfold generate, bind, createLicense. cbv zeta. rewrite Hd.
  set (key := LicenseGenerator.generateLicenseKey P en _ _ _).
  cbn [License.new_licenseKey].
  destruct (existsb (key_is key) (licenses t)); cbn [snd ret]; exact Hok.
Qed.

(** Every store reached from the empty one by requests served one after
    the other keeps the counting invariant. *)
Lemma history_ok P rs db :
  Forall sane rs -> db_ok db -> db_ok (perform_all P rs db).
Proof.
  intros Hs. revert db. induction Hs as [|[now r] rs Hr _ IH]; intros db Hok.
  - exact Hok.
  - cbn [perform_all]. apply IH. destruct r as [en g|a|d]; cbn [perform].
    + apply generate_preserves; [exact Hr|exact Hok].
    + apply activate_preserves. exact Hok.
    + apply deactivate_preserves. exact Hok.
Qed.

Lemma history_pairs P rs db :
  one_active_per_pair db -> one_active_per_pair (perform_all P rs db).
Proof.
  revert db. induction rs as [|[now r] rs IH]; intros db Hok; [exact Hok|].
  cbn [perform_all]. apply IH. destruct r as [en g|a|d]; cbn [perform].
  - apply generate_pairs. exact Hok.
  - apply activate_pairs. exact Hok.
  - apply deactivate_pairs. exact Hok.
Qed.

(** In such a store no counter is negative or above its ceiling. *)
Lemma history_counts_bounded P rs t :
  Forall sane rs -> perform_all P rs empty_db = Some t ->
  Forall (fun l => 0 <= License.currentActivations l <= License.maxActivations l
                   /\ License.currentActivations l
                      = active_count (License.id l) (activations t))
         (licenses t).
Proof.
  intros Hs Ht. pose proof (history_ok P rs empty_db Hs empty_ok) as Hok.
  rewrite Ht in Hok. destruct Hok as [_ Hc].
  eapply Forall_impl; [|exact Hc]. cbn. intros l [H1 H2]. split; assumption.
Qed.

End HistoryFacts.

(** * Interleaved deactivations *)

Module DeactivationFacts.
Import LicenseDb Licensing Invariant Interleaving Samples.

Lemma run_deactivate_alone_deactivate now input db :
  run_deactivate_alone 4 now input DBeforeLookup db
  = (DFinished (fst (deactivate now input db)), snd (deactivate now input db)).
Proof.
  unfold deactivate, bind, getLicenseByKey.
  destruct db as [t|]; cbn; [|reflexivity].
  destruct (find (key_is (d_licenseKey input)) (licenses t)) as [l|]; cbn;
    [|reflexivity].
  destruct (find (active_on (License.id l) (d_hardwareId input)) (activations t));
    reflexivity.
Qed.

(** Two interleaved calls of [deactivate] for the one active record both
    succeed and decrement twice: the counter ends at -1. *)
Lemma interleaved_deactivations_go_negative :
  exists t,
    run_two_deactivations alternating2 30 31 (deactivate_input "H1")
      DBeforeLookup DBeforeLookup (Some one_active)
    = (DFinished (Returned true), DFinished (Returned true), Some t)
    /\ map License.currentActivations (licenses t) = [-1].
Proof.
  eexists. split; vm_compute; reflexivity.
Qed.

End DeactivationFacts.

(** * The model at work *)

Module ModelChecks.
Import JSON LicenseGenerator Samples.

(** Without [formatLicenseKey] the key validates and gives the payload back. *)
Example unformatted_key_validates :
  validateLicenseKey toy 1700000000005
    (unformatted_key toy entropy0 "a@example.com" 3 None)
  = {| valid := true;
       payload :=
         Some (JObj [("email", JStr "a@example.com");
                     ("maxActivations", JNum 3 0);
                     ("expiresAt", JNull);
                     ("issuedAt", JNum 1700000000000 0);
                     ("nonce", JStr "0102ff1005060708090a0b0c0d0e0f10")]);
       error := None |}.
Proof.
  vm_compute. reflexivity.
Qed.

(** A one-day license is valid up to its expiry and expired after it. *)
Example one_day_key_expires :
  valid (validateLicenseKey toy (1700000000000 + 86400000)
           (unformatted_key toy entropy0 "a@example.com" 1 (Some 1))) = true
  /\ validateLicenseKey toy (1700000000000 + 86400001)
       (unformatted_key toy entropy0 "a@example.com" 1 (Some 1))
     = {| valid := false; payload := None; error := Some "License expired" |}.
Proof.
  split; vm_compute; reflexivity.
Qed.

(** A changed payload byte of an unformatted key is a signature mismatch. *)
Example changed_payload_is_bad_signature :
  validateLicenseKey toy 1700000000005
    (tamper_bytes 20 "A"%char (unformatted_key toy entropy0 "a@example.com" 1 None))
  = signature_error.
Proof.
  vm_compute. reflexivity.
Qed.

(** The activation token made by [createActivationToken] verifies. *)
Example activation_token_verifies :
  verifyActivationToken toy (createActivationToken toy 20 issued_key "H1")
  = {| token_valid := true;
       token_data :=
         Some (JObj [("licenseKey", JStr issued_key);
                     ("hardwareId", JStr "H1");
                     ("activatedAt", JNum 20 0)]);
       token_error := None |}.
Proof.
  vm_compute. reflexivity.
Qed.

(** The scenario of the specification, served one request after the other:
    H1 is activated, H2 is refused, H1 is deactivated, H2 is activated. *)
Example scenario :
  let db1 := snd (Licensing.activate toy 20 (activate_input "H1") (Some one_license)) in
  db1 = Some one_active
  /\ fst (Licensing.activate toy 30 (activate_input "H2") db1)
     = Thrown (Error "Maximum activations reached")
  /\ Invariant.activation_counts
       (snd (Licensing.deactivate 40 (deactivate_input "H1") db1)) = [0]
  /\ exists out db3,
       Licensing.activate toy 50 (activate_input "H2")
         (snd (Licensing.deactivate 40 (deactivate_input "H1") db1))
       = (Returned out, db3)
       /\ Licensing.success out = true
       /\ Invariant.activation_counts db3 = [1].
Proof.
  cbv zeta. split; [vm_compute; reflexivity|].
  split; [vm_compute; reflexivity|].
  split; [vm_compute; reflexivity|].
  eexists. eexists. split; [vm_compute; reflexivity|].
  split; vm_compute; reflexivity.
Qed.

(** Every key being the same string, the [unique] column refuses the
    second license. *)
Example second_issuance_is_refused :
  fst (Licensing.generate toy entropy0 11
         {| Licensing.g_email := "b@example.com"; Licensing.g_maxActivations := 3;
            Licensing.g_expiresInDays := Some 30; Licensing.g_purchaseId := None |}
         (Some one_license))
  = Thrown LicenseDb.duplicate_entry.
Proof.
  vm_compute. reflexivity.
Qed.

(** An expiry of a hundred million days is no [Date]: the insert throws
    and nothing is written; one day less is stored. *)
Example far_expiry_is_refused :
  Licensing.generate toy entropy0 10
    {| Licensing.g_email := "a@example.com"; Licensing.g_maxActivations := 1;
       Licensing.g_expiresInDays := Some 100000000; Licensing.g_purchaseId := None |}
    empty_db
  = (Thrown RangeError, empty_db)
  /\ fst (Licensing.generate toy entropy0 10
            {| Licensing.g_email := "a@example.com"; Licensing.g_maxActivations := 1;
               Licensing.g_expiresInDays := Some 99999999;
               Licensing.g_purchaseId := None |}
            empty_db)
     = Returned issued_key.
Proof.
  split; vm_compute; reflexivity.
Qed.

(** The expiry [1e-400] is the double 0, which is no expiry; the expiry
    [1699999999999.99999999999] is the double 1700000000000. *)
Example expiry_is_a_double :
  is_expired toy 1700000000000 (Some (JNum 1 (-400))) = false
  /\ is_expired toy 1700000000000 (Some (JNum 169999999999999999999999 (-11))) = false
  /\ is_expired toy 1700000000001 (Some (JNum 169999999999999999999999 (-11))) = true
  /\ is_expired toy 1700000000000 (Some (JNum 16999999999995 (-1))) = true.
Proof.
  repeat split; vm_compute; reflexivity.
Qed.

End ModelChecks.

(** * The claims *)

Import Chars JSON LicenseGenerator LicenseDb Licensing Invariant Interleaving.
Import Samples GeneratorFacts TamperFacts StoreFacts RouterFacts.
Import InterleavingFacts SampleFacts.

(** C1.  Validating the key string returned by issuance does not succeed:
    for every owner email, ceiling, expiry, clock reading, nonce and key
    pair, [generateLicenseKey] returns a string that [validateLicenseKey]
    answers with "Invalid license key format".  The grouping into blocks
    is not reversible: the issued string without its dashes does not
    decode, and it is not the encoding of the payload and the signature. *)
Theorem C1_issued_key_is_rejected :
  forall P en email maxActivations expiresInDays now,
    let key := generateLicenseKey P en email maxActivations expiresInDays in
    validateLicenseKey P now key = format_error
    /\ decode_license P key = Thrown SyntaxError
    /\ remove_dashes key <> unformatted_key P en email maxActivations expiresInDays.
Proof.
  intros P en email maxActivations expiresInDays now key.
  unfold key. rewrite generateLicenseKey_constant.
  split; [apply validate_issued_key|].
  split; [apply decode_issued_key|].
  intros H. apply (f_equal (String.get 0)) in H. lazy in H. discriminate H.
Qed.

(** C2, the claim refuted: the key that issuance hands out fails the
    cryptographic validation, and [activate] accepts it and writes to the
    store. *)
Lemma C2_counterexample :
  valid (validateLicenseKey toy 20 (licenseKey (activate_input "H1"))) = false
  /\ exists out,
       activate toy 20 (activate_input "H1") (Some one_license)
       = (Returned out, Some one_active)
       /\ success out = true
       /\ Some one_active <> Some one_license.
Proof.
  split; [vm_compute; reflexivity|].
  eexists. split; [vm_compute; reflexivity|].
  split; [reflexivity|discriminate].
Qed.

(** C2, amended.  [activate] runs no cryptographic validation.  Its first
    step is the lookup of the key in the store, and what it answers and
    writes is given by the store alone: "License not found" without a
    license under the key, "License is ..." for a license that is not
    active, and for an active license the answer [alreadyActivated], the
    error "Maximum activations reached" or a new activation.  So a key
    that fails [validateLicenseKey], as every issued key does, is
    activated when the store holds an active license with a free seat
    under it.  It is the [validate] procedure that validates first and
    answers without reading the store when validation fails. *)
Theorem C2_activate_gated_by_store :
  forall P now input db,
    (fst (getLicenseByKey (licenseKey input) db) = Returned None ->
     activate P now input db = (Thrown (Error "License not found"), db))
    /\ (forall l,
          fst (getLicenseByKey (licenseKey input) db) = Returned (Some l) ->
          License.is_active (License.status l) = false ->
          activate P now input db
          = (Thrown (Error ("License is "
                              ++ License.status_name (License.status l))%string), db))
    /\ (forall t l,
          db = Some t ->
          find (key_is (licenseKey input)) (licenses t) = Some l ->
          License.is_active (License.status l) = true ->
          activate P now input db
          = match find (active_on (License.id l) (hardwareId input))
                    (activations t) with
            | Some a =>
                (Returned already,
                 Some (update_where_id (Activation.set_lastSeenAt now)
                         (Activation.id a) t))
            | None =>
                if License.maxActivations l <=? License.currentActivations l
                then (Thrown (Error "Maximum activations reached"), db)
                else
                  (Returned
                     {| success := true; alreadyActivated := false;
                        activationToken :=
                          Some (createActivationToken P now (licenseKey input)
                                  (hardwareId input)) |},
                   Some (add_to_count 1 now (License.id l)
                           (insert_activation now (new_activation l input) t)))
            end)
    /\ (forall P' en email maxActivations expiresInDays t l,
          licenseKey input
          = generateLicenseKey P' en email maxActivations expiresInDays ->
          db = Some t ->
          find (key_is (licenseKey input)) (licenses t) = Some l ->
          License.is_active (License.status l) = true ->
          find (active_on (License.id l) (hardwareId input)) (activations t) = None ->
          License.currentActivations l < License.maxActivations l ->
          valid (validateLicenseKey P now (licenseKey input)) = false
          /\ exists out db',
               activate P now input db = (Returned out, db')
               /\ success out = true
               /\ db' <> db)
    /\ (valid (validateLicenseKey P now (licenseKey input)) = false ->
        validate P now (licenseKey input) db
        = (Returned {| v_valid := false;
                       v_error := error (validateLicenseKey P now (licenseKey input));
                       v_license := None |}, db)).
Proof.
  intros P now input db.
  assert (Hactive :
            forall t l,
              db = Some t ->
              find (key_is (licenseKey input)) (licenses t) = Some l ->
              License.is_active (License.status l) = true ->
              activate P now input db
              = match find (active_on (License.id l) (hardwareId input))
                        (activations t) with
                | Some a =>
                    (Returned already,
                     Some (update_where_id (Activation.set_lastSeenAt now)
                             (Activation.id a) t))
                | None =>
                    if License.maxActivations l <=? License.currentActivations l
                    then (Thrown (Error "Maximum activations reached"), db)
                    else
                      (Returned
                         {| success := true; alreadyActivated := false;
                            activationToken :=
                              Some (createActivationToken P now (licenseKey input)
                                      (hardwareId input)) |},
                       Some (add_to_count 1 now (License.id l)
                               (insert_activation now (new_activation l input) t)))
                end).
  { intros t l -> Hl Hs.
    unfold activate, bind, getLicenseByKey, getActivationByHardwareId.
    cbn [fst snd]. rewrite Hl, Hs. cbn [negb].
    destruct (find (active_on (License.id l) (hardwareId input)) (activations t));
      [reflexivity|].
    destruct (License.maxActivations l <=? License.currentActivations l);
      reflexivity. }
  split; [apply activate_not_found|].
  split; [intros l; apply activate_not_active|].
  split; [exact Hactive|].
  split.
  - intros P' en email maxActivations expiresInDays t l Hk Hdb Hl Hs Hnone Hfree.
    split.
    + rewrite Hk, generateLicenseKey_constant, validate_issued_key. reflexivity.
    + rewrite (Hactive t l Hdb Hl Hs), Hnone.
      destruct (Z.leb_spec (License.maxActivations l) (License.currentActivations l))
        as [Hle|_]; [lia|].
      eexists. eexists. split; [reflexivity|]. split; [reflexivity|].
      rewrite Hdb. intros H. injection H as H.
      apply (f_equal (fun x => List.length (activations x))) in H.
      cbn in H. rewrite length_app in H. cbn in H. lia.
  - intros H. unfold validate. rewrite H. reflexivity.
Qed.

(** C2 at work: the issued key, which fails validation, is activated on the
    store that holds its license. *)
Lemma C2_witness :
  valid (validateLicenseKey toy 20 (licenseKey (activate_input "H1"))) = false
  /\ exists out db',
       activate toy 20 (activate_input "H1") (Some one_license) = (Returned out, db')
       /\ success out = true
       /\ db' <> Some one_license.
Proof.
  apply (proj1 (proj2 (proj2 (proj2
           (C2_activate_gated_by_store toy 20 (activate_input "H1")
              (Some one_license)))))
           toy entropy0 "a@example.com" 1 None one_license (license1 0 10)).
  - vm_compute. reflexivity.
  - reflexivity.
  - reflexivity.
  - reflexivity.
  - reflexivity.
  - cbn. lia.
Defined.

(** C3.  The check and the increment of [activate] are separate awaited
    operations and [incrementActivationCount] is unconditional.  For a
    license with one free slot, two calls that take their steps in turn
    both succeed, and [currentActivations] ends one above
    [maxActivations]. *)
Theorem C3_interleaved_calls_exceed_ceiling :
  forall P t l now1 now2 in1 in2,
    find (key_is (licenseKey in1)) (licenses t) = Some l ->
    licenseKey in2 = licenseKey in1 ->
    License.is_active (License.status l) = true ->
    find (active_on (License.id l) (hardwareId in1)) (activations t) = None ->
    find (active_on (License.id l) (hardwareId in2)) (activations t) = None ->
    License.currentActivations l + 1 = License.maxActivations l ->
    exists calls t' l',
      run_schedule P alternating [start now1 in1; start now2 in2] (Some t)
      = (calls, Some t')
      /\ forallb succeeded calls = true
      /\ find (key_is (licenseKey in1)) (licenses t') = Some l'
      /\ License.currentActivations l' = License.maxActivations l' + 1.
Proof.
  intros P t l now1 now2 in1 in2 Hl Hk Hs H1 H2 Hfree.
  destruct (both_pass_the_check P t l now1 now2 in1 in2 Hl Hk Hs H1 H2)
    as (calls & Hrun & Hall); [lia|].
  destruct (count_after_two_increments now1 now2 (licenseKey in1) l
              (insert_activation now2 (new_activation l in2)
                 (insert_activation now1 (new_activation l in1) t)) Hl)
    as (l' & Hl' & Hcur & Hmax).
  exists calls. eexists. exists l'.
  split; [exact Hrun|]. split; [exact Hall|]. split; [exact Hl'|]. lia.
Qed.

(** C3 at work: H1 and H2 on the license that allows one machine. *)
Lemma C3_witness :
  exists calls t' l',
    run_schedule toy alternating two_calls (Some one_license) = (calls, Some t')
    /\ forallb succeeded calls = true
    /\ find (key_is issued_key) (licenses t') = Some l'
    /\ License.currentActivations l' = License.maxActivations l' + 1.
Proof.
  apply (C3_interleaved_calls_exceed_ceiling toy one_license (license1 0 10)
           20 21 (activate_input "H1") (activate_input "H2"));
    reflexivity.
Defined.

(** C4, the claim refuted: issuance accepts a negative ceiling, and the
    license it stores breaks [0 <= currentActivations <= maxActivations]. *)
Lemma C4_counterexample :
  db_ok empty_db
  /\ ~ db_ok (snd (generate toy entropy0 10 (generate_input (-1)) empty_db)).
Proof.
  split; [apply empty_ok|].
  intros [_ Hc]. vm_compute in Hc.
  inversion Hc as [|? ? [_ [_ Hle]] _]. apply Hle. reflexivity.
Qed.

(** C4, amended.  Run one after the other, [activate] and [deactivate]
    preserve, for every license, [0 <= currentActivations <=
    maxActivations] and the equality of [currentActivations] with the
    number of activation records in active state; so [deactivate] never
    takes [currentActivations] below 0.  Issuance preserves it when
    [maxActivations >= 0], which it does not check. *)
Theorem C4_invariant_preserved :
  forall P en now db (g : GenerateInput) (a : ActivateInput) (d : DeactivateInput),
    db_ok db ->
    db_ok (snd (activate P now a db))
    /\ db_ok (snd (deactivate now d db))
    /\ (0 <= g_maxActivations g -> db_ok (snd (generate P en now g db))).
Proof.
  intros P en now db g a d Hok. split; [|split].
  - apply activate_preserves. exact Hok.
  - apply deactivate_preserves. exact Hok.
  - intros Hmax. apply generate_preserves; assumption.
Qed.

(** C4 at work: three requests on the store that holds one activation. *)
Lemma C4_witness :
  db_ok (Some one_active)
  /\ db_ok (snd (activate toy 30 (activate_input "H2") (Some one_active)))
  /\ db_ok (snd (deactivate 30 (deactivate_input "H1") (Some one_active)))
  /\ (0 <= g_maxActivations (generate_input 3) ->
      db_ok (snd (generate toy entropy0 30 (generate_input 3) (Some one_active)))).
Proof.
  assert (H : db_ok (Some one_active)) by solve_store_ok.
  split; [exact H|].
  apply (C4_invariant_preserved toy entropy0 30 (Some one_active)
           (generate_input 3) (activate_input "H2") (deactivate_input "H1")).
  exact H.
Defined.

(** C5.  A 0-day expiry is not reported as expired.  [expiresInDays ? ... :
    null] takes the number 0 for an absent argument, so the payload of a
    0-day license and the key made from it are those of a license without
    expiry, whose [expiresAt] is null and never makes the expiry check
    true; the issued key is answered with the format error at every time. *)
Theorem C5_zero_day_expiry_is_no_expiry :
  forall P en email maxActivations now,
    build_payload en email maxActivations (Some 0)
    = build_payload en email maxActivations None
    /\ expiresAt (build_payload en email maxActivations (Some 0)) = None
    /\ unformatted_key P en email maxActivations (Some 0)
       = unformatted_key P en email maxActivations None
    /\ is_expired P now (Some JNull) = false
    /\ validateLicenseKey P now (generateLicenseKey P en email maxActivations (Some 0))
       = format_error
    /\ validateLicenseKey P now (generateLicenseKey P en email maxActivations None)
       = format_error.
Proof.
  intros P en email maxActivations now.
  rewrite !generateLicenseKey_constant.
  repeat split; try reflexivity; apply validate_issued_key.
Qed.

(** C6.  Activating the same license and hardware twice in sequence is
    idempotent: when the first call succeeds the second succeeds too,
    answers [alreadyActivated], and leaves every [currentActivations] as
    the first call left it; a store with at most one active record per
    pair keeps that property through both calls. *)
Theorem C6_reactivation_idempotent :
  forall P now1 now2 input db out1 db1,
    activate P now1 input db = (Returned out1, db1) ->
    success out1 = true
    /\ (exists out2 db2,
          activate P now2 input db1 = (Returned out2, db2)
          /\ success out2 = true
          /\ alreadyActivated out2 = true
          /\ activation_counts db2 = activation_counts db1)
    /\ (one_active_per_pair db ->
        one_active_per_pair db1
        /\ one_active_per_pair (snd (activate P now2 input db1))).
Proof.
  intros P now1 now2 input db out1 db1 H.
  split; [eapply activate_returned_success; exact H|].
  split.
  - destruct (activate_again P now1 now2 input db out1 db1 H) as (db2 & H2 & Hc).
    exists already, db2. repeat split; assumption.
  - intros Hp.
    assert (Hp1 : one_active_per_pair db1).
    { replace db1 with (snd (activate P now1 input db)) by (rewrite H; reflexivity).
      apply activate_pairs. exact Hp. }
    split; [exact Hp1|]. apply activate_pairs. exact Hp1.
Qed.

(** C6 at work: H1 activated twice on the license that allows one machine. *)
Lemma C6_witness :
  success first_output = true
  /\ (exists out2 db2,
        activate toy 30 (activate_input "H1") (Some one_active) = (Returned out2, db2)
        /\ success out2 = true
        /\ alreadyActivated out2 = true
        /\ activation_counts db2 = activation_counts (Some one_active))
  /\ (one_active_per_pair (Some one_license) ->
      one_active_per_pair (Some one_active)
      /\ one_active_per_pair
           (snd (activate toy 30 (activate_input "H1") (Some one_active)))).
Proof.
  apply (C6_reactivation_idempotent toy 20 30 (activate_input "H1")
           (Some one_license) first_output (Some one_active)).
  vm_compute. reflexivity.
Defined.




(** C8.  Tampering with an issued key is never answered with "Invalid
    signature".  The key that [generateLicenseKey] returns keeps 20
    characters of the encoding, so its decoding already throws before any
    byte is changed, and so does the decoding of every key made from it
    by replacing one byte of its decoded form or one character of its
    re-encoded form: all of them get "Invalid license key format", the
    answer that differs from the signature error, and the signature is
    never checked. *)
Theorem C8_tampering_never_reaches_the_signature :
  forall P en email maxActivations expiresInDays now i b,
    let key := generateLicenseKey P en email maxActivations expiresInDays in
    decode_license P key = Thrown SyntaxError
    /\ validateLicenseKey P now key = format_error
    /\ decode_license P (tamper_bytes i b key) = Thrown SyntaxError
    /\ validateLicenseKey P now (tamper_bytes i b key) = format_error
    /\ decode_license P (tamper_text i b key) = Thrown SyntaxError
    /\ validateLicenseKey P now (tamper_text i b key) = format_error
    /\ error format_error <> error signature_error.
Proof.
  intros P en email maxActivations expiresInDays now i b key.
  subst key. rewrite generateLicenseKey_constant.
  split; [apply decode_issued_key|].
  split; [apply validate_issued_key|].
  split; [apply tamper_bytes_issued|].
  split; [apply (validate_decode_thrown P now _ _ (tamper_bytes_issued P i b))|].
  split; [apply tamper_text_issued|].
  split; [apply (validate_decode_thrown P now _ _ (tamper_text_issued P i b))|].
  discriminate.
Qed.

(** C9.  A call of [activate] or [deactivate] that fails leaves the store
    as it was, and fails with one of "License not found", "License is
    expired", "License is revoked", "Maximum activations reached",
    "Activation not found"; the answer [alreadyActivated] is a success. *)
Theorem C9_failures_leave_the_store :
  forall P now (a : ActivateInput) (d : DeactivateInput) db,
    (forall e db', activate P now a db = (Thrown e, db') ->
                   db' = db /\ activate_rejection e)
    /\ (forall e db', deactivate now d db = (Thrown e, db') ->
                      db' = db /\ deactivate_rejection e)
    /\ (forall out db', activate P now a db = (Returned out, db') ->
                        success out = true).
Proof.
  intros P now a d db. split; [|split].
  - intros e db'. apply activate_thrown.
  - intros e db'. apply deactivate_thrown.
  - intros out db'. apply activate_returned_success.
Qed.

(** C9 at work: H2 refused on the license whose only slot is taken. *)
Lemma C9_witness :
  Some one_active = Some one_active
  /\ activate_rejection (Error "Maximum activations reached").
Proof.
  apply (proj1 (C9_failures_leave_the_store toy 30 (activate_input "H2")
                  (deactivate_input "H2") (Some one_active))
           (Error "Maximum activations reached") (Some one_active)).
  reflexivity.
Defined.

(** C10.  [validateLicenseKey] and [verifyActivationToken] return a result
    object for every input string.  Whatever the [try] block throws, a
    failure of decoding or parsing included, is caught and answered with
    [valid = false] and the format message; a result with [valid = false]
    carries an error message and no payload; a result with [valid = true]
    carries the value parsed from the decoded string, whose signature
    verified. *)
Theorem C10_validation_is_total :
  forall P now key token,
    match validate_body P now key with
    | Thrown _ => validateLicenseKey P now key = format_error
    | Returned r => validateLicenseKey P now key = r
    end
    /\ (if valid (validateLicenseKey P now key)
        then exists payloadString signature p,
               decode_license P key = Returned (payloadString, signature)
               /\ verify P (Utf8.bytes payloadString) signature = Returned true
               /\ parse payloadString = Returned p
               /\ payload (validateLicenseKey P now key) = Some p
               /\ error (validateLicenseKey P now key) = None
        else payload (validateLicenseKey P now key) = None
             /\ exists message, error (validateLicenseKey P now key) = Some message)
    /\ ((forall e,
           parse (Utf8.toString (Base64.decode (remove_dashes key))) = Thrown e ->
           validateLicenseKey P now key = format_error)
        /\ (forall e, decode_license P key = Thrown e ->
                      validateLicenseKey P now key = format_error)
        /\ (forall payloadString signature e,
              decode_license P key = Returned (payloadString, signature) ->
              verify P (Utf8.bytes payloadString) signature = Returned true ->
              parse payloadString = Thrown e ->
              validateLicenseKey P now key = format_error))
    /\ match verify_token_body P token with
       | Thrown _ => verifyActivationToken P token = token_format_error
       | Returned r => verifyActivationToken P token = r
       end
    /\ (if token_valid (verifyActivationToken P token)
        then exists tokenData d dataBytes s signature data,
               parse (Utf8.toString (Base64.decode token)) = Returned tokenData
               /\ get "data" tokenData = Returned d
               /\ buffer_from P d = Returned dataBytes
               /\ get "signature" tokenData = Returned s
               /\ buffer_from P s = Returned signature
               /\ verify P (Utf8.bytes (Utf8.toString dataBytes)) signature
                  = Returned true
               /\ parse (Utf8.toString dataBytes) = Returned data
               /\ token_data (verifyActivationToken P token) = Some data
               /\ token_error (verifyActivationToken P token) = None
        else token_data (verifyActivationToken P token) = None
             /\ exists message,
                  token_error (verifyActivationToken P token) = Some message)
    /\ ((forall e,
           parse (Utf8.toString (Base64.decode token)) = Thrown e ->
           verifyActivationToken P token = token_format_error)
        /\ (forall tokenData d e,
              parse (Utf8.toString (Base64.decode token)) = Returned tokenData ->
              get "data" tokenData = Returned d ->
              buffer_from P d = Thrown e ->
              verifyActivationToken P token = token_format_error)
        /\ (forall tokenData d dataBytes s signature e,
              parse (Utf8.toString (Base64.decode token)) = Returned tokenData ->
              get "data" tokenData = Returned d ->
              buffer_from P d = Returned dataBytes ->
              get "signature" tokenData = Returned s ->
              buffer_from P s = Returned signature ->
              verify P (Utf8.bytes (Utf8.toString dataBytes)) signature
              = Returned true ->
              parse (Utf8.toString dataBytes) = Thrown e ->
              verifyActivationToken P token = token_format_error)).
Proof.
  intros P now key token. split; [apply validateLicenseKey_cases|].
  split; [|split; [|split; [|split]]].
  - unfold validateLicenseKey, validate_body, try_catch, obind.
    destruct (decode_license P key) as [[ps sg]|e]; cbn; [|eauto].
    destruct (verify P (Utf8.bytes ps) sg) as [[|]|e] eqn:Hv; cbn; [|eauto|eauto].
    destruct (parse ps) as [p|e] eqn:Hp; cbn; [|eauto].
    destruct (get "expiresAt" p) as [x|e]; cbn; [|eauto].
    destruct (is_expired P now x); cbn; [eauto|].
    exists ps, sg, p. auto.
  - split; [|split].
    + intros e H. unfold validateLicenseKey, validate_body, decode_license.
      cbv zeta. rewrite H. reflexivity.
    + intros e H. exact (validate_decode_thrown P now key e H).
    + intros ps sg e Hd Hv Hp.
      unfold validateLicenseKey, validate_body. rewrite Hd. cbn [obind].
      rewrite Hv. cbn [obind negb]. rewrite Hp. reflexivity.
  - unfold verifyActivationToken.
    destruct (verify_token_body P token); reflexivity.
  - unfold verifyActivationToken, verify_token_body, try_catch, obind.
    destruct (parse (Utf8.toString (Base64.decode token))) as [td|e] eqn:Hp; cbn;
      [|eauto].
    destruct (get "data" td) as [d|e] eqn:Hd; cbn; [|eauto].
    destruct (buffer_from P d) as [dbuf|e] eqn:Hb; cbn; [|eauto].
    destruct (get "signature" td) as [s|e] eqn:Hs; cbn; [|eauto].
    destruct (buffer_from P s) as [sg|e] eqn:Hsb; cbn; [|eauto].
    destruct (verify P (Utf8.bytes (Utf8.toString dbuf)) sg) as [[|]|e] eqn:Hv; cbn;
      [|eauto|eauto].
    destruct (parse (Utf8.toString dbuf)) as [data|e] eqn:Hpd; cbn; [|eauto].
    exists td, d, dbuf, s, sg, data. repeat split; assumption.
  - split; [|split].
    + intros e H. unfold verifyActivationToken, verify_token_body.
      rewrite H. reflexivity.
    + intros td d e Hp Hd Hb. unfold verifyActivationToken, verify_token_body.
      rewrite Hp. cbn [obind]. rewrite Hd. cbn [obind]. rewrite Hb. reflexivity.
    + intros td d dbuf s sg e Hp Hd Hb Hs Hsb Hv Hpd.
      unfold verifyActivationToken, verify_token_body.
      rewrite Hp. cbn [obind]. rewrite Hd. cbn [obind]. rewrite Hb. cbn [obind].
      rewrite Hs. cbn [obind]. rewrite Hsb. cbn [obind]. rewrite Hv.
      cbn [obind negb]. rewrite Hpd. reflexivity.
Qed.

(** C10 at work: the token of the first activation is answered with
    [valid = true] and the data that were signed. *)
Lemma C10_witness :
  exists tokenData d dataBytes s signature data,
    parse (Utf8.toString
             (Base64.decode (createActivationToken toy 20 issued_key "H1")))
    = Returned tokenData
    /\ get "data" tokenData = Returned d
    /\ buffer_from toy d = Returned dataBytes
    /\ get "signature" tokenData = Returned s
    /\ buffer_from toy s = Returned signature
    /\ verify toy (Utf8.bytes (Utf8.toString dataBytes)) signature = Returned true
    /\ parse (Utf8.toString dataBytes) = Returned data
    /\ token_data
         (verifyActivationToken toy (createActivationToken toy 20 issued_key "H1"))
       = Some data
    /\ token_error
         (verifyActivationToken toy (createActivationToken toy 20 issued_key "H1"))
       = None.
Proof.
  exact (proj1 (proj2 (proj2 (proj2 (proj2
           (C10_validation_is_total toy 0 issued_key
              (createActivationToken toy 20 issued_key "H1"))))))).
Defined.

(** * Further properties of the store and of the router *)

Module MoreStoreFacts.
Import LicenseDb Licensing Invariant Admin Queries Observations.
Import StoreFacts RouterFacts HistoryFacts.

#[local] Arguments pair_count : simpl never.



Lemma restatus_key status now lid k l :
  key_is k (restatus status now lid l) = key_is k l.
Proof.
  unfold restatus, key_is. destruct (License.id l =? lid); reflexivity.
Qed.

Lemma restatus_id status now lid l :
  License.id (restatus status now lid l) = License.id l.
Proof.
  unfold restatus. destruct (License.id l =? lid); reflexivity.
Qed.

Lemma restatus_count status now lid l :
  License.currentActivations (restatus status now lid l) = License.currentActivations l.
Proof.
  unfold restatus. destruct (License.id l =? lid); reflexivity.
Qed.

Lemma restatus_core status now lid l :
  license_core (restatus status now lid l) = license_core l.
Proof.
  unfold restatus. destruct (License.id l =? lid); reflexivity.
Qed.

Lemma bump_core delta now lid l : license_core (bump delta now lid l) = license_core l.
Proof.
  unfold bump. destruct (License.id l =? lid); reflexivity.
Qed.

Lemma bump_licenseKey delta now lid l :
  License.licenseKey (bump delta now lid l) = License.licenseKey l.
Proof.
  unfold bump. destruct (License.id l =? lid); reflexivity.
Qed.

Lemma update_core f aid a :
  (forall x, activation_core (f x) = activation_core x) ->
  activation_core (update_activation f aid a) = activation_core a.
Proof.
  intros Hf. unfold update_activation.
  destruct (Activation.id a =? aid); [apply Hf|reflexivity].
Qed.

Lemma pair_count_zero_find lid hw acts :
  pair_count lid hw acts = 0%nat -> find (active_on lid hw) acts = None.
Proof.
  unfold pair_count. induction acts as [|x acts IH]; cbn; [reflexivity|].
  destruct (active_on lid hw x); cbn; [discriminate|exact IH].
Qed.

Lemma pair_count_deactivate_strict lid hw a acts :
  In a acts -> active_on lid hw a = true ->
  (pair_count lid hw
     (map (update_activation (Activation.set_status Activation.deactivated)
             (Activation.id a)) acts)
   < pair_count lid hw acts)%nat.
Proof.
  intros Hin Hon.
  assert (Hoff : forall x,
             active_on lid hw (Activation.set_status Activation.deactivated x) = false).
  { intros x. unfold active_on. cbn. apply andb_false_r. }
  induction acts as [|x acts IH]; [contradiction|].
  pose proof (pair_count_deactivate lid hw (Activation.id a) acts) as Hle.
  unfold pair_count in *. cbn [map filter].
  destruct Hin as [->|Hin].
  - unfold update_activation at 1. rewrite Z.eqb_refl, Hoff, Hon.
    cbn [List.length]. lia.
  - specialize (IH Hin). unfold update_activation at 1.
    destruct (Activation.id x =? Activation.id a).
    + rewrite Hoff. destruct (active_on lid hw x); cbn [List.length]; lia.
    + destruct (active_on lid hw x); cbn [List.length]; lia.
Qed.

End MoreStoreFacts.

(** * Further properties *)

Import Admin Queries Observations MoreStoreFacts HistoryFacts.

#[local] Arguments pair_count : simpl never.



(** X2.  The keys stay unique.  A store whose license keys are pairwise
    different keeps that property through [createLicense], [generate],
    [activate], [deactivate] and [updateLicenseStatus]; [createLicense]
    refuses a key that is present and leaves the store as it is. *)
Theorem X2_license_keys_stay_unique :
  forall P en now ins g a d lid status db,
    unique_keys db ->
    unique_keys (snd (createLicense now ins db))
    /\ unique_keys (snd (generate P en now g db))
    /\ unique_keys (snd (activate P now a db))
    /\ unique_keys (snd (deactivate now d db))
    /\ unique_keys (snd (updateLicenseStatus now lid status db))
    /\ (forall t, db = Some t ->
          existsb (key_is (License.new_licenseKey ins)) (licenses t) = true ->
          createLicense now ins db = (Thrown duplicate_entry, db)).
Proof.
  intros P en now ins g a d lid status db Hu.
  assert (Hcreate : forall ins', unique_keys (snd (createLicense now ins' db))).
  { intros ins'. destruct db as [t|]; [|exact I]. unfold createLicense.
    destruct (existsb (key_is (License.new_licenseKey ins')) (licenses t)) eqn:Hex;
      cbn [snd]; [exact Hu|].
    cbn. rewrite map_app. cbn. apply NoDup_app.
    - exact Hu.
    - constructor; [intros []|constructor].
    - intros k Hk [E|[]]. subst k.
      apply in_map_iff in Hk. destruct Hk as (l & El & Hl).
      assert (Ht : existsb (key_is (License.new_licenseKey ins')) (licenses t) = true).
      { apply existsb_exists. exists l. split; [exact Hl|].
        unfold key_is. rewrite El. apply String.eqb_refl. }
      congruence. }
  assert (Hbump : forall delta n i t,
             map License.licenseKey (map (bump delta n i) (licenses t))
             = map License.licenseKey (licenses t)).
  { intros. rewrite map_map. apply map_ext. intros l. apply bump_licenseKey. }
  split; [apply Hcreate|]. split; [|split; [|split; [|split]]].
  - destruct (date_in_range (LicenseGenerator.expiry_of now (g_expiresInDays g)))
      eqn:Hd; [|rewrite generate_out_of_range by exact Hd; exact Hu].
    unfold generate, bind. cbv zeta. rewrite Hd.
    set (key := LicenseGenerator.generateLicenseKey P en _ _ _).
    match goal with |- context [createLicense now ?i] => specialize (Hcreate i) end.
    destruct (createLicense now _ db) as [[u|e] db']; exact Hcreate.
  - destruct db as [t|]; [|exact I].
    unfold activate, bind, getLicenseByKey. cbn.
    destruct (find (key_is (licenseKey a)) (licenses t)) as [l|]; cbn; [|exact Hu].
    destruct (License.is_active (License.status l)); cbn; [|exact Hu].
    destruct (find (active_on (License.id l) (hardwareId a)) (activations t));
      cbn; [exact Hu|].
    destruct (License.maxActivations l <=? License.currentActivations l); cbn;
      [exact Hu|].
    rewrite Hbump. exact Hu.
  - destruct db as [t|]; [|exact I].
    unfold deactivate, bind, getLicenseByKey. cbn.
    destruct (find (key_is (d_licenseKey d)) (licenses t)) as [l|]; cbn; [|exact Hu].
    destruct (find (active_on (License.id l) (d_hardwareId d)) (activations t));
      cbn; [|exact Hu].
    rewrite Hbump. exact Hu.
  - destruct db as [t|]; [|exact I]. cbn.
    rewrite map_map.
    rewrite (map_ext _ License.licenseKey); [exact Hu|].
    intros l. unfold restatus. destruct (License.id l =? lid); reflexivity.
  - intros t -> Hex. unfold createLicense. rewrite Hex. reflexivity.
Qed.

Lemma X2_witness :
  unique_keys (snd (createLicense 30 (License.Build_insert Samples.issued_key
                      "b@example.com" None 3 0 None License.active)
                      (Some Samples.one_active)))
  /\ unique_keys (snd (generate LicenseGenerator.toy Samples.entropy0 30
                         (Samples.generate_input 3) (Some Samples.one_active)))
  /\ unique_keys (snd (activate LicenseGenerator.toy 30 (Samples.activate_input "H2")
                         (Some Samples.one_active)))
  /\ unique_keys (snd (deactivate 30 (Samples.deactivate_input "H1")
                         (Some Samples.one_active)))
  /\ unique_keys (snd (updateLicenseStatus 30 1 License.revoked
                         (Some Samples.one_active)))
  /\ (forall t, Some Samples.one_active = Some t ->
        existsb (key_is (License.new_licenseKey
                           (License.Build_insert Samples.issued_key "b@example.com"
                              None 3 0 None License.active))) (licenses t) = true ->
        createLicense 30 (License.Build_insert Samples.issued_key "b@example.com"
                            None 3 0 None License.active) (Some Samples.one_active)
        = (Thrown duplicate_entry, Some Samples.one_active)).
Proof.
  apply (X2_license_keys_stay_unique LicenseGenerator.toy Samples.entropy0 30).
  cbn. constructor; [intros []|constructor].
Defined.

(** X3.  An increment followed by a decrement of the same license gives
    every counter its value back, on every store. *)
Theorem X3_increment_then_decrement :
  forall now1 now2 licenseId db,
    activation_counts
      (snd (decrementActivationCount now2 licenseId
              (snd (incrementActivationCount now1 licenseId db))))
    = activation_counts db.
Proof.
  intros now1 now2 lid [t|]; [|reflexivity]. cbn.
  rewrite !map_map. apply map_ext. intros l.
  unfold bump. destruct (Z.eqb_spec (License.id l) lid) as [E|E]; cbn.
  - rewrite E, Z.eqb_refl. cbn. lia.
  - destruct (Z.eqb_spec (License.id l) lid); [contradiction|reflexivity].
Qed.

(** X4.  The [info] query agrees with the counter.  On a store that keeps
    the counting invariant, [info] reads without writing, and the list of
    machines it returns has as many entries as the [currentActivations] it
    reports, which lies between 0 and the reported [maxActivations]. *)
Theorem X4_info_agrees_with_counter :
  forall key db out db',
    db_ok db ->
    info key db = (Returned out, db') ->
    db' = db
    /\ Z.of_nat (List.length (o_activations out)) = o_currentActivations out
    /\ 0 <= o_currentActivations out <= o_maxActivations out.
Proof.
  intros key [t|] out db' Hok; unfold info, bind, getLicenseByKey; cbn;
    [|discriminate].
  destruct (find (key_is key) (licenses t)) as [l|] eqn:Hl; cbn; [|discriminate].
  intros H. injection H as <- <-. cbn.
  apply find_some in Hl. destruct Hl as [Hin _].
  destruct Hok as [_ Hc]. rewrite Forall_forall in Hc.
  destruct (Hc _ Hin) as [Hcnt Hb].
  split; [reflexivity|]. split; [|exact Hb].
  rewrite length_map. symmetry. exact Hcnt.
Qed.

Lemma X4_witness :
  Some Samples.one_active = Some Samples.one_active
  /\ Z.of_nat (List.length
                 (o_activations
                    (Build_InfoOutput "a@example.com" License.active 1 1 None 10
                       [machine_info Samples.activation1])))
     = 1
  /\ 0 <= 1 <= 1.
Proof.
  apply (X4_info_agrees_with_counter Samples.issued_key (Some Samples.one_active)
           (Build_InfoOutput "a@example.com" License.active 1 1 None 10
              [machine_info Samples.activation1])
           (Some Samples.one_active)).
  - SampleFacts.solve_store_ok.
  - reflexivity.
Defined.

(** X5.  A license whose status was set to revoked or expired is refused
    by [activate]: the call throws "License is revoked" (or "License is
    expired") and writes nothing; setting the status changes no counter
    and no activation record. *)
Theorem X5_revoked_license_is_refused :
  forall P now now' input t l status,
    find (key_is (licenseKey input)) (licenses t) = Some l ->
    License.is_active status = false ->
    exists t',
      updateLicenseStatus now (License.id l) status (Some t) = (Returned tt, Some t')
      /\ activate P now' input (Some t')
         = (Thrown (Error ("License is " ++ License.status_name status)%string), Some t')
      /\ activations t' = activations t
      /\ activation_counts (Some t') = activation_counts (Some t).
Proof.
  intros P now now' input t l status Hl Hs.
  eexists. split; [reflexivity|]. split; [|split].
  - assert (Hf : fst (getLicenseByKey (licenseKey input)
                        (Some (with_licenses
                                 (map (restatus status now (License.id l)) (licenses t)) t)))
                 = Returned (Some (restatus status now (License.id l) l))).
    { cbn. rewrite find_map_same by (intros x; apply restatus_key).
      rewrite Hl. reflexivity. }
    rewrite (activate_not_active P now' input _ _ Hf).
    + unfold restatus. rewrite Z.eqb_refl. reflexivity.
    + unfold restatus. rewrite Z.eqb_refl. exact Hs.
  - reflexivity.
  - cbn. rewrite map_map. apply map_ext. intros x. apply restatus_count.
Qed.

Lemma X5_witness :
  exists t',
    updateLicenseStatus 30 1 License.revoked (Some Samples.one_active)
    = (Returned tt, Some t')
    /\ activate LicenseGenerator.toy 31 (Samples.activate_input "H2") (Some t')
       = (Thrown (Error "License is revoked"), Some t')
    /\ activations t' = activations Samples.one_active
    /\ activation_counts (Some t') = activation_counts (Some Samples.one_active).
Proof.
  apply (X5_revoked_license_is_refused LicenseGenerator.toy 30 31
           (Samples.activate_input "H2") Samples.one_active (Samples.license1 1 20)
           License.revoked); reflexivity.
Defined.

(** X6.  [deactivate] never looks at the status of the license: after
    [updateLicenseStatus], with any status and for any license, it
    answers as it would have answered before. *)
Theorem X6_deactivate_ignores_status :
  forall now now' licenseId status input db,
    fst (deactivate now' input (snd (updateLicenseStatus now licenseId status db)))
    = fst (deactivate now' input db).
Proof.
  intros now now' lid status input [t|]; [|reflexivity].
  unfold deactivate, bind, getLicenseByKey. cbn.
  rewrite find_map_same by (intros x; apply restatus_key).
  destruct (find (key_is (d_licenseKey input)) (licenses t)) as [l|]; cbn;
    [|reflexivity].
  rewrite restatus_id.
  destruct (find (active_on (License.id l) (d_hardwareId input)) (activations t));
    reflexivity.
Qed.

(** X7.  Deactivation frees a slot.  On a store that keeps the counting
    invariant, a successful [deactivate] lowers the counter of the license
    by exactly one, and an [activate] that follows on the same active
    license succeeds for any hardware. *)
Theorem X7_deactivate_frees_a_slot :
  forall P now1 now2 d a t l db1,
    store_ok t ->
    find (key_is (d_licenseKey d)) (licenses t) = Some l ->
    License.is_active (License.status l) = true ->
    licenseKey a = d_licenseKey d ->
    deactivate now1 d (Some t) = (Returned true, db1) ->
    (exists l',
       fst (getLicenseByKey (d_licenseKey d) db1) = Returned (Some l')
       /\ License.currentActivations l' = License.currentActivations l - 1)
    /\ exists out db2,
         activate P now2 a db1 = (Returned out, db2) /\ success out = true.
Proof.
  intros P now1 now2 d a t l db1 Hok Hl Hs Hk.
  unfold deactivate, bind, getLicenseByKey. cbn. rewrite Hl. cbn.
  destruct (find (active_on (License.id l) (d_hardwareId d)) (activations t))
    as [act|] eqn:Hact; cbn; [|discriminate].
  intros H. injection H as <-.
  assert (Hfind : find (key_is (d_licenseKey d))
                    (map (bump (-1) now1 (License.id l)) (licenses t))
                  = Some (bump (-1) now1 (License.id l) l)).
  { rewrite find_map_same by (intros x; apply bump_key). rewrite Hl. reflexivity. }
  assert (Hcur : License.currentActivations (bump (-1) now1 (License.id l) l)
                 = License.currentActivations l - 1).
  { unfold bump. rewrite Z.eqb_refl. cbn. lia. }
  split.
  - eexists. split; [cbn; rewrite Hfind; reflexivity|exact Hcur].
  - apply find_some in Hl. destruct Hl as [Hin _].
    destruct Hok as [_ Hc]. rewrite Forall_forall in Hc.
    destruct (Hc _ Hin) as [_ Hb]. unfold bounded in Hb.
    unfold activate, bind, getLicenseByKey. cbn. rewrite Hk, Hfind. cbn.
    rewrite bump_status, Hs. cbn. rewrite bump_id.
    match goal with |- context [find (active_on (License.id l) (hardwareId a)) ?acts] =>
      destruct (find (active_on (License.id l) (hardwareId a)) acts) end; cbn.
    + eexists. eexists. split; reflexivity.
    + assert (Hlt : (License.maxActivations (bump (-1) now1 (License.id l) l)
                     <=? License.currentActivations (bump (-1) now1 (License.id l) l))
                    = false).
      { apply Z.leb_gt. rewrite Hcur. unfold bump. rewrite Z.eqb_refl. cbn. lia. }
      rewrite Hlt. cbn. eexists. eexists. split; reflexivity.
Qed.

Lemma X7_witness :
  (exists l',
     fst (getLicenseByKey Samples.issued_key
            (snd (deactivate 30 (Samples.deactivate_input "H1")
                    (Some Samples.one_active)))) = Returned (Some l')
     /\ License.currentActivations l' = 1 - 1)
  /\ exists out db2,
       activate LicenseGenerator.toy 40 (Samples.activate_input "H2")
         (snd (deactivate 30 (Samples.deactivate_input "H1") (Some Samples.one_active)))
       = (Returned out, db2)
       /\ success out = true.
Proof.
  apply (X7_deactivate_frees_a_slot LicenseGenerator.toy 30 40
           (Samples.deactivate_input "H1") (Samples.activate_input "H2")
           Samples.one_active (Samples.license1 1 20)).
  - SampleFacts.solve_store_ok.
  - reflexivity.
  - reflexivity.
  - reflexivity.
  - reflexivity.
Defined.

(** X8.  [deactivate] is not idempotent.  On a store with at most one
    active record per pair, a second [deactivate] with the same input
    after a successful one throws "Activation not found" and writes
    nothing. *)
Theorem X8_second_deactivate_is_refused :
  forall now1 now2 d db db1,
    one_active_per_pair db ->
    deactivate now1 d db = (Returned true, db1) ->
    deactivate now2 d db1 = (Thrown (Error "Activation not found"), db1).
Proof.
  intros now1 now2 d [t|] db1 Hone; unfold deactivate at 1;
    unfold bind, getLicenseByKey; cbn; [|discriminate].
  destruct (find (key_is (d_licenseKey d)) (licenses t)) as [l|] eqn:Hl; cbn;
    [|discriminate].
  destruct (find (active_on (License.id l) (d_hardwareId d)) (activations t))
    as [act|] eqn:Hact; cbn; [|discriminate].
  intros H. injection H as <-.
  unfold deactivate, bind, getLicenseByKey. cbn.
  rewrite find_map_same by (intros x; apply bump_key). rewrite Hl. cbn.
  rewrite bump_id.
  apply find_some in Hact. destruct Hact as [Hin Hon].
  pose proof (pair_count_deactivate_strict _ _ _ _ Hin Hon) as Hlt.
  specialize (Hone (License.id l) (d_hardwareId d)). cbn in Hone.
  rewrite pair_count_zero_find by lia. reflexivity.
Qed.

Lemma X8_witness :
  deactivate 40 (Samples.deactivate_input "H1")
    (snd (deactivate 30 (Samples.deactivate_input "H1") (Some Samples.one_active)))
  = (Thrown (Error "Activation not found"),
     snd (deactivate 30 (Samples.deactivate_input "H1") (Some Samples.one_active))).
Proof.
  apply (X8_second_deactivate_is_refused 30 40 (Samples.deactivate_input "H1")
           (Some Samples.one_active)).
  - intros lid hw. unfold pair_count. cbn.
    destruct (active_on lid hw Samples.activation1); cbn; lia.
  - reflexivity.
Defined.

(** X9.  Nothing is deleted or re-keyed.  [generate], [activate],
    [deactivate] and [updateLicenseStatus] keep every license row with its
    identifier, key, e-mail, purchase, ceiling, expiry and creation time,
    and every activation row with its identifier, license, hardware,
    machine name, system and activation time, in their order; new rows
    come after them. *)
Theorem X9_rows_are_never_deleted :
  forall P en now g a d lid status db,
    (exists more, license_cores (snd (generate P en now g db)) = license_cores db ++ more)
    /\ activation_cores (snd (generate P en now g db)) = activation_cores db
    /\ license_cores (snd (activate P now a db)) = license_cores db
    /\ (exists more,
          activation_cores (snd (activate P now a db)) = activation_cores db ++ more)
    /\ license_cores (snd (deactivate now d db)) = license_cores db
    /\ activation_cores (snd (deactivate now d db)) = activation_cores db
    /\ license_cores (snd (updateLicenseStatus now lid status db)) = license_cores db
    /\ activation_cores (snd (updateLicenseStatus now lid status db))
       = activation_cores db.
Proof.
  intros P en now g a d lid status db.
  assert (Hbump : forall delta n i ls,
             map license_core (map (bump delta n i) ls) = map license_core ls).
  { intros. rewrite map_map. apply map_ext. intros l. apply bump_core. }
  assert (Hupd : forall f i acts,
             (forall x, activation_core (f x) = activation_core x) ->
             map activation_core (map (update_activation f i) acts)
             = map activation_core acts).
  { intros f i acts Hf. rewrite map_map. apply map_ext. intros x.
    apply update_core. exact Hf. }
  destruct db as [t|].
  - split; [|split; [|split; [|split; [|split; [|split; [|split]]]]]].
    + rewrite generate_result.
      destruct (date_in_range _);
        [destruct (existsb (key_is Samples.issued_key) (licenses t))|]; cbn [snd].
      * exists []. rewrite app_nil_r. reflexivity.
      * eexists. cbn. rewrite map_app. reflexivity.
      * exists []. rewrite app_nil_r. reflexivity.
    + rewrite generate_result.
      destruct (date_in_range _);
        [destruct (existsb (key_is Samples.issued_key) (licenses t))|]; reflexivity.
    + unfold activate, bind, getLicenseByKey. cbn.
      destruct (find (key_is (licenseKey a)) (licenses t)) as [l|]; cbn;
        [|reflexivity].
      destruct (License.is_active (License.status l)); cbn; [|reflexivity].
      destruct (find (active_on (License.id l) (hardwareId a)) (activations t));
        cbn; [reflexivity|].
      destruct (License.maxActivations l <=? License.currentActivations l); cbn;
        [reflexivity|apply Hbump].
    + unfold activate, bind, getLicenseByKey. cbn.
      destruct (find (key_is (licenseKey a)) (licenses t)) as [l|]; cbn;
        [|exists []; rewrite app_nil_r; reflexivity].
      destruct (License.is_active (License.status l)); cbn;
        [|exists []; rewrite app_nil_r; reflexivity].
      destruct (find (active_on (License.id l) (hardwareId a)) (activations t));
        cbn.
      * exists []. rewrite app_nil_r. apply Hupd. reflexivity.
      * destruct (License.maxActivations l <=? License.currentActivations l); cbn.
        -- exists []. rewrite app_nil_r. reflexivity.
        -- eexists. rewrite map_app. reflexivity.
    + unfold deactivate, bind, getLicenseByKey. cbn.
      destruct (find (key_is (d_licenseKey d)) (licenses t)) as [l|]; cbn;
        [|reflexivity].
      destruct (find (active_on (License.id l) (d_hardwareId d)) (activations t));
        cbn; [apply Hbump|reflexivity].
    + unfold deactivate, bind, getLicenseByKey. cbn.
      destruct (find (key_is (d_licenseKey d)) (licenses t)) as [l|]; cbn;
        [|reflexivity].
      destruct (find (active_on (License.id l) (d_hardwareId d)) (activations t));
        cbn; [apply Hupd; reflexivity|reflexivity].
    + cbn. rewrite map_map. apply map_ext. intros l. apply restatus_core.
    + reflexivity.
  - assert (Hg : snd (generate P en now g None) = None).
    { rewrite generate_result. reflexivity. }
    rewrite Hg. cbn [license_cores activation_cores].
    split; [exists []; reflexivity|].
    split; [reflexivity|]. split; [reflexivity|].
    split; [exists []; reflexivity|].
    repeat (split; [reflexivity|]). reflexivity.
Qed.



Module ValidateFacts.
Import LicenseGenerator.

Lemma invalid_has_error P now key :
  valid (validateLicenseKey P now key) = false ->
  exists message, error (validateLicenseKey P now key) = Some message.
Proof.
  unfold validateLicenseKey, validate_body, try_catch, obind.
  destruct (decode_license P key) as [[ps sg]|e]; cbn; [|eauto].
  destruct (verify P (Utf8.bytes ps) sg) as [[|]|e]; cbn; [|eauto|eauto].
  destruct (JSON.parse ps) as [p|e]; cbn; [|eauto].
  destruct (JSON.get "expiresAt" p) as [x|e]; cbn; [|eauto].
  destruct (is_expired P now x); cbn; [eauto|discriminate].
Qed.

End ValidateFacts.

(** X11.  The [validate] query never throws and never writes.  It answers
    [valid = true] only for a key that passes [validateLicenseKey] and
    that the store holds with status active, and then reports the fields
    of that license; otherwise it answers [valid = false] with a message.
    For the key of any issuance the answer is the format error. *)
Theorem X11_validate_query_is_sound :
  forall P now key db,
    exists out,
      validate P now key db = (Returned out, db)
      /\ (if v_valid out
          then LicenseGenerator.valid (LicenseGenerator.validateLicenseKey P now key) = true
               /\ exists l,
                    fst (getLicenseByKey key db) = Returned (Some l)
                    /\ License.is_active (License.status l) = true
                    /\ v_license out
                       = Some {| i_email := License.email l;
                                 i_maxActivations := License.maxActivations l;
                                 i_currentActivations := License.currentActivations l;
                                 i_expiresAt := License.expiresAt l |}
          else v_license out = None /\ exists message, v_error out = Some message)
      /\ forall P' en email maxActivations expiresInDays,
           key = LicenseGenerator.generateLicenseKey P' en email maxActivations
                   expiresInDays ->
           v_valid out = false /\ v_error out = Some "Invalid license key format".
Proof.
  intros P now key db. unfold validate.
  destruct (LicenseGenerator.valid (LicenseGenerator.validateLicenseKey P now key))
    eqn:Hv; cbn [negb].
  - assert (Hissued : forall P' en email maxActivations expiresInDays,
               key = LicenseGenerator.generateLicenseKey P' en email maxActivations
                       expiresInDays -> False).
    { intros P' en email m d E. rewrite generateLicenseKey_constant in E. subst key.
      rewrite validate_issued_key in Hv. discriminate Hv. }
    unfold bind, getLicenseByKey, ret. destruct db as [t|]; cbn [fst].
    + destruct (find (key_is key) (licenses t)) as [l|] eqn:Hl.
      * destruct (License.is_active (License.status l)) eqn:Hs; cbn [negb].
        -- eexists. split; [reflexivity|]. cbn [v_valid v_license v_error].
           split; [|intros P' en email m d E; destruct (Hissued _ _ _ _ _ E)].
           split; [reflexivity|]. exists l. auto.
        -- eexists. split; [reflexivity|]. cbn [v_valid v_license v_error].
           split; [eauto|intros P' en email m d E; destruct (Hissued _ _ _ _ _ E)].
      * eexists. split; [reflexivity|]. cbn [v_valid v_license v_error].
        split; [eauto|intros P' en email m d E; destruct (Hissued _ _ _ _ _ E)].
    + eexists. split; [reflexivity|]. cbn [v_valid v_license v_error].
      split; [eauto|intros P' en email m d E; destruct (Hissued _ _ _ _ _ E)].
  - eexists. split; [reflexivity|]. cbn [v_valid v_license v_error]. split.
    + split; [reflexivity|]. apply ValidateFacts.invalid_has_error. exact Hv.
    + intros P' en email m d E. rewrite generateLicenseKey_constant in E. subst key.
      rewrite validate_issued_key. split; reflexivity.
Qed.

Lemma X11_witness :
  exists out,
    validate LicenseGenerator.toy 20 Samples.issued_key (Some Samples.one_active)
    = (Returned out, Some Samples.one_active)
    /\ v_valid out = false.
Proof.
  destruct (X11_validate_query_is_sound LicenseGenerator.toy 20 Samples.issued_key
              (Some Samples.one_active)) as (out & Hrun & _ & Hissued).
  exists out. split; [exact Hrun|].
  apply (Hissued LicenseGenerator.toy Samples.entropy0 "a@example.com" 1 None).
  vm_compute. reflexivity.
Defined.

(** * Properties of the payment service *)

Module PaymentFacts.
Import PaymentService PaymentObservations.

Lemma payment_accepted P en now paymentIntent shop :
  existsb (key_is Samples.issued_key) (licenses (tables shop)) = false ->
  handlePaymentSuccess P en now paymentIntent (Some shop)
  = ({| success := true; licenseKey := Some Samples.issued_key; error := None;
        paymentId := id paymentIntent |},
     Some (paid now paymentIntent shop)).
Proof.
  intros Hex. unfold handlePaymentSuccess, payment_body, on_tables, createLicense.
  rewrite generateLicenseKey_constant. cbn [License.new_licenseKey].
  rewrite Hex. reflexivity.
Qed.

Lemma payment_refused P en now paymentIntent shop :
  existsb (key_is Samples.issued_key) (licenses (tables shop)) = true ->
  handlePaymentSuccess P en now paymentIntent (Some shop)
  = ({| success := false; licenseKey := None;
        error := Some "Failed to generate license: Error: Duplicate entry";
        paymentId := id paymentIntent |},
     Some shop).
Proof.
  intros Hex. unfold handlePaymentSuccess, payment_body, on_tables, createLicense.
  rewrite generateLicenseKey_constant. cbn [License.new_licenseKey].
  rewrite Hex. destruct shop. reflexivity.
Qed.

Lemma payment_unavailable P en now paymentIntent :
  handlePaymentSuccess P en now paymentIntent None
  = ({| success := false; licenseKey := None;
        error := Some "Failed to generate license: Error: Database not available";
        paymentId := id paymentIntent |},
     None).
Proof.
  unfold handlePaymentSuccess, payment_body, on_tables, createLicense.
  reflexivity.
Qed.

End PaymentFacts.

Module PaymentProperties.
Import PaymentService PaymentObservations PaymentFacts.

(** X12.  [handlePaymentSuccess] never throws.  It answers [success =
    true] exactly when the database is available and holds no license
    under the key of issuance; when it answers [success = false] the
    database is as before, no license key is returned and an error text
    is. *)
Theorem X12_payment_outcome :
  forall P en now paymentIntent db,
    (success (fst (handlePaymentSuccess P en now paymentIntent db)) = true
     <-> exists shop,
           db = Some shop
           /\ existsb (key_is Samples.issued_key) (licenses (tables shop)) = false)
    /\ (success (fst (handlePaymentSuccess P en now paymentIntent db)) = false ->
        snd (handlePaymentSuccess P en now paymentIntent db) = db
        /\ licenseKey (fst (handlePaymentSuccess P en now paymentIntent db)) = None
        /\ exists text,
             error (fst (handlePaymentSuccess P en now paymentIntent db)) = Some text).
Proof.
  intros P en now paymentIntent [shop|].
  - destruct (existsb (key_is Samples.issued_key) (licenses (tables shop))) eqn:Hex.
    + rewrite (payment_refused P en now paymentIntent shop Hex). cbn [fst snd success].
      split.
      * split; [discriminate|]. intros (shop' & E & Hex'). injection E as <-. congruence.
      * intros _. cbn. eauto.
    + rewrite (payment_accepted P en now paymentIntent shop Hex). cbn [fst snd success].
      split; [|discriminate]. split; [|reflexivity]. intros _. exists shop. auto.
  - rewrite payment_unavailable. cbn [fst snd success]. split.
    + split; [discriminate|]. intros (shop' & E & _). discriminate E.
    + intros _. cbn. eauto.
Qed.

Lemma X12_witness :
  snd (handlePaymentSuccess LicenseGenerator.toy Samples.entropy0 50
         (createStripePayment 49 "b@example.com" professional)
         (Some {| tables := Samples.one_license; purchases := [];
                  next_purchase_id := 1 |}))
  = Some {| tables := Samples.one_license; purchases := []; next_purchase_id := 1 |}
  /\ licenseKey
       (fst (handlePaymentSuccess LicenseGenerator.toy Samples.entropy0 50
               (createStripePayment 49 "b@example.com" professional)
               (Some {| tables := Samples.one_license; purchases := [];
                        next_purchase_id := 1 |}))) = None
  /\ exists text,
       error
         (fst (handlePaymentSuccess LicenseGenerator.toy Samples.entropy0 50
                 (createStripePayment 49 "b@example.com" professional)
                 (Some {| tables := Samples.one_license; purchases := [];
                          next_purchase_id := 1 |}))) = Some text.
Proof.
  apply (proj2 (X12_payment_outcome LicenseGenerator.toy Samples.entropy0 50
                  (createStripePayment 49 "b@example.com" professional)
                  (Some {| tables := Samples.one_license; purchases := [];
                           next_purchase_id := 1 |}))).
  vm_compute. reflexivity.
Defined.

(** X13.  After one served payment every later one fails.  When
    [handlePaymentSuccess] has answered [success = true], every further
    call, for any payment, answers [success = false] and leaves the
    database as it is: the key of the new license is the one already
    stored. *)
Theorem X13_later_payments_fail :
  forall P en now paymentIntent db P' en' now' paymentIntent',
    success (fst (handlePaymentSuccess P en now paymentIntent db)) = true ->
    success
      (fst (handlePaymentSuccess P' en' now' paymentIntent'
              (snd (handlePaymentSuccess P en now paymentIntent db)))) = false
    /\ snd (handlePaymentSuccess P' en' now' paymentIntent'
              (snd (handlePaymentSuccess P en now paymentIntent db)))
       = snd (handlePaymentSuccess P en now paymentIntent db).
Proof.
  intros P en now paymentIntent [shop|] P' en' now' paymentIntent'.
  - destruct (existsb (key_is Samples.issued_key) (licenses (tables shop))) eqn:Hex.
    + rewrite (payment_refused P en now paymentIntent shop Hex). discriminate.
    + rewrite (payment_accepted P en now paymentIntent shop Hex). intros _.
      cbn [fst snd].
      rewrite (payment_refused P' en' now' paymentIntent' (paid now paymentIntent shop)).
      * split; reflexivity.
      * cbn. rewrite existsb_app. cbn. apply orb_true_r.
  - rewrite payment_unavailable. discriminate.
Qed.

Lemma X13_witness :
  success
    (fst (handlePaymentSuccess LicenseGenerator.toy Samples.entropy0 60
            (createPayPalPayment 59 "c@example.com" enterprise)
            (snd (handlePaymentSuccess LicenseGenerator.toy Samples.entropy0 50
                    (createStripePayment 49 "b@example.com" basic)
                    (Some {| tables := Build_Tables [] [] 1 1; purchases := [];
                             next_purchase_id := 1 |}))))) = false
  /\ snd (handlePaymentSuccess LicenseGenerator.toy Samples.entropy0 60
            (createPayPalPayment 59 "c@example.com" enterprise)
            (snd (handlePaymentSuccess LicenseGenerator.toy Samples.entropy0 50
                    (createStripePayment 49 "b@example.com" basic)
                    (Some {| tables := Build_Tables [] [] 1 1; purchases := [];
                             next_purchase_id := 1 |}))))
     = snd (handlePaymentSuccess LicenseGenerator.toy Samples.entropy0 50
              (createStripePayment 49 "b@example.com" basic)
              (Some {| tables := Build_Tables [] [] 1 1; purchases := [];
                       next_purchase_id := 1 |})).
Proof.
  apply (X13_later_payments_fail LicenseGenerator.toy Samples.entropy0 50
           (createStripePayment 49 "b@example.com" basic)
           (Some {| tables := Build_Tables [] [] 1 1; purchases := [];
                    next_purchase_id := 1 |})).
  vm_compute. reflexivity.
Defined.

(** X14.  What a served payment records.  When [handlePaymentSuccess]
    answers [success = true] it has appended one license, with the ceiling
    of the tier (1, 3 or 10), no activation, no expiry, status active and
    the payment as its purchase, and one purchase with status completed,
    quantity 1, no completion time and the method read off the payment
    identifier; the counting invariant of the store is kept.  For a payment
    made by [createStripePayment] the method is "stripe", for one made by
    [createPayPalPayment] it is "paypal", and both carry the same amount
    in cents. *)
Theorem X14_served_payment_records :
  forall P en now paymentIntent shop,
    existsb (key_is Samples.issued_key) (licenses (tables shop)) = false ->
    snd (handlePaymentSuccess P en now paymentIntent (Some shop))
    = Some (paid now paymentIntent shop)
    /\ licenses (tables (paid now paymentIntent shop))
       = licenses (tables shop)
         ++ [license_row now (next_license_id (tables shop))
               (license_of now paymentIntent)]
    /\ 1 <= License.new_maxActivations (license_of now paymentIntent) <= 10
    /\ (Invariant.store_ok (tables shop) ->
        Invariant.store_ok (tables (paid now paymentIntent shop)))
    /\ forall now0 e t,
         (paymentIntent = createStripePayment now0 e t ->
          purchase_paymentMethod
            (purchase_of now (next_purchase_id shop) paymentIntent) = Some "stripe")
         /\ (paymentIntent = createPayPalPayment now0 e t ->
             purchase_paymentMethod
               (purchase_of now (next_purchase_id shop) paymentIntent) = Some "paypal")
         /\ amount (createStripePayment now0 e t) = amount (createPayPalPayment now0 e t).
Proof.
  intros P en now paymentIntent shop Hex.
  split; [rewrite (payment_accepted P en now paymentIntent shop Hex); reflexivity|].
  split; [reflexivity|]. split.
  - cbn. destruct (tier paymentIntent); cbn; lia.
  - split.
    + intros Hok. cbn [paid tables]. apply insert_license_ok; [exact Hok|reflexivity|].
      cbn. destruct (tier paymentIntent); cbn; lia.
    + intros now0 e t. split; [|split].
      * intros ->. unfold purchase_of, payment_method, createStripePayment.
        cbn [id purchase_paymentMethod]. vm_compute. reflexivity.
      * intros ->. unfold purchase_of, payment_method, createPayPalPayment.
        cbn [id purchase_paymentMethod]. vm_compute. reflexivity.
      * destruct t; reflexivity.
Qed.

Lemma X14_witness :
  snd (handlePaymentSuccess LicenseGenerator.toy Samples.entropy0 50
         (createStripePayment 49 "b@example.com" professional)
         (Some {| tables := Build_Tables [] [] 1 1; purchases := [];
                  next_purchase_id := 1 |}))
  = Some (paid 50 (createStripePayment 49 "b@example.com" professional)
            {| tables := Build_Tables [] [] 1 1; purchases := [];
               next_purchase_id := 1 |}).
Proof.
  apply (X14_served_payment_records LicenseGenerator.toy Samples.entropy0 50
           (createStripePayment 49 "b@example.com" professional)
           {| tables := Build_Tables [] [] 1 1; purchases := [];
              next_purchase_id := 1 |}).
  reflexivity.
Defined.

End PaymentProperties.

(** * Further properties of interleaved calls *)

Module MoreInterleavingFacts.
Import Interleaving InterleavingFacts.

Lemma both_deactivate t l a now1 now2 (input : DeactivateInput) :
  find (key_is (d_licenseKey input)) (licenses t) = Some l ->
  find (active_on (License.id l) (d_hardwareId input)) (activations t) = Some a ->
  run_two_deactivations Samples.alternating2 now1 now2 input
    DBeforeLookup DBeforeLookup (Some t)
  = (DFinished (Returned true), DFinished (Returned true),
     Some (add_to_count (-1) now2 (License.id l)
             (add_to_count (-1) now1 (License.id l)
                (update_where_id (Activation.set_status Activation.deactivated)
                   (Activation.id a)
                   (update_where_id (Activation.set_status Activation.deactivated)
                      (Activation.id a) t))))).
Proof.
  intros Hl Ha. unfold Samples.alternating2.
  cbn [run_two_deactivations deactivate_step getLicenseByKey].
  rewrite Hl.
  cbn [run_two_deactivations deactivate_step getLicenseByKey].
  rewrite Hl.
  cbn [run_two_deactivations deactivate_step getActivationByHardwareId].
  rewrite Ha.
  cbn [run_two_deactivations deactivate_step getActivationByHardwareId].
  rewrite Ha.
  reflexivity.
Qed.

Lemma deactivate_twice_same aid acts :
  map (update_activation (Activation.set_status Activation.deactivated) aid)
    (map (update_activation (Activation.set_status Activation.deactivated) aid) acts)
  = map (update_activation (Activation.set_status Activation.deactivated) aid) acts.
Proof.
  rewrite map_map. apply map_ext. intros x. unfold update_activation.
  destruct (Activation.id x =? aid) eqn:E; cbn; rewrite E; reflexivity.
Qed.

End MoreInterleavingFacts.

Import Interleaving InterleavingFacts MoreInterleavingFacts.

(** X15.  Interleaved, two calls of [activate] for the same license and
    the same hardware both take the new-activation branch: both succeed
    and the pair ends with two records in active state. *)
Theorem X15_interleaved_calls_duplicate_a_pair :
  forall P t l now1 now2 in1 in2,
    find (key_is (licenseKey in1)) (licenses t) = Some l ->
    licenseKey in2 = licenseKey in1 ->
    hardwareId in2 = hardwareId in1 ->
    License.is_active (License.status l) = true ->
    find (active_on (License.id l) (hardwareId in1)) (activations t) = None ->
    License.currentActivations l < License.maxActivations l ->
    exists calls t',
      run_schedule P Samples.alternating [start now1 in1; start now2 in2] (Some t)
      = (calls, Some t')
      /\ forallb succeeded calls = true
      /\ pair_count (License.id l) (hardwareId in1) (activations t') = 2%nat.
Proof.
  intros P t l now1 now2 in1 in2 Hl Hk Hh Hs Hnone Hlt.
  assert (Hnone2 : find (active_on (License.id l) (hardwareId in2)) (activations t) = None)
    by (rewrite Hh; exact Hnone).
  destruct (both_pass_the_check P t l now1 now2 in1 in2 Hl Hk Hs Hnone Hnone2 Hlt)
    as (calls & Hrun & Hall).
  exists calls. eexists. split; [exact Hrun|]. split; [exact Hall|].
  cbn [add_to_count with_licenses insert_activation activations].
  rewrite !pair_count_snoc, (pair_count_none _ _ _ Hnone).
  unfold active_on, activation_row, new_activation. cbn.
  rewrite Hh, Z.eqb_refl, String.eqb_refl. reflexivity.
Qed.

Lemma X15_witness :
  exists calls t',
    run_schedule LicenseGenerator.toy Samples.alternating
      [start 20 (Samples.activate_input "H1"); start 21 (Samples.activate_input "H1")]
      (Some Samples.one_license)
    = (calls, Some t')
    /\ forallb succeeded calls = true
    /\ pair_count 1 "H1" (activations t') = 2%nat.
Proof.
  apply (X15_interleaved_calls_duplicate_a_pair LicenseGenerator.toy
           Samples.one_license (Samples.license1 0 10)
           20 21 (Samples.activate_input "H1") (Samples.activate_input "H1"));
    reflexivity.
Defined.

(** X16.  Interleaved, two calls of [deactivate] for the same active
    record both succeed: one record is deactivated and the counter is
    decremented twice, so on a store that kept the counting invariant the
    counter ends one below the number of active records, and below 0 when
    it was 1. *)
Theorem X16_interleaved_deactivations_decrement_twice :
  forall t l a now1 now2 input,
    store_ok t ->
    find (key_is (d_licenseKey input)) (licenses t) = Some l ->
    find (active_on (License.id l) (d_hardwareId input)) (activations t) = Some a ->
    exists t' l',
      run_two_deactivations Samples.alternating2 now1 now2 input
        DBeforeLookup DBeforeLookup (Some t)
      = (DFinished (Returned true), DFinished (Returned true), Some t')
      /\ find (key_is (d_licenseKey input)) (licenses t') = Some l'
      /\ License.currentActivations l' = License.currentActivations l - 2
      /\ active_count (License.id l) (activations t') = License.currentActivations l - 1.
Proof.
  intros t l a now1 now2 input Hok Hl Ha.
  eexists. exists (bump (-1) now2 (License.id l) (bump (-1) now1 (License.id l) l)).
  split; [apply (both_deactivate t l a now1 now2 input Hl Ha)|].
  split; [|split].
  - cbn. rewrite !find_map_same by (intros x; apply bump_key). rewrite Hl. reflexivity.
  - unfold bump at 2. rewrite Z.eqb_refl.
    unfold bump. cbn [License.id License.set_count]. rewrite Z.eqb_refl.
    cbn [License.currentActivations License.set_count]. lia.
  - cbn [add_to_count with_licenses update_where_id with_activations activations].
    rewrite deactivate_twice_same.
    apply find_active_on in Ha. destruct Ha as (Hin & Hlid & _ & Hact).
    destruct Hok as [[_ Hnd _ _ _] Hc].
    rewrite (active_count_deactivate _ _ _ Hnd Hin Hact), Hlid, Z.eqb_refl.
    apply find_some in Hl. destruct Hl as [Hl _].
    rewrite Forall_forall in Hc. destruct (Hc _ Hl) as [Hcnt _].
    unfold counted in Hcnt. lia.
Qed.

Lemma X16_witness :
  exists t' l',
    run_two_deactivations Samples.alternating2 30 31 (Samples.deactivate_input "H1")
      DBeforeLookup DBeforeLookup (Some Samples.one_active)
    = (DFinished (Returned true), DFinished (Returned true), Some t')
    /\ find (key_is Samples.issued_key) (licenses t') = Some l'
    /\ License.currentActivations l' = 1 - 2
    /\ active_count 1 (activations t') = 1 - 1.
Proof.
  apply (X16_interleaved_deactivations_decrement_twice Samples.one_active
           (Samples.license1 1 20) Samples.activation1 30 31
           (Samples.deactivate_input "H1")).
  - SampleFacts.solve_store_ok.
  - reflexivity.
  - reflexivity.
Defined.

(** * Properties of the format of a key *)

Module FormatFacts.
Import Chars LicenseGenerator Observations.

Lemma sfilter_app p a b : sfilter p (a ++ b) = (sfilter p a ++ sfilter p b)%string.
Proof.
  induction a as [|c a IH]; cbn; [reflexivity|].
  destruct (p c); cbn; rewrite IH; reflexivity.
Qed.

Lemma sfilter_all p s : sall p s = true -> sfilter p s = s.
Proof.
  induction s as [|c s IH]; cbn; [reflexivity|].
  intros H. apply andb_true_iff in H. destruct H as [Hc Hs].
  rewrite Hc, IH; auto.
Qed.

Lemma sfilter_idem p s : sfilter p (sfilter p s) = sfilter p s.
Proof.
  induction s as [|c s IH]; cbn; [reflexivity|].
  destruct (p c) eqn:Hc; cbn; [rewrite Hc, IH; reflexivity|exact IH].
Qed.

Lemma sall_sfilter p s : sall p (sfilter p s) = true.
Proof.
  induction s as [|c s IH]; cbn; [reflexivity|].
  destruct (p c) eqn:Hc; cbn; [rewrite Hc; exact IH|exact IH].
Qed.

Lemma sall_app p a b : sall p (a ++ b) = sall p a && sall p b.
Proof.
  induction a as [|c a IH]; cbn; [reflexivity|].
  rewrite IH. apply andb_assoc.
Qed.

Lemma sall_stake p n s : sall p s = true -> sall p (stake n s) = true.
Proof.
  revert s. induction n as [|n IH]; intros [|c s]; cbn; auto.
  intros H. apply andb_true_iff in H. destruct H as [Hc Hs].
  rewrite Hc. cbn. auto.
Qed.

Lemma sall_sdrop p n s : sall p s = true -> sall p (sdrop n s) = true.
Proof.
  revert s. induction n as [|n IH]; intros [|c s]; cbn; auto.
  intros H. apply andb_true_iff in H. destruct H as [_ Hs]. auto.
Qed.

Lemma sall_impl (p q : ascii -> bool) s :
  (forall c, p c = true -> q c = true) -> sall p s = true -> sall q s = true.
Proof.
  intros Hpq. induction s as [|c s IH]; cbn; [reflexivity|].
  intros H. apply andb_true_iff in H. destruct H as [Hc Hs].
  rewrite (Hpq _ Hc). cbn. auto.
Qed.

Lemma length_stake n s : (String.length (stake n s) <= n)%nat.
Proof.
  revert s. induction n as [|n IH]; intros [|c s]; cbn; try lia.
  specialize (IH s). lia.
Qed.

Lemma length_stake_full n s :
  (n <= String.length s)%nat -> String.length (stake n s) = n.
Proof.
  revert s. induction n as [|n IH]; intros [|c s]; cbn; try lia.
  intros H. rewrite IH; lia.
Qed.

Lemma stake_all n s : (String.length s <= n)%nat -> stake n s = s.
Proof.
  revert s. induction n as [|n IH]; intros [|c s]; cbn; try lia; try reflexivity.
  intros H. rewrite IH; [reflexivity|lia].
Qed.

Lemma stake_app n a b :
  (n <= String.length a)%nat -> stake n (a ++ b) = stake n a.
Proof.
  revert a. induction n as [|n IH]; intros [|c a]; cbn; intros H;
    try lia; try reflexivity.
  rewrite IH; [reflexivity|lia].
Qed.

Lemma stake_sdrop n s : (stake n s ++ sdrop n s)%string = s.
Proof.
  revert s. induction n as [|n IH]; intros [|c s]; cbn; try reflexivity.
  rewrite IH. reflexivity.
Qed.

Lemma sdrop_all n s : (String.length s <= n)%nat -> sdrop n s = EmptyString.
Proof.
  revert s. induction n as [|n IH]; intros [|c s]; cbn; try lia; try reflexivity.
  intros H. apply IH. lia.
Qed.

Lemma sdrop_add n m s : sdrop m (sdrop n s) = sdrop (n + m) s.
Proof.
  revert s. induction n as [|n IH]; intros s; cbn.
  - destruct s; reflexivity.
  - destruct s as [|c s]; [destruct m; reflexivity|apply IH].
Qed.

Lemma smap_app f a b : smap f (a ++ b) = (smap f a ++ smap f b)%string.
Proof.
  induction a as [|c a IH]; cbn; [reflexivity|]. rewrite IH. reflexivity.
Qed.

Lemma smap_fixed f s :
  sall (fun c => Ascii.eqb (f c) c) s = true -> smap f s = s.
Proof.
  induction s as [|c s IH]; cbn; [reflexivity|].
  intros H. apply andb_true_iff in H. destruct H as [Hc Hs].
  apply Ascii.eqb_eq in Hc. rewrite Hc, IH; auto.
Qed.

Lemma length_sfilter_app p a b :
  String.length (sfilter p (a ++ b))
  = (String.length (sfilter p a) + String.length (sfilter p b))%nat.
Proof.
  rewrite sfilter_app. induction (sfilter p a) as [|c s IH]; cbn; [reflexivity|].
  rewrite IH. reflexivity.
Qed.

Lemma length_smap f s : String.length (smap f s) = String.length s.
Proof.
  induction s as [|c s IH]; cbn; [reflexivity|]. rewrite IH. reflexivity.
Qed.

(** The loop cuts the text into consecutive pieces. *)
Lemma flat_format_parts fuel i s :
  (String.length s - i <= fuel)%nat -> flat (format_parts fuel i s) = sdrop i s.
Proof.
  revert i. induction fuel as [|fuel IH]; intros i H; cbn [format_parts].
  - cbn. symmetry. apply sdrop_all. lia.
  - destruct (Nat.ltb_spec i (String.length s)) as [Hlt|Hge].
    + cbn [flat]. rewrite IH by lia. unfold slice.
      replace (i + 5 - i)%nat with 5%nat by lia.
      rewrite <- sdrop_add. apply stake_sdrop.
    + cbn. symmetry. apply sdrop_all. exact Hge.
Qed.

Lemma sall_format_parts p fuel i s :
  sall p s = true -> Forall (fun part => sall p part = true) (format_parts fuel i s).
Proof.
  intros Hs. revert i. induction fuel as [|fuel IH]; intros i; cbn [format_parts].
  - constructor.
  - destruct (Nat.ltb i (String.length s)); constructor; [|apply IH].
    unfold slice. apply sall_stake, sall_sdrop. exact Hs.
Qed.

(** Filtering the joined blocks with a test that the separator fails. *)
Lemma sfilter_join p parts :
  p "-"%char = false ->
  sfilter p (join "-" parts) = sfilter p (flat parts).
Proof.
  intros Hsep. induction parts as [|a parts IH]; [reflexivity|].
  destruct parts as [|b parts].
  - cbn. rewrite sfilter_app. cbn.
    induction (sfilter p a) as [|c s IHs]; cbn; [reflexivity|].
    rewrite <- IHs. reflexivity.
  - change (join "-" (a :: b :: parts))
      with (a ++ "-" ++ join "-" (b :: parts))%string.
    change (flat (a :: b :: parts)) with (a ++ flat (b :: parts))%string.
    rewrite !sfilter_app, IH. cbn [sfilter]. rewrite Hsep. reflexivity.
Qed.

Lemma sall_join p parts :
  p "-"%char = true ->
  Forall (fun part => sall p part = true) parts ->
  sall p (join "-" parts) = true.
Proof.
  intros Hsep Hall. induction Hall as [|a parts Ha Hrest IH]; [reflexivity|].
  destruct parts as [|b parts]; [exact Ha|].
  change (join "-" (a :: b :: parts))
    with (a ++ "-" ++ join "-" (b :: parts))%string.
  rewrite !sall_app, Ha, IH. cbn. rewrite Hsep. reflexivity.
Qed.

Lemma upper_of_alnum c : is_alnum c = true -> block_char (upper c) = true.
Proof.
  destruct c as [[] [] [] [] [] [] [] []]; vm_compute; intros H;
    first [reflexivity | discriminate H].
Qed.

Lemma block_char_facts c :
  block_char c = true ->
  is_alnum c = true /\ Ascii.eqb (upper c) c = true
  /\ negb (Ascii.eqb c "-"%char) = true /\ key_char c = true.
Proof.
  destruct c as [[] [] [] [] [] [] [] []]; vm_compute; intros H;
    first [discriminate H | repeat split].
Qed.

(** The text that [formatLicenseKey] cuts into blocks. *)
Lemma cleaned_blocks key :
  sall block_char (stake 20 (smap upper (sfilter is_alnum key))) = true.
Proof.
  apply sall_stake. induction key as [|c key IH]; cbn; [reflexivity|].
  destruct (is_alnum c) eqn:Hc; cbn; [|exact IH].
  rewrite (upper_of_alnum c Hc). exact IH.
Qed.

Lemma flat_cleaned s :
  flat (format_parts (String.length s) 0 s) = s.
Proof.
  rewrite flat_format_parts by lia. destruct s; reflexivity.
Qed.

Lemma length_join_short s :
  (String.length s <= 20)%nat ->
  (String.length (join "-" (format_parts (String.length s) 0 s)) <= 23)%nat.
Proof.
  intros H.
  do 21 (destruct s as [|? s]; [cbn; lia|]).
  cbn in H. lia.
Qed.

End FormatFacts.

Import FormatFacts.

(** X17.  What [formatLicenseKey] keeps.  Without its dashes the formatted
    key is the first 20 letters and digits of the input in upper case; the
    formatted key holds upper-case letters, digits and dashes only and is
    at most 23 characters long. *)
Theorem X17_formatLicenseKey_shape :
  forall key,
    remove_dashes (formatLicenseKey key)
    = Chars.stake 20 (Chars.smap Chars.upper (Chars.sfilter Chars.is_alnum key))
    /\ sall key_char (formatLicenseKey key) = true
    /\ (String.length (formatLicenseKey key) <= 23)%nat.
Proof.
  intros key. unfold formatLicenseKey.
  set (cleaned := Chars.stake 20 (Chars.smap Chars.upper (Chars.sfilter Chars.is_alnum key))).
  pose proof (cleaned_blocks key) as Hb. fold cleaned in Hb.
  split; [|split].
  - unfold remove_dashes. rewrite sfilter_join by reflexivity.
    rewrite flat_cleaned. apply sfilter_all.
    eapply sall_impl; [|exact Hb]. intros c Hc. apply (block_char_facts c Hc).
  - apply sall_join; [reflexivity|].
    apply sall_format_parts. eapply sall_impl; [|exact Hb].
    intros c Hc. apply (block_char_facts c Hc).
  - apply length_join_short. apply length_stake.
Qed.

(** X18.  [formatLicenseKey] is idempotent: formatting a formatted key
    gives it back. *)
Theorem X18_formatLicenseKey_idempotent :
  forall key, formatLicenseKey (formatLicenseKey key) = formatLicenseKey key.
Proof.
  intros key. unfold formatLicenseKey at 1 3.
  set (cleaned := Chars.stake 20 (Chars.smap Chars.upper (Chars.sfilter Chars.is_alnum key))).
  pose proof (cleaned_blocks key) as Hb. fold cleaned in Hb.
  assert (Hlen : (String.length cleaned <= 20)%nat) by apply length_stake.
  unfold formatLicenseKey.
  rewrite sfilter_join by reflexivity. rewrite flat_cleaned. fold cleaned.
  rewrite (sfilter_all Chars.is_alnum cleaned)
    by (eapply sall_impl; [|exact Hb]; intros c Hc; apply (block_char_facts c Hc)).
  rewrite (smap_fixed Chars.upper cleaned)
    by (eapply sall_impl; [|exact Hb]; intros c Hc; apply (block_char_facts c Hc)).
  rewrite (stake_all 20 cleaned Hlen). reflexivity.
Qed.

(** X19.  The pattern XXXXX-XXXXX-XXXXX-XXXXX.  For an input with at least
    20 letters and digits the formatted key is four blocks of five
    upper-case letters or digits joined by dashes, and whatever follows
    the input is ignored. *)
Theorem X19_formatLicenseKey_blocks :
  forall key,
    (20 <= String.length (Chars.sfilter Chars.is_alnum key))%nat ->
    (exists a b c d,
       formatLicenseKey key = (a ++ "-" ++ b ++ "-" ++ c ++ "-" ++ d)%string
       /\ String.length a = 5%nat /\ String.length b = 5%nat
       /\ String.length c = 5%nat /\ String.length d = 5%nat
       /\ sall block_char (a ++ b ++ c ++ d) = true)
    /\ forall more, formatLicenseKey (key ++ more) = formatLicenseKey key.
Proof.
  intros key Hlen. split.
  - pose proof (cleaned_blocks key) as Hb.
    assert (H20 : String.length
                    (Chars.stake 20
                       (Chars.smap Chars.upper (Chars.sfilter Chars.is_alnum key)))
                  = 20%nat)
      by (apply length_stake_full; rewrite length_smap; exact Hlen).
    unfold formatLicenseKey.
    destruct (Chars.stake 20 (Chars.smap Chars.upper (Chars.sfilter Chars.is_alnum key)))
      as [|c1 [|c2 [|c3 [|c4 [|c5 [|c6 [|c7 [|c8 [|c9 [|c10 [|c11 [|c12 [|c13 [|c14
          [|c15 [|c16 [|c17 [|c18 [|c19 [|c20 [|c21 rest]]]]]]]]]]]]]]]]]]]]];
      try discriminate H20.
    exists (String c1 (String c2 (String c3 (String c4 (String c5 EmptyString))))),
           (String c6 (String c7 (String c8 (String c9 (String c10 EmptyString))))),
           (String c11 (String c12 (String c13 (String c14 (String c15 EmptyString))))),
           (String c16 (String c17 (String c18 (String c19 (String c20 EmptyString))))).
    split; [reflexivity|]. repeat (split; [reflexivity|]). exact Hb.
  - intros more. unfold formatLicenseKey.
    assert (E : Chars.stake 20
                  (Chars.smap Chars.upper (Chars.sfilter Chars.is_alnum (key ++ more)))
                = Chars.stake 20
                    (Chars.smap Chars.upper (Chars.sfilter Chars.is_alnum key))).
    { rewrite sfilter_app, smap_app. apply stake_app.
      rewrite length_smap. exact Hlen. }
    rewrite E. reflexivity.
Qed.

Lemma X19_witness :
  (exists a b c d,
     formatLicenseKey "abcde-fghij/klmno+pqrstuvwxyz"
     = (a ++ "-" ++ b ++ "-" ++ c ++ "-" ++ d)%string
     /\ String.length a = 5%nat /\ String.length b = 5%nat
     /\ String.length c = 5%nat /\ String.length d = 5%nat
     /\ sall block_char (a ++ b ++ c ++ d) = true)
  /\ forall more,
       formatLicenseKey ("abcde-fghij/klmno+pqrstuvwxyz" ++ more)
       = formatLicenseKey "abcde-fghij/klmno+pqrstuvwxyz".
Proof.
  apply (X19_formatLicenseKey_blocks "abcde-fghij/klmno+pqrstuvwxyz").
  vm_compute. lia.
Defined.

(** X20.  Dashes are ignored by validation: a key and the same key with
    dashes removed, added or moved get the same answer from
    [validateLicenseKey]. *)
Theorem X20_validation_ignores_dashes :
  forall P now key key',
    remove_dashes key = remove_dashes key' ->
    validateLicenseKey P now key = validateLicenseKey P now key'.
Proof.
  intros P now key key' H.
  unfold validateLicenseKey, validate_body, decode_license. rewrite H. reflexivity.
Qed.

Lemma X20_witness :
  validateLicenseKey toy 100 "EYJWY-XLSB2-FKIJO-IZXLK"
  = validateLicenseKey toy 100 "EYJ-WYXLSB2FKIJOIZXLK--".
Proof.
  apply (X20_validation_ignores_dashes toy 100). vm_compute. reflexivity.
Defined.

Module ExpiryFacts.

Lemma gt_decimal_mono n n' m e :
  n <= n' -> JSON.gt_decimal n m e = true -> JSON.gt_decimal n' m e = true.
Proof.
  unfold JSON.gt_decimal. intros Hle.
  destruct (0 <=? e); [intros H; apply Z.ltb_lt in H; apply Z.ltb_lt; lia|].
  destruct (m =? 0); [intros H; apply Z.ltb_lt in H; apply Z.ltb_lt; lia|].
  destruct (2 ^ 53 * 10 ^ (- e) <=? Z.abs m).
  - intros H. apply Z.ltb_lt in H. apply Z.ltb_lt.
    assert (0 <= 10 ^ (- e)) by (apply Z.pow_nonneg; lia). nia.
  - destruct (JSON.nearest_double (Z.abs m) (10 ^ (- e))) as [mant s].
    intros H. apply Z.ltb_lt in H. apply Z.ltb_lt.
    assert (0 <= 2 ^ s) by (apply Z.pow_nonneg; lia). nia.
Qed.

(** The pair of [nearest_double] is within half a unit of the last place
    of the quotient. *)
Lemma nearest_double_half_ulp a b :
  0 < b ->
  2 * Z.abs (a * 2 ^ snd (JSON.nearest_double a b)
             - fst (JSON.nearest_double a b) * b) <= b.
Proof.
  intros Hb. unfold JSON.nearest_double. cbv zeta. cbn [fst snd].
  set (s := Z.min (52 - JSON.floor_log2 a b) 1074).
  set (n := a * 2 ^ s).
  pose proof (Z.div_mod n b ltac:(lia)) as Hdiv.
  pose proof (Z.mod_pos_bound n b Hb) as Hmod.
  destruct (Z.ltb_spec b (2 * (n mod b))) as [H1|H1]; cbn [orb].
  - nia.
  - destruct (Z.eqb_spec b (2 * (n mod b))) as [H2|H2]; cbn [andb].
    + destruct (Z.odd (n / b)); nia.
    + nia.
Qed.

Lemma later_than_mono P n n' v :
  n <= n' -> later_than P n v = true -> later_than P n' v = true.
Proof.
  intros Hle. unfold later_than.
  destruct v as [[| [|] | m e | s | items | members]|]; intros H;
    try (apply Z.ltb_lt in H; apply Z.ltb_lt; lia);
    try discriminate H;
    try (eapply gt_decimal_mono; eassumption).
  - destruct (to_number P (JSON.JStr s)) as [[m e]|]; [|discriminate H].
    eapply gt_decimal_mono; eassumption.
  - destruct (to_number P (JSON.JArr items)) as [[m e]|]; [|discriminate H].
    eapply gt_decimal_mono; eassumption.
  - destruct (to_number P (JSON.JObj members)) as [[m e]|]; [|discriminate H].
    eapply gt_decimal_mono; eassumption.
Qed.

Lemma is_expired_mono P n n' v :
  n <= n' -> is_expired P n v = true -> is_expired P n' v = true.
Proof.
  intros Hle. unfold is_expired. intros H.
  apply andb_true_iff in H. destruct H as [Ht Hl].
  rewrite Ht. cbn. eapply later_than_mono; eassumption.
Qed.

End ExpiryFacts.

(** X21.  Expiry is final.  A key that [validateLicenseKey] accepts at
    some time was accepted, with the same payload, at every earlier time;
    a key answered "License expired" is answered so at every later time. *)
Theorem X21_expiry_is_final :
  forall P now now' key,
    now <= now' ->
    (valid (validateLicenseKey P now' key) = true ->
     validateLicenseKey P now key = validateLicenseKey P now' key)
    /\ (error (validateLicenseKey P now key) = Some "License expired" ->
        error (validateLicenseKey P now' key) = Some "License expired").
Proof.
  intros P now now' key Hle.
  unfold validateLicenseKey, validate_body, try_catch, obind.
  destruct (decode_license P key) as [[ps sg]|e]; cbn; [|split; auto; discriminate].
  destruct (verify P (Utf8.bytes ps) sg) as [[|]|e]; cbn;
    [|split; auto; discriminate|split; auto; discriminate].
  destruct (JSON.parse ps) as [p|e]; cbn; [|split; auto; discriminate].
  destruct (JSON.get "expiresAt" p) as [x|e]; cbn; [|split; auto; discriminate].
  destruct (is_expired P now x) eqn:E1.
  - rewrite (ExpiryFacts.is_expired_mono P now now' x Hle E1). cbn. split; auto.
  - destruct (is_expired P now' x); cbn; split; auto; discriminate.
Qed.

Lemma X21_witness :
  validateLicenseKey toy 1700000000005
    (Samples.unformatted_key toy Samples.entropy0 "a@example.com" 1 (Some 1))
  = validateLicenseKey toy 1700000000100
      (Samples.unformatted_key toy Samples.entropy0 "a@example.com" 1 (Some 1)).
Proof.
  apply (proj1 (X21_expiry_is_final toy 1700000000005 1700000000100
                  (Samples.unformatted_key toy Samples.entropy0 "a@example.com" 1
                     (Some 1)) ltac:(lia))).
  vm_compute. reflexivity.
Defined.

(** * Encoding and decoding *)

(** ** Base64 *)

Module Base64Facts.
Import Chars Base64 Observations.
Local Open Scope N_scope.

Lemma code_bound : forall c, code c < 256.
Proof. intro c. apply N_ascii_bounded. Qed.

Lemma chr_code : forall c, chr (code c) = c.
Proof. intro c. apply ascii_N_embedding. Qed.

(** Every character of the alphabet decodes to its index; none is the
    padding, a dash or outside ASCII. *)
Lemma enc_facts :
  forall n, n < 64 ->
    dec (enc n) = Some n
    /\ Ascii.eqb (enc n) "="%char = false
    /\ Ascii.eqb (enc n) "-"%char = false
    /\ (code (enc n) <? 128) = true.
Proof.
  intros n H. rewrite <- (N2Nat.id n).
  assert (Hk : (N.to_nat n < 64)%nat) by lia.
  generalize dependent (N.to_nat n). clear. intros k Hk.
  do 64 (destruct k as [|k]; [vm_compute; auto|]).
  lia.
Qed.

Lemma sextets_enc :
  forall n rest, n < 64 -> sextets (String (enc n) rest) = n :: sextets rest.
Proof.
  intros n rest H. destruct (enc_facts n H) as (Hd & He & _).
  cbn [sextets]. rewrite He, Hd. reflexivity.
Qed.

Lemma sextets_padding : forall rest, sextets (String "="%char rest) = [].
Proof. reflexivity. Qed.

Lemma list_ind3 :
  forall (A : Type) (Q : list A -> Prop),
    Q [] -> (forall a, Q [a]) -> (forall a b, Q [a; b]) ->
    (forall a b c l, Q l -> Q (a :: b :: c :: l)) ->
    forall l, Q l.
Proof.
  intros A Q H0 H1 H2 H3 l.
  assert (H : Q l /\ (forall a, Q (a :: l)) /\ forall a b, Q (a :: b :: l)).
  { induction l as [|x l (IH0 & IH1 & IH2)].
    - auto.
    - repeat split; auto. }
  apply H.
Qed.

Ltac euclid := zify; Z.to_euclidean_division_equations; lia.

(** [Buffer.from(buf.toString('base64'), 'base64')] gives the bytes back. *)
Lemma decode_encode : forall bs, decode (encode bs) = bs.
Proof.
  unfold decode. induction bs as [|a|a b|a b c l IH] using list_ind3.
  - reflexivity.
  - pose proof (code_bound a) as Ha.
    cbn [encode]. cbv zeta.
    rewrite !sextets_enc by euclid.
    change (sextets "==") with (@nil N). cbn [pack].
    f_equal. transitivity (chr (code a)); [f_equal; euclid | apply chr_code].
  - pose proof (code_bound a) as Ha. pose proof (code_bound b) as Hb.
    cbn [encode]. cbv zeta.
    rewrite !sextets_enc by euclid.
    change (sextets "=") with (@nil N). cbn [pack].
    f_equal; [|f_equal].
    + transitivity (chr (code a)); [f_equal; euclid | apply chr_code].
    + transitivity (chr (code b)); [f_equal; euclid | apply chr_code].
  - pose proof (code_bound a) as Ha. pose proof (code_bound b) as Hb.
    pose proof (code_bound c) as Hc.
    cbn [encode]. cbv zeta.
    rewrite !sextets_enc by euclid.
    cbn [pack]. rewrite IH.
    f_equal; [|f_equal; [|f_equal]].
    + transitivity (chr (code a)); [f_equal; euclid | apply chr_code].
    + transitivity (chr (code b)); [f_equal; euclid | apply chr_code].
    + transitivity (chr (code c)); [f_equal; euclid | apply chr_code].
Qed.

(** The text of an encoding holds ASCII characters and no dash. *)
Lemma encode_chars :
  forall bs,
    is_ascii (encode bs) = true
    /\ LicenseGenerator.remove_dashes (encode bs) = encode bs.
Proof.
  unfold is_ascii, LicenseGenerator.remove_dashes.
  induction bs as [|a|a b|a b c l [IH1 IH2]] using list_ind3.
  - split; reflexivity.
  - pose proof (code_bound a) as Ha.
    cbn [encode]. cbv zeta. cbn [sall sfilter].
    destruct (enc_facts (code a / 4)) as (_ & _ & D1 & A1); [euclid|].
    destruct (enc_facts (code a mod 4 * 16)) as (_ & _ & D2 & A2); [euclid|].
    rewrite D1, D2, A1, A2. split; reflexivity.
  - pose proof (code_bound a) as Ha. pose proof (code_bound b) as Hb.
    cbn [encode]. cbv zeta. cbn [sall sfilter].
    destruct (enc_facts (code a / 4)) as (_ & _ & D1 & A1); [euclid|].
    destruct (enc_facts (code a mod 4 * 16 + code b / 16)) as (_ & _ & D2 & A2);
      [euclid|].
    destruct (enc_facts (code b mod 16 * 4)) as (_ & _ & D3 & A3); [euclid|].
    rewrite D1, D2, D3, A1, A2, A3. split; reflexivity.
  - pose proof (code_bound a) as Ha. pose proof (code_bound b) as Hb.
    pose proof (code_bound c) as Hc.
    cbn [encode]. cbv zeta. cbn [sall sfilter].
    destruct (enc_facts (code a / 4)) as (_ & _ & D1 & A1); [euclid|].
    destruct (enc_facts (code a mod 4 * 16 + code b / 16)) as (_ & _ & D2 & A2);
      [euclid|].
    destruct (enc_facts (code b mod 16 * 4 + code c / 64)) as (_ & _ & D3 & A3);
      [euclid|].
    destruct (enc_facts (code c mod 64)) as (_ & _ & D4 & A4); [euclid|].
    rewrite D1, D2, D3, D4, A1, A2, A3, A4, IH1, IH2. split; reflexivity.
Qed.

End Base64Facts.

(** ** ASCII text and string literals *)

Module TextFacts.
Import Chars JSON LicenseGenerator Observations FormatFacts Base64Facts.
Local Open Scope N_scope.

Ltac each_byte b := destruct b as [[] [] [] [] [] [] [] []].

Lemma append_assoc :
  forall a b c : string, ((a ++ b) ++ c = a ++ (b ++ c))%string.
Proof.
  induction a as [|x a IH]; intros b c; cbn; [reflexivity|].
  rewrite IH. reflexivity.
Qed.

Lemma is_ascii_app :
  forall a b, is_ascii (a ++ b) = (is_ascii a && is_ascii b)%bool.
Proof. intros. apply sall_app. Qed.

Lemma is_ascii_cons :
  forall c s, is_ascii (String c s) = ((code c <? 128) && is_ascii s)%bool.
Proof. reflexivity. Qed.

(** [Buffer.from(s).toString('utf-8')] gives an ASCII string back. *)
Lemma toString_bytes :
  forall s, is_ascii s = true -> Utf8.toString (Utf8.bytes s) = s.
Proof.
  unfold Utf8.toString, Utf8.bytes.
  induction s as [|c s IH]; [reflexivity|].
  rewrite is_ascii_cons. intros H. apply andb_true_iff in H. destruct H as [Hc Hs].
  cbn [list_ascii_of_string Utf8.sanitize]. cbv zeta.
  apply N.ltb_lt in Hc.
  destruct (N.leb_spec (code c) 127) as [_|Hn]; [|lia].
  cbn [string_of_list_ascii]. rewrite IH by exact Hs. reflexivity.
Qed.

Lemma is_ascii_escape_char :
  forall c, (code c <? 128) = true -> is_ascii (escape_char c) = true.
Proof.
  intros c. each_byte c; vm_compute; auto.
Qed.

Lemma is_ascii_escape : forall s, is_ascii s = true -> is_ascii (escape s) = true.
Proof.
  induction s as [|c s IH]; [reflexivity|].
  rewrite is_ascii_cons. intros H. apply andb_true_iff in H. destruct H as [Hc Hs].
  cbn [escape]. rewrite is_ascii_app, is_ascii_escape_char, IH; auto.
Qed.

Lemma is_ascii_quote : forall s, is_ascii s = true -> is_ascii (quote s) = true.
Proof.
  intros s H. unfold quote. rewrite is_ascii_cons, is_ascii_app, is_ascii_escape by exact H.
  reflexivity.
Qed.

Lemma is_ascii_uint :
  forall d, is_ascii (NilEmpty.string_of_uint d) = true.
Proof.
  induction d; cbn [NilEmpty.string_of_uint]; try reflexivity;
    rewrite is_ascii_cons, IHd; reflexivity.
Qed.

Lemma is_ascii_number : forall z, is_ascii (number z) = true.
Proof.
  intros z. unfold number.
  assert (H : forall d, is_ascii (NilZero.string_of_uint d) = true).
  { intros d. destruct d; try reflexivity; apply is_ascii_uint. }
  destruct z as [|p|p]; cbn [Z.to_int NilZero.string_of_int].
  - reflexivity.
  - apply H.
  - rewrite is_ascii_cons, H. reflexivity.
Qed.

Lemma is_ascii_hex_digit : forall n, n < 16 -> (code (hex_digit n) <? 128) = true.
Proof.
  intros n H. rewrite <- (N2Nat.id n).
  assert (Hk : (N.to_nat n < 16)%nat) by lia.
  generalize dependent (N.to_nat n). clear. intros k Hk.
  do 16 (destruct k as [|k]; [vm_compute; auto|]).
  lia.
Qed.

Lemma is_ascii_to_hex : forall bs, is_ascii (to_hex bs) = true.
Proof.
  induction bs as [|b bs IH]; [reflexivity|].
  pose proof (code_bound b) as Hb.
  cbn [to_hex]. rewrite !is_ascii_cons, IH, !is_ascii_hex_digit by euclid.
  reflexivity.
Qed.

Lemma is_ascii_number_or_null : forall o, is_ascii (number_or_null o) = true.
Proof.
  intros [z|]; [apply is_ascii_number|reflexivity].
Qed.

Lemma is_ascii_stringify_pair :
  forall k1 v1 k2 v2,
    is_ascii k1 = true -> is_ascii v1 = true ->
    is_ascii k2 = true -> is_ascii v2 = true ->
    is_ascii (stringify_pair k1 v1 k2 v2) = true.
Proof.
  intros k1 v1 k2 v2 H1 H2 H3 H4. unfold stringify_pair.
  rewrite !is_ascii_app, !is_ascii_quote by assumption. reflexivity.
Qed.

Lemma is_ascii_stringify_payload :
  forall p, is_ascii (email p) = true -> is_ascii (nonce p) = true ->
    is_ascii (stringify_payload p) = true.
Proof.
  intros p He Hn. unfold stringify_payload.
  rewrite !is_ascii_app, !is_ascii_quote, !is_ascii_number, is_ascii_number_or_null
    by (assumption || reflexivity).
  reflexivity.
Qed.

Lemma is_ascii_stringify_token_data :
  forall key hw now, is_ascii key = true -> is_ascii hw = true ->
    is_ascii (stringify_token_data key hw now) = true.
Proof.
  intros key hw now Hk Hh. unfold stringify_token_data.
  rewrite !is_ascii_app, !is_ascii_quote, !is_ascii_number
    by (assumption || reflexivity).
  reflexivity.
Qed.

(** *** String literals *)

Lemma escape_char_items :
  forall c tail,
    exists it,
      string_items (escape_char c ++ tail) = cons_item it (string_items tail)
      /\ forall its, items_string (it :: its) = String c (items_string its).
Proof.
  intros c tail.
  each_byte c;
    match goal with
    | |- exists it, string_items (escape_char ?c ++ _) = _ /\ _ =>
        first [ exists (Raw c); split; [reflexivity|intros; reflexivity]
              | exists (Unit16 (code c)); split; [reflexivity|intros; reflexivity] ]
    end.
Qed.

Lemma string_items_escape :
  forall s rest,
    exists its,
      string_items (escape s ++ String dquote rest) = Some (its, rest)
      /\ items_string its = s.
Proof.
  induction s as [|c s IH]; intros rest.
  - exists []. split; reflexivity.
  - destruct (IH rest) as (its & H1 & H2).
    destruct (escape_char_items c (escape s ++ String dquote rest)) as (it & H3 & H4).
    exists (it :: its). cbn [escape].
    rewrite append_assoc, H3, H1. cbn [cons_item].
    split; [reflexivity|]. rewrite H4, H2. reflexivity.
Qed.

(** [JSON.parse] reads a string literal written by [JSON.stringify] back. *)
Lemma parse_string_escape :
  forall s rest, parse_string (escape s ++ String dquote rest) = Some (s, rest).
Proof.
  intros s rest. unfold parse_string.
  destruct (string_items_escape s rest) as (its & H1 & H2).
  rewrite H1, H2. reflexivity.
Qed.

Lemma quote_append :
  forall s rest,
    (quote s ++ rest = String dquote (escape s ++ String dquote rest))%string.
Proof.
  intros s rest. unfold quote, str1. cbn [String.append].
  rewrite append_assoc. reflexivity.
Qed.

Lemma parse_value_string :
  forall f s rest,
    parse_value (S f) (quote s ++ rest)%string = Returned (JStr s, rest).
Proof.
  intros f s rest. rewrite quote_append.
  change (parse_value (S f) (String dquote (escape s ++ String dquote rest)%string))
    with (match parse_string (escape s ++ String dquote rest) with
          | Some (str, r) => Returned (JStr str, r)
          | None => @Thrown (json * string) SyntaxError
          end).
  rewrite parse_string_escape. reflexivity.
Qed.

End TextFacts.

(** ** Numbers *)

Module NumberFacts.
Import Chars JSON LicenseGenerator Observations FormatFacts Base64Facts TextFacts.

(** The first digit written for a positive number is not 0. *)
Lemma to_uint_head : forall p l, Pos.to_uint p <> Decimal.D0 l.
Proof.
  intros p l H.
  assert (Hn : Decimal.unorm (Pos.to_uint p) = Pos.to_uint p).
  { rewrite <- (DecimalPos.Unsigned.to_of (Pos.to_uint p)).
    rewrite DecimalPos.Unsigned.of_to. reflexivity. }
  unfold Decimal.unorm in Hn.
  destruct (Decimal.nzhead (Pos.to_uint p)) eqn:Hz;
    try (rewrite H in Hn; discriminate).
  - symmetry in Hn. exact (DecimalPos.Unsigned.to_uint_nonzero p Hn).
  - exact (DecimalFacts.nzhead_nonzero _ _ Hz).
Qed.

(** What ends a number in the texts at hand: a comma or a closing brace. *)
Lemma span_uint :
  forall d rest,
    match rest with
    | String c _ => is_digit c = false
    | EmptyString => True
    end ->
    snd (span_digits (NilEmpty.string_of_uint d ++ rest)) = rest
    /\ (forall acc,
          fold_left (fun a x => a * 10 + Z.of_N x)
            (fst (span_digits (NilEmpty.string_of_uint d ++ rest))) (Z.pos acc)
          = Z.pos (Pos.of_uint_acc d acc))
    /\ fold_left (fun a x => a * 10 + Z.of_N x)
         (fst (span_digits (NilEmpty.string_of_uint d ++ rest))) 0
       = Z.of_N (Pos.of_uint d).
Proof.
  intros d rest Hrest.
  induction d as [|d (IH1 & IH2 & IH3)|d (IH1 & IH2 & IH3)|d (IH1 & IH2 & IH3)
                  |d (IH1 & IH2 & IH3)|d (IH1 & IH2 & IH3)|d (IH1 & IH2 & IH3)
                  |d (IH1 & IH2 & IH3)|d (IH1 & IH2 & IH3)|d (IH1 & IH2 & IH3)
                  |d (IH1 & IH2 & IH3)];
    cbn [NilEmpty.string_of_uint String.append];
    [ destruct rest as [|c r]; cbn [span_digits];
      [repeat split; reflexivity|rewrite Hrest; repeat split; reflexivity]
    | cbn [span_digits];
      match goal with
      | |- context [is_digit ?c] =>
          change (is_digit c) with true;
          let v := eval vm_compute in (code c - 48)%N in
          change (code c - 48)%N with v
      end;
      cbv iota;
      destruct (span_digits (NilEmpty.string_of_uint d ++ rest)) as [ds r];
      cbn [fst snd] in *; cbn [fold_left Pos.of_uint Pos.of_uint_acc];
      split; [exact IH1|]; split;
      [ intros acc; rewrite <- IH2; f_equal; lia
      | first [exact IH3 | cbn [Z.of_N]; rewrite <- IH2; f_equal] ] .. ].
Qed.

Lemma parse_unsigned_pos :
  forall p c r,
    c = ","%char \/ c = "}"%char ->
    parse_unsigned (NilEmpty.string_of_uint (Pos.to_uint p) ++ String c r)
    = Some (Z.pos p, 0, String c r).
Proof.
  intros p c r Hc.
  assert (Hstop : is_digit c = false) by (destruct Hc; subst; reflexivity).
  destruct (span_uint (Pos.to_uint p) (String c r) Hstop) as (S1 & _ & S3).
  rewrite DecimalPos.Unsigned.of_to in S3. cbn [Z.of_N] in S3.
  pose proof (to_uint_head p) as Hh.
  pose proof (DecimalPos.Unsigned.to_uint_nonnil p) as Hnil.
  revert S1 S3 Hh Hnil. generalize (Pos.to_uint p) as d. intros d S1 S3 Hh Hnil.
  destruct d as [|d|d|d|d|d|d|d|d|d|d];
    [ contradiction | exfalso; exact (Hh _ eq_refl) | .. ];
    cbn [NilEmpty.string_of_uint String.append] in S1, S3 |- *;
    match type of S1 with
    | snd (span_digits ?t) = _ => set (sp := span_digits t) in *
    end;
    unfold parse_unsigned;
    match goal with
    | |- context [is_digit ?k] =>
        change (is_digit k) with true; change (code k =? 48)%N with false
    end;
    cbv iota;
    match goal with
    | |- context [span_digits ?t] => change (span_digits t) with sp
    end;
    clearbody sp; destruct sp as [ds r1]; cbn [fst snd] in S1, S3; subst r1;
    destruct Hc; subst c; cbn; rewrite app_nil_r;
    unfold digits_value; rewrite S3; reflexivity.
Qed.

Lemma nilzero_uint :
  forall d, d <> Decimal.Nil -> NilZero.string_of_uint d = NilEmpty.string_of_uint d.
Proof.
  intros d H. destruct d; [contradiction|reflexivity..].
Qed.

Lemma uint_first :
  forall d rest, d <> Decimal.Nil ->
    exists c0 t,
      (NilEmpty.string_of_uint d ++ rest)%string = String c0 t /\ is_digit c0 = true.
Proof.
  intros d rest H.
  destruct d; [contradiction|..]; eexists; eexists; split; reflexivity.
Qed.

Lemma parse_number_digit :
  forall c0 t, is_digit c0 = true ->
    parse_number (String c0 t)
    = match parse_unsigned (String c0 t) with
      | Some (m, e, r) => Some (JNum m e, r)
      | None => None
      end.
Proof.
  intros c0 t H. unfold parse_number.
  destruct (N.eqb_spec (code c0) 45) as [E|_]; [|reflexivity].
  unfold is_digit, between in H. rewrite E in H. discriminate.
Qed.

(** [JSON.parse] reads an integer written by [JSON.stringify] back, when a
    comma or a closing brace follows. *)
Lemma parse_number_number :
  forall z c r,
    c = ","%char \/ c = "}"%char ->
    parse_number (number z ++ String c r) = Some (JNum z 0, String c r).
Proof.
  intros z c r Hc. unfold number.
  destruct z as [|p|p]; cbn [Z.to_int NilZero.string_of_int].
  - destruct Hc; subst c; reflexivity.
  - rewrite nilzero_uint by apply DecimalPos.Unsigned.to_uint_nonnil.
    destruct (uint_first (Pos.to_uint p) (String c r)
                (DecimalPos.Unsigned.to_uint_nonnil p)) as (c0 & t & E & Hd).
    pose proof (parse_unsigned_pos p c r Hc) as H.
    rewrite E in *. rewrite parse_number_digit, H by exact Hd. reflexivity.
  - rewrite nilzero_uint by apply DecimalPos.Unsigned.to_uint_nonnil.
    cbn [String.append]. unfold parse_number.
    change (code "-" =? 45)%N with true. cbv iota.
    rewrite (parse_unsigned_pos p c r Hc). reflexivity.
Qed.

Lemma number_first :
  forall z rest,
    exists c0 t,
      (number z ++ rest)%string = String c0 t
      /\ (is_digit c0 = true \/ c0 = "-"%char).
Proof.
  intros z rest. unfold number.
  destruct z as [|p|p]; cbn [Z.to_int NilZero.string_of_int].
  - eexists; eexists; split; [reflexivity|left; reflexivity].
  - rewrite nilzero_uint by apply DecimalPos.Unsigned.to_uint_nonnil.
    destruct (uint_first (Pos.to_uint p) rest
                (DecimalPos.Unsigned.to_uint_nonnil p)) as (c0 & t & E & Hd).
    exists c0, t. auto.
  - eexists; eexists; split; [reflexivity|right; reflexivity].
Qed.

Lemma parse_value_numeric :
  forall f c0 t,
    is_digit c0 = true \/ c0 = "-"%char ->
    parse_value (S f) (String c0 t) = of_option (parse_number (String c0 t)).
Proof.
  intros f c0 t H.
  each_byte c0;
    try reflexivity;
    exfalso; (destruct H as [H|H]; [vm_compute in H; discriminate|discriminate]).
Qed.

Lemma parse_value_number :
  forall f z c r,
    c = ","%char \/ c = "}"%char ->
    parse_value (S f) (number z ++ String c r) = Returned (JNum z 0, String c r).
Proof.
  intros f z c r Hc.
  pose proof (parse_number_number z c r Hc) as H.
  destruct (number_first z (String c r)) as (c0 & t & E & Hd).
  rewrite E in *. rewrite (parse_value_numeric f c0 t Hd), H. reflexivity.
Qed.

Lemma parse_value_null :
  forall f rest,
    parse_value (S f) (String "n" (String "u" (String "l" (String "l" rest))))
    = Returned (JNull, rest).
Proof.
  reflexivity.
Qed.

End NumberFacts.

(** ** Objects *)

Module ObjectFacts.
Import Chars JSON LicenseGenerator Observations FormatFacts Base64Facts TextFacts
  NumberFacts.

Lemma parse_object_open :
  forall f k rest,
    parse_value (S f) (String "{" (quote k ++ rest))
    = parse_members f (quote k ++ rest) [].
Proof.
  intros f k rest. rewrite quote_append. reflexivity.
Qed.

(** One member [key:value] followed by a comma or by the closing brace. *)
Lemma parse_member :
  forall f k vtext v c rest acc,
    parse_value f (vtext ++ String c rest) = Returned (v, String c rest) ->
    c = ","%char \/ c = "}"%char ->
    parse_members (S f) (quote k ++ String ":" (vtext ++ String c rest)) acc
    = if Ascii.eqb c ","
      then parse_members f rest ((k, v) :: acc)
      else Returned (JObj (rev ((k, v) :: acc)), rest).
Proof.
  intros f k vtext v c rest acc Hv Hc. rewrite quote_append.
  cbn -[parse_string parse_value].
  rewrite parse_string_escape.
  cbn -[parse_string parse_value parse_members].
  rewrite Hv.
  destruct Hc; subst c; reflexivity.
Qed.

Lemma parse_member_string_comma :
  forall f k s rest acc,
    parse_members (S (S f)) (quote k ++ String ":" (quote s ++ String "," rest)) acc
    = parse_members (S f) rest ((k, JStr s) :: acc).
Proof.
  intros. apply (parse_member (S f) k (quote s) (JStr s) ","%char);
    [apply parse_value_string|left; reflexivity].
Qed.

Lemma parse_member_string_brace :
  forall f k s rest acc,
    parse_members (S (S f)) (quote k ++ String ":" (quote s ++ String "}" rest)) acc
    = Returned (JObj (rev ((k, JStr s) :: acc)), rest).
Proof.
  intros. apply (parse_member (S f) k (quote s) (JStr s) "}"%char);
    [apply parse_value_string|right; reflexivity].
Qed.

Lemma parse_member_number_comma :
  forall f k z rest acc,
    parse_members (S (S f)) (quote k ++ String ":" (number z ++ String "," rest)) acc
    = parse_members (S f) rest ((k, JNum z 0) :: acc).
Proof.
  intros. apply (parse_member (S f) k (number z) (JNum z 0) ","%char);
    [apply parse_value_number|]; left; reflexivity.
Qed.

Lemma parse_member_number_brace :
  forall f k z rest acc,
    parse_members (S (S f)) (quote k ++ String ":" (number z ++ String "}" rest)) acc
    = Returned (JObj (rev ((k, JNum z 0) :: acc)), rest).
Proof.
  intros. apply (parse_member (S f) k (number z) (JNum z 0) "}"%char);
    [apply parse_value_number|]; right; reflexivity.
Qed.

Lemma parse_member_null_comma :
  forall f k rest acc,
    parse_members (S (S f))
      (quote k ++ String ":" (String "n" (String "u" (String "l" (String "l"
         (String "," rest)))))) acc
    = parse_members (S f) rest ((k, JNull) :: acc).
Proof.
  intros. apply (parse_member (S f) k "null" JNull ","%char);
    [apply parse_value_null|left; reflexivity].
Qed.

Lemma length_append :
  forall a b : string,
    String.length (a ++ b) = (String.length a + String.length b)%nat.
Proof.
  induction a as [|c a IH]; intros b; cbn; [reflexivity|].
  rewrite IH. reflexivity.
Qed.

(** The fuel [JSON.parse] starts with is enough for an object of five
    members that holds no object or array. *)
Lemma enough_fuel :
  forall k rest,
    exists f,
      (2 * String.length (String "{" (quote k ++ rest)) + 2
       = S (S (S (S (S (S (S f)))))))%nat.
Proof.
  intros k rest. rewrite quote_append. cbn [String.length].
  rewrite length_append. cbn [String.length].
  eexists (2 * (String.length (escape k) + String.length rest) + 1)%nat. lia.
Qed.

(** [JSON.parse(JSON.stringify(payload))] is the payload. *)
Lemma parse_stringify_payload :
  forall p, parse (stringify_payload p) = Returned (payload_json p).
Proof.
  intros p. unfold parse, stringify_payload, payload_json, number_or_null.
  destruct (expiresAt p) as [t|]; cbn [String.append json_number_or_null];
    match goal with
    | |- context [String.length (String "{" (quote ?k ++ ?rest))] =>
        destruct (enough_fuel k rest) as [f ->]
    end;
    rewrite parse_object_open, parse_member_string_comma,
      parse_member_number_comma.
  - rewrite parse_member_number_comma, parse_member_number_comma,
      parse_member_string_brace.
    reflexivity.
  - rewrite parse_member_null_comma, parse_member_number_comma,
      parse_member_string_brace.
    reflexivity.
Qed.

(** [JSON.parse(JSON.stringify(data))] is the data of a token. *)
Lemma parse_stringify_token_data :
  forall key hw now,
    parse (stringify_token_data key hw now) = Returned (token_json key hw now).
Proof.
  intros key hw now. unfold parse, stringify_token_data, token_json.
  cbn [String.append].
  match goal with
  | |- context [String.length (String "{" (quote ?k ++ ?rest))] =>
      destruct (enough_fuel k rest) as [f ->]
  end.
  rewrite parse_object_open, parse_member_string_comma,
    parse_member_string_comma, parse_member_number_brace.
  reflexivity.
Qed.

Lemma parse_stringify_pair :
  forall k1 v1 k2 v2,
    parse (stringify_pair k1 v1 k2 v2)
    = Returned (JObj [(k1, JStr v1); (k2, JStr v2)]).
Proof.
  intros k1 v1 k2 v2. unfold parse, stringify_pair.
  cbn [String.append].
  match goal with
  | |- context [String.length (String "{" (quote ?k ++ ?rest))] =>
      destruct (enough_fuel k rest) as [f ->]
  end.
  rewrite parse_object_open, parse_member_string_comma, parse_member_string_brace.
  reflexivity.
Qed.

End ObjectFacts.

(** ** Keys and tokens *)

Module EnvelopeFacts.
Import Chars JSON LicenseGenerator Observations FormatFacts Base64Facts TextFacts
  NumberFacts ObjectFacts.

(** The text that is encoded into a key or a token: two Base64 strings in
    an object.  It holds ASCII characters only, whatever was signed. *)
Lemma envelope_ascii :
  forall k1 k2 a b,
    is_ascii k1 = true -> is_ascii k2 = true ->
    is_ascii (stringify_pair k1 (Base64.encode a) k2 (Base64.encode b)) = true.
Proof.
  intros k1 k2 a b H1 H2.
  apply is_ascii_stringify_pair; auto; apply encode_chars.
Qed.

(** Decoding the encoded envelope and parsing it gives the two strings. *)
Lemma open_envelope :
  forall k1 k2 a b,
    is_ascii k1 = true -> is_ascii k2 = true ->
    parse
      (Utf8.toString
         (Base64.decode
            (Base64.encode
               (Utf8.bytes
                  (stringify_pair k1 (Base64.encode a) k2 (Base64.encode b))))))
    = Returned (JObj [(k1, JStr (Base64.encode a)); (k2, JStr (Base64.encode b))]).
Proof.
  intros k1 k2 a b H1 H2.
  rewrite decode_encode, toString_bytes by (apply envelope_ascii; assumption).
  apply parse_stringify_pair.
Qed.

Lemma lookup_first :
  forall k1 k2 v1 v2,
    String.eqb k1 k2 = false -> lookup k1 [(k1, v1); (k2, v2)] = Some v1.
Proof.
  intros k1 k2 v1 v2 H. cbn [lookup]. rewrite H, String.eqb_refl. reflexivity.
Qed.

Lemma lookup_second :
  forall k1 k2 v1 v2, lookup k2 [(k1, v1); (k2, v2)] = Some v2.
Proof.
  intros k1 k2 v1 v2. cbn [lookup]. rewrite String.eqb_refl. reflexivity.
Qed.

Lemma lookup_other :
  forall k k1 k2 v1 v2,
    String.eqb k k1 = false -> String.eqb k k2 = false ->
    lookup k [(k1, v1); (k2, v2)] = None.
Proof.
  intros k k1 k2 v1 v2 H1 H2. cbn [lookup]. rewrite H1, H2. reflexivity.
Qed.

Lemma get_expiresAt :
  forall p,
    get "expiresAt" (payload_json p)
    = Returned (Some (json_number_or_null (expiresAt p))).
Proof.
  reflexivity.
Qed.

Lemma is_expired_number_or_null :
  forall P now o,
    is_expired P now (Some (json_number_or_null o))
    = match o with
      | Some t => negb (t =? 0) && (t <? now)
      | None => false
      end.
Proof.
  intros P now [t|]; [|reflexivity].
  unfold is_expired, json_number_or_null, truthy, later_than, gt_decimal.
  cbn [Z.leb Z.compare Z.pow Z.pow_pos Pos.iter]. rewrite Z.mul_1_r. reflexivity.
Qed.

(** The token of [createActivationToken] passes [verifyActivationToken]. *)
Lemma token_verifies :
  forall P now licenseKey hardwareId,
    faithful P ->
    is_ascii licenseKey = true ->
    is_ascii hardwareId = true ->
    verifyActivationToken P (createActivationToken P now licenseKey hardwareId)
    = {| token_valid := true;
         token_data := Some (token_json licenseKey hardwareId now);
         token_error := None |}.
Proof.
  intros P now licenseKey hardwareId Hf Hk Hh.
  assert (Hd : is_ascii (stringify_token_data licenseKey hardwareId now) = true).
  { apply is_ascii_stringify_token_data; assumption. }
  unfold verifyActivationToken, verify_token_body, createActivationToken.
  cbv zeta.
  rewrite open_envelope by reflexivity.
  cbn [obind get].
  rewrite lookup_first, lookup_second by reflexivity.
  cbn [obind buffer_from].
  rewrite !decode_encode, toString_bytes by exact Hd.
  rewrite (Hf (Utf8.bytes (stringify_token_data licenseKey hardwareId now))).
  cbn [obind negb].
  rewrite parse_stringify_token_data. reflexivity.
Qed.

(** The signatures of the scheme used to run the definitions verify. *)
Lemma toy_faithful : faithful toy.
Proof.
  intros message. unfold toy, verify, sign, list_ascii_eqb.
  rewrite String.eqb_refl. reflexivity.
Qed.

End EnvelopeFacts.


Import Base64Facts TextFacts ObjectFacts EnvelopeFacts.

(** X22.  The encoding of a license, before [formatLicenseKey], is read
    back by [validateLicenseKey].  With a key pair whose signatures verify
    and an ASCII e-mail, the answer is the payload that was signed, or
    "License expired" when the payload has an expiry other than 0 that
    lies before the time of validation. *)
Theorem X22_unformatted_key_round_trip :
  forall P en email maxActivations expiresInDays now,
    faithful P ->
    is_ascii email = true ->
    validateLicenseKey P now
      (Samples.unformatted_key P en email maxActivations expiresInDays)
    = if match LicenseGenerator.expiresAt (build_payload en email maxActivations expiresInDays) with
         | Some t => negb (t =? 0) && (t <? now)
         | None => false
         end
      then {| valid := false; payload := None; error := Some "License expired" |}
      else {| valid := true;
              payload :=
                Some (payload_json
                        (build_payload en email maxActivations expiresInDays));
              error := None |}.
Proof.
  intros P en email maxActivations expiresInDays now Hf He.
  set (p := build_payload en email maxActivations expiresInDays).
  assert (Hp : is_ascii (stringify_payload p) = true).
  { apply is_ascii_stringify_payload; [exact He|apply is_ascii_to_hex]. }
  unfold validateLicenseKey, validate_body, decode_license, Samples.unformatted_key.
  cbv zeta. fold p.
  rewrite (proj2 (encode_chars _)).
  rewrite open_envelope by reflexivity.
  cbn [obind get].
  rewrite lookup_first, lookup_second by reflexivity.
  cbn [obind buffer_from].
  rewrite !decode_encode, toString_bytes by exact Hp.
  rewrite (Hf (Utf8.bytes (stringify_payload p))).
  cbn [obind negb].
  rewrite parse_stringify_payload. cbn [obind].
  rewrite get_expiresAt. cbn [obind].
  rewrite is_expired_number_or_null.
  destruct (match LicenseGenerator.expiresAt p with Some t => _ | None => _ end); reflexivity.
Qed.

Lemma X22_witness :
  validateLicenseKey toy 1700086400001
    (Samples.unformatted_key toy Samples.entropy0 "a@example.com" 3 (Some 1))
  = if match LicenseGenerator.expiresAt (build_payload Samples.entropy0 "a@example.com" 3 (Some 1)) with
       | Some t => negb (t =? 0) && (t <? 1700086400001)
       | None => false
       end
    then {| valid := false; payload := None; error := Some "License expired" |}
    else {| valid := true;
            payload :=
              Some (payload_json
                      (build_payload Samples.entropy0 "a@example.com" 3 (Some 1)));
            error := None |}.
Proof.
  apply (X22_unformatted_key_round_trip toy Samples.entropy0 "a@example.com" 3
           (Some 1) 1700086400001).
  - exact toy_faithful.
  - reflexivity.
Defined.

(** X23.  An activation token is read back.  With a key pair whose
    signatures verify and an ASCII license key and hardware identifier,
    [verifyActivationToken] accepts the token made by
    [createActivationToken] and returns the three fields that were
    signed. *)
Theorem X23_activation_token_round_trip :
  forall P now licenseKey hardwareId,
    faithful P ->
    is_ascii licenseKey = true ->
    is_ascii hardwareId = true ->
    verifyActivationToken P (createActivationToken P now licenseKey hardwareId)
    = {| token_valid := true;
         token_data := Some (token_json licenseKey hardwareId now);
         token_error := None |}.
Proof.
  intros P now licenseKey hardwareId Hf Hk Hh.
  apply token_verifies; assumption.
Qed.

Lemma X23_witness :
  verifyActivationToken toy
    (createActivationToken toy 1700000000000 "EYJWY-XLSB2-FKIJO-IZXLK" "machine-1")
  = {| token_valid := true;
       token_data :=
         Some (token_json "EYJWY-XLSB2-FKIJO-IZXLK" "machine-1" 1700000000000);
       token_error := None |}.
Proof.
  apply (X23_activation_token_round_trip toy 1700000000000
           "EYJWY-XLSB2-FKIJO-IZXLK" "machine-1").
  - exact toy_faithful.
  - reflexivity.
  - reflexivity.
Defined.

(** X24.  A token is no license key and a license key is no token.  For
    every key pair and every content, [validateLicenseKey] answers
    "Invalid license key format" to an activation token, and
    [verifyActivationToken] answers "Invalid token format" to the
    encoding of a license and to the key that [generateLicenseKey] hands
    out. *)
Theorem X24_keys_and_tokens_are_distinct :
  forall P now now' licenseKey hardwareId en email maxActivations expiresInDays,
    validateLicenseKey P now' (createActivationToken P now licenseKey hardwareId)
    = Samples.format_error
    /\ verifyActivationToken P
         (Samples.unformatted_key P en email maxActivations expiresInDays)
       = Samples.token_format_error
    /\ verifyActivationToken P
         (generateLicenseKey P en email maxActivations expiresInDays)
       = Samples.token_format_error.
Proof.
  intros P now now' licenseKey hardwareId en email maxActivations expiresInDays.
  split; [|split].
  - unfold validateLicenseKey, validate_body, decode_license, createActivationToken.
    cbv zeta.
    rewrite (proj2 (encode_chars _)).
    rewrite open_envelope by reflexivity.
    cbn [obind get].
    rewrite lookup_other by reflexivity.
    reflexivity.
  - unfold verifyActivationToken, verify_token_body, Samples.unformatted_key.
    cbv zeta.
    rewrite open_envelope by reflexivity.
    cbn [obind get].
    rewrite lookup_other by reflexivity.
    reflexivity.
  - rewrite GeneratorFacts.generateLicenseKey_constant.
    vm_compute. reflexivity.
Qed.

(** X25.  The token handed out by [activate] verifies.  With a key pair
    whose signatures verify and an ASCII license key and hardware
    identifier, a first activation returns a token that
    [verifyActivationToken] accepts and that carries the key, the hardware
    and the time of the call; a repeated activation returns no token. *)
Theorem X25_activate_hands_out_a_valid_token :
  forall P now input db out db',
    faithful P ->
    is_ascii (licenseKey input) = true ->
    is_ascii (hardwareId input) = true ->
    activate P now input db = (Returned out, db') ->
    if alreadyActivated out
    then activationToken out = None
    else exists token,
           activationToken out = Some token
           /\ verifyActivationToken P token
              = {| token_valid := true;
                   token_data :=
                     Some (token_json (licenseKey input) (hardwareId input) now);
                   token_error := None |}.
Proof.
  intros P now input db out db' Hf Hk Hh.
  unfold activate, bind, getLicenseByKey, getActivationByHardwareId.
  destruct db as [t|]; cbn [fst snd throw]; [|discriminate].
  destruct (find (key_is (licenseKey input)) (licenses t)) as [l|];
    [|discriminate].
  destruct (License.is_active (License.status l)); cbn [negb]; [|discriminate].
  destruct (find (active_on (License.id l) (hardwareId input)) (activations t))
    as [a|].
  - cbn. intros H. injection H as <- _. reflexivity.
  - destruct (License.maxActivations l <=? License.currentActivations l);
      [discriminate|].
    cbn [createActivation incrementActivationCount ret].
    intros H. injection H as <- _.
    cbn [alreadyActivated activationToken].
    eexists. split; [reflexivity|].
    apply token_verifies; assumption.
Qed.

Lemma X25_witness :
  exists token,
    activationToken Samples.first_output = Some token
    /\ verifyActivationToken toy token
       = {| token_valid := true;
            token_data := Some (token_json Samples.issued_key "H1" 20);
            token_error := None |}.
Proof.
  apply (X25_activate_hands_out_a_valid_token toy 20 (Samples.activate_input "H1")
           (Some Samples.one_license) Samples.first_output (Some Samples.one_active)).
  - exact toy_faithful.
  - reflexivity.
  - reflexivity.
  - reflexivity.
Defined.

(** * The statistics *)

Module StatsFacts.
Import LicenseDb Licensing Invariant Admin Queries StoreFacts.

Lemma count_app {A : Type} (p : A -> bool) (l1 l2 : list A) :
  count p (l1 ++ l2) = count p l1 + count p l2.
Proof.
  unfold count. rewrite filter_app, length_app. lia.
Qed.

Lemma count_map_same {A : Type} (p : A -> bool) (f : A -> A) (l : list A) :
  (forall x, p (f x) = p x) -> count p (map f l) = count p l.
Proof.
  intros H. unfold count. rewrite filter_map_same by exact H. rewrite length_map.
  reflexivity.
Qed.

Lemma license_has_bump status delta now lid l :
  license_has status (bump delta now lid l) = license_has status l.
Proof.
  unfold license_has. rewrite bump_status. reflexivity.
Qed.

Lemma active_touch now aid a :
  activation_is_active (update_activation (Activation.set_lastSeenAt now) aid a)
  = activation_is_active a.
Proof.
  unfold activation_is_active, update_activation.
  destruct (Activation.id a =? aid); reflexivity.
Qed.

(** The license counters of the statistics are those of the rows. *)
Lemma count_deactivate l a :
  NoDup (map Activation.id l) -> In a l ->
  Activation.is_active (Activation.status a) = true ->
  count activation_is_active
    (map (update_activation (Activation.set_status Activation.deactivated)
            (Activation.id a)) l)
  = count activation_is_active l - 1.
Proof.
  intros Hnd Hin Hact.
  destruct (map_update_unique (Activation.set_status Activation.deactivated) l a Hnd Hin)
    as (l1 & l2 & -> & ->).
  rewrite !count_app.
  assert (Hcons : forall x l,
             count activation_is_active (x :: l)
             = (if activation_is_active x then 1 else 0)
               + count activation_is_active l).
  { intros x l. unfold count. cbn [filter].
    destruct (activation_is_active x); cbn [List.length]; lia. }
  rewrite !Hcons.
  change (activation_is_active a) with (Activation.is_active (Activation.status a)).
  rewrite Hact.
  change (activation_is_active (Activation.set_status Activation.deactivated a))
    with false.
  cbv iota. lia.
Qed.

End StatsFacts.

Import StatsFacts.

(** X26.  The statistics follow the router.  On a store that keeps the
    counting invariant, a first activation raises [totalActivations] and
    [activeActivations] of [stats] by one, a repeated activation changes
    no number, and a deactivation lowers [activeActivations] by one and
    keeps [totalActivations]; none of them changes a number of
    licenses. *)
Theorem X26_stats_follow_the_router :
  forall P now input now' input' t s0,
    store_ok t ->
    fst (stats (Some t)) = Returned (Some s0) ->
    (forall out db1,
       activate P now input (Some t) = (Returned out, db1) ->
       exists s1,
         fst (stats db1) = Returned (Some s1)
         /\ totalLicenses s1 = totalLicenses s0
         /\ activeLicenses s1 = activeLicenses s0
         /\ expiredLicenses s1 = expiredLicenses s0
         /\ totalActivations s1
            = totalActivations s0 + (if alreadyActivated out then 0 else 1)
         /\ activeActivations s1
            = activeActivations s0 + (if alreadyActivated out then 0 else 1))
    /\ (forall db1,
          deactivate now' input' (Some t) = (Returned true, db1) ->
          exists s1,
            fst (stats db1) = Returned (Some s1)
            /\ totalLicenses s1 = totalLicenses s0
            /\ activeLicenses s1 = activeLicenses s0
            /\ expiredLicenses s1 = expiredLicenses s0
            /\ totalActivations s1 = totalActivations s0
            /\ activeActivations s1 = activeActivations s0 - 1).
Proof.
  intros P now input now' input' t s0 Hok Hs0.
  cbn in Hs0. injection Hs0 as <-.
  split.
  - intros out db1. unfold activate, bind, getLicenseByKey. cbn.
    destruct (find (key_is (licenseKey input)) (licenses t)) as [l|]; cbn;
      [|discriminate].
    destruct (License.is_active (License.status l)); cbn; [|discriminate].
    destruct (find (active_on (License.id l) (hardwareId input)) (activations t))
      as [a|]; cbn.
    + intros H. injection H as <- <-. eexists. split; [reflexivity|]. cbn.
      rewrite !(count_map_same _ _ _ (active_touch now (Activation.id a))).
      rewrite (count_map_same (fun _ => true)) by reflexivity.
      repeat split; lia.
    + destruct (License.maxActivations l <=? License.currentActivations l); cbn;
        [discriminate|].
      intros H. injection H as <- <-. eexists. split; [reflexivity|]. cbn.
      rewrite !count_app.
      rewrite (count_map_same (fun _ => true)) by reflexivity.
      rewrite !(count_map_same _ _ _ (license_has_bump _ 1 now (License.id l))).
      repeat split; try reflexivity.
  - intros db1. unfold deactivate, bind, getLicenseByKey. cbn.
    destruct (find (key_is (d_licenseKey input')) (licenses t)) as [l|]; cbn;
      [|discriminate].
    destruct (find (active_on (License.id l) (d_hardwareId input')) (activations t))
      as [a|] eqn:Ha; cbn; [|discriminate].
    intros H. injection H as <-. eexists. split; [reflexivity|]. cbn.
    apply find_active_on in Ha. destruct Ha as (Hin & _ & _ & Hact).
    rewrite (count_map_same (fun _ => true)) by reflexivity.
    rewrite !(count_map_same _ _ _ (license_has_bump _ (-1) now' (License.id l))).
    rewrite (count_map_same (fun _ : Activation.t => true)) by reflexivity.
    rewrite (count_deactivate _ a (activation_ids _ (keys _ Hok)) Hin Hact).
    repeat split; reflexivity.
Qed.

Lemma X26_witness :
  exists s1,
    fst (stats (snd (deactivate 30 (Samples.deactivate_input "H1")
                       (Some Samples.one_active)))) = Returned (Some s1)
    /\ totalLicenses s1 = 1
    /\ activeLicenses s1 = 1
    /\ expiredLicenses s1 = 0
    /\ totalActivations s1 = 1
    /\ activeActivations s1 = 1 - 1.
Proof.
  apply (proj2 (X26_stats_follow_the_router LicenseGenerator.toy 25
                  (Samples.activate_input "H2") 30 (Samples.deactivate_input "H1")
                  Samples.one_active
                  {| totalLicenses := 1; activeLicenses := 1; expiredLicenses := 0;
                     totalActivations := 1; activeActivations := 1 |}
                  ltac:(SampleFacts.solve_store_ok) eq_refl)).
  reflexivity.
Defined.

(** * Failed payments *)

Module PaymentFailureProperties.
Import LicenseDb PaymentService PaymentObservations PaymentFacts.

(** X27.  A failed payment records a purchase and nothing else.
    [handlePaymentFailure] has no [try]: without a database it throws
    "Database not available".  With one it appends a single purchase, with
    the next identifier, the identifier of the payment and status failed,
    and leaves the licensing tables as they are, so a later
    [handlePaymentSuccess] answers as it would have answered without the
    failure. *)
Theorem X27_failed_payment_records_a_purchase_only :
  forall P en now now' failedIntent paymentIntent db,
    match db with
    | None => handlePaymentFailure now failedIntent db = (Thrown not_available, None)
    | Some shop =>
        exists row,
          handlePaymentFailure now failedIntent db
          = (Returned tt,
             Some {| tables := tables shop;
                     purchases := purchases shop ++ [row];
                     next_purchase_id := next_purchase_id shop + 1 |})
          /\ purchase_id row = next_purchase_id shop
          /\ purchase_paymentId row = Some (id failedIntent)
          /\ purchase_status row = p_failed
    end
    /\ fst (handlePaymentSuccess P en now' paymentIntent
              (snd (handlePaymentFailure now failedIntent db)))
       = fst (handlePaymentSuccess P en now' paymentIntent db).
Proof.
  intros P en now now' failedIntent paymentIntent [shop|].
  - split.
    + eexists. repeat split.
    + unfold handlePaymentFailure, createPurchase. cbn [snd].
      destruct (existsb (key_is Samples.issued_key) (licenses (tables shop))) eqn:E.
      * rewrite !payment_refused by exact E. reflexivity.
      * rewrite !payment_accepted by exact E. reflexivity.
  - split; reflexivity.
Qed.

End PaymentFailureProperties.
